(** * Sarthi heatmap: scoring, grid aggregation, CSV export and refresh scheduling

    A shallow embedding of [frontend/js/heatmap.js] and the properties of
    its intensity scorer ([pointToHeatEntry]), spatial aggregator
    ([aggregateByGrid]), heat-array builder ([buildHeatArrayFromRows]), CSV
    export ([pointsToCSV]), refresh cycle ([fetchAndRender]) and debounced
    [moveend] handler.

    How the program is modelled:

    - Numbers.  A JavaScript number is a [num]: a real number, or one of
      NaN, +Infinity, -Infinity.  Arithmetic on the finite values is exact
      real arithmetic; rounding to binary64, overflow and the sign of zero
      are not represented.  The special values follow IEEE 754 as the
      language exposes it (NaN is absorbing, [Math.max] and [Math.min]
      return NaN when an argument is NaN, and so on).
    - Values.  A row is a [jsval], a JSON value; [Number(v)] follows the
      language, strings included.
    - Exceptions.  Code that can throw returns a [result]; code that also
      writes the page state is a state transformer that returns a [result]
      together with the state reached, so that writes made before a throw
      are kept.
    - The [Map] of cells is an association list in insertion order.
    - Time is counted in whole milliseconds and timers fire when due.
    - Conversions that throw.  The conversion of an object that has an own
      [toString] property (and of an array that holds one) to a number or
      to text throws a TypeError.  The first part reads such a conversion
      as NaN (as the text [[object Object]]); the module [Strict] embeds
      the scorer, the aggregator, the heat-array builder, the colour and
      the CSV export once more with the TypeError kept, and the properties
      that depend on it are stated there.
    - Rounding.  The module [Binary64] embeds the aggregator's loop once
      more on binary64 numbers; it shows where the sums of the program
      differ from exact sums. *)

From Stdlib Require Import Reals Lra Lia ZArith List String Ascii Bool.
From Stdlib Require Import Permutation DecimalString.
From Stdlib Require Floats Uint63.
Import ListNotations.

Set Implicit Arguments.
Local Set Warnings "-register-all".
Local Open Scope R_scope.
Local Open Scope string_scope.
Local Open Scope list_scope.

(* ================================================================= *)
(** ** JavaScript numbers *)

Inductive num : Type :=
| NaN
| PInf
| NInf
| Fin (x : R).

Definition Number_isFinite (a : num) : bool :=
  match a with Fin _ => true | _ => false end.

Definition Number_isNaN (a : num) : bool :=
  match a with NaN => true | _ => false end.

(** The sign of a real, as a three-way choice. *)
Definition by_sign (x : R) (pos neg zero : num) : num :=
  if Rlt_dec 0 x then pos else if Rlt_dec x 0 then neg else zero.

Definition num_add (a b : num) : num :=
  match a, b with
  | NaN, _ | _, NaN => NaN
  | PInf, NInf | NInf, PInf => NaN
  | PInf, _ | _, PInf => PInf
  | NInf, _ | _, NInf => NInf
  | Fin x, Fin y => Fin (x + y)
  end.

Definition num_neg (a : num) : num :=
  match a with
  | NaN => NaN
  | PInf => NInf
  | NInf => PInf
  | Fin x => Fin (- x)
  end.

Definition num_sub (a b : num) : num := num_add a (num_neg b).

Definition num_mul (a b : num) : num :=
  match a, b with
  | NaN, _ | _, NaN => NaN
  | Fin x, Fin y => Fin (x * y)
  | PInf, PInf | NInf, NInf => PInf
  | PInf, NInf | NInf, PInf => NInf
  | PInf, Fin x | Fin x, PInf => by_sign x PInf NInf NaN
  | NInf, Fin x | Fin x, NInf => by_sign x NInf PInf NaN
  end.

(** Division; a zero divisor is the positive zero. *)
Definition num_div (a b : num) : num :=
  match a, b with
  | NaN, _ | _, NaN => NaN
  | Fin x, Fin y =>
      if Req_dec_T y 0 then by_sign x PInf NInf NaN else Fin (x / y)
  | Fin _, _ => Fin 0
  | PInf, Fin y => if Rle_dec 0 y then PInf else NInf
  | NInf, Fin y => if Rle_dec 0 y then NInf else PInf
  | _, _ => NaN
  end.

Definition Math_max (a b : num) : num :=
  match a, b with
  | NaN, _ | _, NaN => NaN
  | PInf, _ | _, PInf => PInf
  | NInf, c | c, NInf => c
  | Fin x, Fin y => Fin (Rmax x y)
  end.

Definition Math_min (a b : num) : num :=
  match a, b with
  | NaN, _ | _, NaN => NaN
  | NInf, _ | _, NInf => NInf
  | PInf, c | c, PInf => c
  | Fin x, Fin y => Fin (Rmin x y)
  end.

(** The base-10 logarithm of a positive real. *)
Definition log10 (x : R) : R := ln x / ln 10.

Definition Math_log10 (a : num) : num :=
  match a with
  | NaN | NInf => NaN
  | PInf => PInf
  | Fin x => by_sign x (Fin (log10 x)) NaN NInf
  end.

(** [Math.round]: the nearest integer, a tie going up. *)
Definition Math_round (a : num) : num :=
  match a with
  | Fin x => Fin (IZR (Int_part (x + / 2)))
  | _ => a
  end.

Declare Scope num_scope.
Delimit Scope num_scope with num.
Bind Scope num_scope with num.
Infix "+" := num_add : num_scope.
Infix "-" := num_sub : num_scope.
Infix "*" := num_mul : num_scope.
Infix "/" := num_div : num_scope.

(* ================================================================= *)
(** ** Strings read as numbers

    [StringToNumber] follows the StringNumericLiteral grammar of the
    language: surrounding white space is dropped, the empty string is 0,
    a signed decimal literal (with optional fraction and exponent) or
    [Infinity] or an unsigned binary, octal or hexadecimal integer is its
    value, and anything else is NaN.  Only the ASCII white-space characters
    are recognised.  The grammar is decided on integers ([numeric_literal]);
    the reals enter in the last step only. *)

Local Close Scope R_scope.
Local Open Scope Z_scope.

Inductive numeric_literal : Type :=
| LitNaN
| LitInfinity (negative : bool)
| LitValue (mantissa exponent10 : Z).

Definition is_white_space (c : ascii) : bool :=
  let n := nat_of_ascii c in
  ((9 <=? n) && (n <=? 13) || (n =? 32))%nat.

Fixpoint trim_left (l : list ascii) : list ascii :=
  match l with
  | c :: t => if is_white_space c then trim_left t else l
  | [] => []
  end.

Definition trim (l : list ascii) : list ascii :=
  rev (trim_left (rev (trim_left l))).

Definition digit_value (base : Z) (c : ascii) : option Z :=
  let n := Z.of_nat (nat_of_ascii c) in
  let d := if (48 <=? n) && (n <=? 57) then n - 48
           else if (97 <=? n) && (n <=? 102) then n - 87
           else if (65 <=? n) && (n <=? 70) then n - 55
           else base in
  if d <? base then Some d else None.

(** Reads the longest run of digits: accumulated value, number of digits
    read, and the rest of the input. *)
Fixpoint read_digits (base : Z) (l : list ascii) (acc : Z) (cnt : nat)
  : Z * nat * list ascii :=
  match l with
  | c :: t =>
      match digit_value base c with
      | Some d => read_digits base t (acc * base + d) (S cnt)
      | None => (acc, cnt, l)
      end
  | [] => (acc, cnt, [])
  end.

Definition is_char (c : ascii) (s : string) : bool :=
  String.eqb (String c EmptyString) s.

Definition read_sign (l : list ascii) : bool * list ascii :=
  match l with
  | c :: t => if is_char c "+" then (false, t)
              else if is_char c "-" then (true, t)
              else (false, l)
  | [] => (false, [])
  end.

Definition exponent_part (l : list ascii) : option Z :=
  match l with
  | [] => Some 0
  | c :: t =>
      if is_char c "e" || is_char c "E" then
        let '(neg, u) := read_sign t in
        match read_digits 10 u 0 0 with
        | (v, S _, []) => Some (if neg then - v else v)
        | _ => None
        end
      else None
  end.

Definition unsigned_decimal (l : list ascii) : option (Z * Z) :=
  let '(ip, ni, r1) := read_digits 10 l 0 0 in
  let '(m, nf, r2) :=
    match r1 with
    | c :: t => if is_char c "." then read_digits 10 t ip 0 else (ip, O, r1)
    | [] => (ip, O, r1)
    end in
  if (ni + nf =? 0)%nat then None
  else match exponent_part r2 with
       | Some e => Some (m, e - Z.of_nat nf)
       | None => None
       end.

Definition non_decimal (base : Z) (l : list ascii) : numeric_literal :=
  match read_digits base l 0 0 with
  | (v, S _, []) => LitValue v 0
  | _ => LitNaN
  end.

Definition radix_prefix (l : list ascii) : option (Z * list ascii) :=
  match l with
  | z :: x :: t =>
      if is_char z "0" then
        if is_char x "x" || is_char x "X" then Some (16, t)
        else if is_char x "o" || is_char x "O" then Some (8, t)
        else if is_char x "b" || is_char x "B" then Some (2, t)
        else None
      else None
  | _ => None
  end.

Definition parse_numeric (s : string) : numeric_literal :=
  let l := trim (list_ascii_of_string s) in
  match l with
  | [] => LitValue 0 0
  | _ =>
      match radix_prefix l with
      | Some (base, t) => non_decimal base t
      | None =>
          let '(neg, u) := read_sign l in
          if String.eqb (string_of_list_ascii u) "Infinity" then LitInfinity neg
          else match unsigned_decimal u with
               | Some (m, e) => LitValue (if neg then - m else m) e
               | None => LitNaN
               end
      end
  end.

Local Close Scope Z_scope.
Local Open Scope R_scope.

Definition num_of_literal (p : numeric_literal) : num :=
  match p with
  | LitNaN => NaN
  | LitInfinity false => PInf
  | LitInfinity true => NInf
  | LitValue m e => Fin (IZR m * powerRZ 10 e)
  end.

Definition StringToNumber (s : string) : num := num_of_literal (parse_numeric s).

(* ================================================================= *)
(** ** JavaScript values

    The values that arrive in a JSON response: the primitives, plain
    objects (a list of named properties, the first binding of a name being
    the one that is read) and arrays. *)

Inductive jsval : Type :=
| VUndefined
| VNull
| VBool (b : bool)
| VNum (n : num)
| VStr (s : string)
| VObj (props : list (string * jsval))
| VArr (elems : list jsval).

(** [Number(v)].  A plain object converts to NaN.  An array converts as the
    text of its elements joined by commas: the empty array is 0, a
    one-element array converts as the text of that element, and a longer
    array, whose text holds a comma, is NaN. *)
Fixpoint Number (v : jsval) : num :=
  match v with
  | VUndefined => NaN
  | VNull => Fin 0
  | VBool b => if b then Fin 1 else Fin 0
  | VNum n => n
  | VStr s => StringToNumber s
  | VObj _ => NaN
  | VArr [] => Fin 0
  | VArr [x] =>
      match x with
      | VUndefined | VNull => Fin 0
      | VBool _ | VObj _ => NaN
      | _ => Number x
      end
  | VArr _ => NaN
  end.

(** [!v] is [negb (truthy v)]. *)
Definition truthy (v : jsval) : bool :=
  match v with
  | VUndefined | VNull => false
  | VBool b => b
  | VNum NaN => false
  | VNum (Fin x) => if Req_dec_T x 0 then false else true
  | VNum _ => true
  | VStr s => negb (String.eqb s "")
  | VObj _ | VArr _ => true
  end.

Definition nullish (v : jsval) : bool :=
  match v with VUndefined | VNull => true | _ => false end.

(** [a ?? b] *)
Definition coalesce (a b : jsval) : jsval := if nullish a then b else a.
Infix "??" := coalesce (at level 45, right associativity).

Fixpoint lookup_prop (props : list (string * jsval)) (name : string) : jsval :=
  match props with
  | [] => VUndefined
  | (k, v) :: rest => if String.eqb k name then v else lookup_prop rest name
  end.

(** The value of [v.name] for a [v] that is neither [null] nor
    [undefined].  None of the property names this module reads is defined on
    the prototypes of the primitives or of arrays. *)
Definition prop (v : jsval) (name : string) : jsval :=
  match v with
  | VObj props => lookup_prop props name
  | _ => VUndefined
  end.

(** ** Exceptions *)

Inductive exn : Type :=
| TypeError (what : string)
| FetchError (message : string).

Inductive result (A : Type) : Type :=
| Ok (a : A)
| Throw (e : exn).
Arguments Ok {A} a.
Arguments Throw {A} e.

Definition bind {A B} (c : result A) (k : A -> result B) : result B :=
  match c with
  | Ok a => k a
  | Throw e => Throw e
  end.

Notation "x <- c ;; k" := (bind c (fun x => k))
  (at level 61, c at next level, right associativity).

(** [v.name]: reading a property of [null] or [undefined] throws. *)
Definition get (v : jsval) (name : string) : result jsval :=
  if nullish v then Throw (TypeError name) else Ok (prop v name).

(** [p.a ?? p.b ?? ...]: the names are read from the left until one holds a
    value that is neither [null] nor [undefined]; the last is returned as it is. *)
Fixpoint read_first (p : jsval) (names : list string) : result jsval :=
  match names with
  | [] => Ok VUndefined
  | [n] => get p n
  | n :: rest => v <- get p n ;; if nullish v then read_first p rest else Ok v
  end.

(* ================================================================= *)
(** ** Constants of the module *)

Definition USE_AGGREGATION : bool := false.
Definition AGG_CELL_SIZE_DEG : num := Fin 0.0015.
Definition VISUAL_AMPLIFIER : num := Fin 2.0.
Definition MAX_INTENSITY_CLAMP : num := Fin 4.0.

(* ================================================================= *)
(** ** The intensity scorer: [pointToHeatEntry] *)

Record Meta : Type := {
  score : option num;   (* [None] is [null] *)
  samples : num;
  confidence : jsval
}.

Record HeatEntry : Type := {
  lat : num;
  lng : num;
  intensity : num;
  meta : Meta
}.

Definition pointToHeatEntry (p : jsval) : result (option HeatEntry) :=
  if negb (truthy p) then Ok None else
  lat_v <- read_first p ["lat"; "latitude"; "lat_deg"] ;;
  let lat := Number lat_v in
  lng_v <- read_first p ["lng"; "longitude"; "lon"; "lng_deg"] ;;
  let lng := Number lng_v in
  if negb (Number_isFinite lat) || negb (Number_isFinite lng) then Ok None else
  p_score <- get p "score" ;;
  let rawScore := if nullish p_score then None else Some (Number p_score) in
  let intensity :=
    match rawScore with
    | None => Fin 0.75
    | Some r => Math_max (Fin 0) (Math_min (Fin 1) (Fin 1.0 - r))
    end in
  samples_v <- read_first p ["samples"; "count"] ;;
  let samples := Math_max (Fin 1) (Number (samples_v ?? VNum (Fin 1))) in
  let boost :=
    Math_min (Fin 2.0) (Fin 0.45 + Math_log10 (samples + Fin 1) * Fin 0.32) in
  let intensity := (intensity * boost)%num in
  let intensity :=
    Math_max (Fin 0.01)
             (Math_min MAX_INTENSITY_CLAMP (intensity * VISUAL_AMPLIFIER)) in
  confidence_v <- read_first p ["confidence"; "confidence_numeric"] ;;
  Ok (Some {| lat := lat; lng := lng; intensity := intensity;
              meta := {| score := rawScore; samples := samples;
                         confidence := confidence_v ?? VNull |} |}).

(* ================================================================= *)
(** ** The spatial aggregator: [aggregateByGrid] *)

(** The text produced by [x.toFixed(6)], kept as the data that determines
    it: below 1e21 the sign and the integer [n] whose digits are printed
    with the point six places from the right ([n] is the integer nearest to
    [|x| * 10^6], a tie going up); from 1e21 on, the text of the number
    itself. *)
Inductive fixed_text : Type :=
| TxNaN
| TxInfinity (negative : bool)
| TxDigits (negative : bool) (n : Z)
| TxLarge (negative : bool) (x : R).

Definition toFixed6 (a : num) : fixed_text :=
  match a with
  | NaN => TxNaN
  | PInf => TxInfinity false
  | NInf => TxInfinity true
  | Fin x =>
      let negative := if Rlt_dec x 0 then true else false in
      if Rle_dec (10 ^ 21) (Rabs x) then TxLarge negative (Rabs x)
      else TxDigits negative (Int_part (Rabs x * 10 ^ 6 + / 2))
  end.

(** The key of a cell, the template text [`${a}:${b}`], as the pair of
    its two parts. *)
Definition cell_key : Type := (fixed_text * fixed_text)%type.

Definition fixed_text_eq_dec (a b : fixed_text) : {a = b} + {a <> b}.
Proof.
  decide equality; try apply bool_dec; try apply Z.eq_dec; apply Req_dec_T.
Defined.

Definition cell_key_eq_dec (a b : cell_key) : {a = b} + {a <> b}.
Proof.
  decide equality; apply fixed_text_eq_dec.
Defined.

Arguments fixed_text_eq_dec : simpl never.
Arguments cell_key_eq_dec : simpl never.

Record Cell : Type := {
  latSum : num;
  lngSum : num;
  weightSum : num;
  count : nat
}.

(** A [Map] keeps its entries in the order in which their keys were first
    set; setting a key that is present replaces its value in place. *)
Definition CellMap : Type := list (cell_key * Cell).

Fixpoint Map_get (m : CellMap) (k : cell_key) : option Cell :=
  match m with
  | [] => None
  | (k', v) :: rest => if cell_key_eq_dec k' k then Some v else Map_get rest k
  end.

Fixpoint Map_set (m : CellMap) (k : cell_key) (v : Cell) : CellMap :=
  match m with
  | [] => [(k, v)]
  | (k', v') :: rest =>
      if cell_key_eq_dec k' k then (k, v) :: rest
      else (k', v') :: Map_set rest k v
  end.

(** An element of the array [aggregateByGrid] returns. *)
Record Aggregated : Type := {
  a_lat : num;
  a_lng : num;
  a_intensity : num;
  a_count : nat
}.

(** The body of the first loop, for one row [r]. *)
Definition aggregate_row (cellSizeDeg : num) (cells : CellMap) (r : jsval)
  : result CellMap :=
  lat_v <- read_first r ["lat"; "latitude"; "lat_deg"] ;;
  let lat := Number lat_v in
  lng_v <- read_first r ["lng"; "longitude"; "lon"; "lng_deg"] ;;
  let lng := Number lng_v in
  if negb (Number_isFinite lat) || negb (Number_isFinite lng) then Ok cells else
  r_score <- get r "score" ;;
  let rawScore := if nullish r_score then None else Some (Number r_score) in
  let intensity :=
    match rawScore with
    | None => Fin 0.75
    | Some s => Math_max (Fin 0) (Math_min (Fin 1) (Fin 1.0 - s))
    end in
  samples_v <- read_first r ["samples"; "count"] ;;
  let samples := Math_max (Fin 1) (Number (samples_v ?? VNum (Fin 1))) in
  let boost :=
    Math_min (Fin 2.0) (Fin 0.45 + Math_log10 (samples + Fin 1) * Fin 0.32) in
  let pointIntensity := (intensity * boost * VISUAL_AMPLIFIER)%num in
  let pointIntensity :=
    Math_max (Fin 0.01) (Math_min MAX_INTENSITY_CLAMP pointIntensity) in
  let keyLat := (Math_round (lat / cellSizeDeg) * cellSizeDeg)%num in
  let keyLng := (Math_round (lng / cellSizeDeg) * cellSizeDeg)%num in
  let key := (toFixed6 keyLat, toFixed6 keyLng) in
  let cur :=
    match Map_get cells key with
    | Some c => c
    | None => {| latSum := Fin 0; lngSum := Fin 0; weightSum := Fin 0;
                 count := 0 |}
    end in
  let cur' := {| latSum := latSum cur + lat * pointIntensity;
                 lngSum := lngSum cur + lng * pointIntensity;
                 weightSum := weightSum cur + pointIntensity;
                 count := count cur + 1 |} in
  Ok (Map_set cells key cur').

(** [for (const r of rows) ...] *)
Fixpoint aggregate_rows (cellSizeDeg : num) (rows : list jsval)
  (cells : CellMap) : result CellMap :=
  match rows with
  | [] => Ok cells
  | r :: rest =>
      cells' <- aggregate_row cellSizeDeg cells r ;;
      aggregate_rows cellSizeDeg rest cells'
  end.

(** The body of the second loop, for one entry of the map. *)
Definition emit_cell (v : Cell) : Aggregated :=
  let avgLat := (latSum v / weightSum v)%num in
  let avgLng := (lngSum v / weightSum v)%num in
  let combinedIntensity := Math_min MAX_INTENSITY_CLAMP (weightSum v) in
  {| a_lat := avgLat; a_lng := avgLng; a_intensity := combinedIntensity;
     a_count := count v |}.

Definition aggregateByGrid (rows : list jsval) (cellSizeDeg : num)
  : result (list Aggregated) :=
  cells <- aggregate_rows cellSizeDeg rows [] ;;
  Ok (map (fun kv => emit_cell (snd kv)) cells).

(* ================================================================= *)
(** ** [buildHeatArrayFromRows] *)

(** A [[lat, lng, intensity]] triple handed to the heat layer. *)
Definition triple : Type := (num * num * num)%type.

(** [for (const r of rows) { const p = pointToHeatEntry(r); if (!p) continue;
    arr.push([p.lat, p.lng, p.intensity]); }] *)
Fixpoint push_entries (rows : list jsval) (arr : list triple)
  : result (list triple) :=
  match rows with
  | [] => Ok arr
  | r :: rest =>
      p <- pointToHeatEntry r ;;
      match p with
      | None => push_entries rest arr
      | Some e => push_entries rest (arr ++ [(lat e, lng e, intensity e)])
      end
  end.

(** [rows] is [None] when the argument is [null] or [undefined].  The
    constant [USE_AGGREGATION] is a parameter here so that both branches
    are kept. *)
Definition buildHeatArrayFromRowsWith (use_aggregation : bool)
  (rows : option (list jsval)) : result (list triple) :=
  match rows with
  | None => Ok []
  | Some [] => Ok []
  | Some rows =>
      if use_aggregation then
        aggregated <- aggregateByGrid rows AGG_CELL_SIZE_DEG ;;
        Ok (map (fun a => (a_lat a, a_lng a, a_intensity a)) aggregated)
      else push_entries rows []
  end.

Definition buildHeatArrayFromRows (rows : option (list jsval))
  : result (list triple) :=
  buildHeatArrayFromRowsWith USE_AGGREGATION rows.

(* ================================================================= *)
(** ** Reading a row; the scoring formula *)

Fixpoint first_prop (p : jsval) (names : list string) : jsval :=
  match names with
  | [] => VUndefined
  | [n] => prop p n
  | n :: rest => prop p n ?? first_prop p rest
  end.

Definition row_lat (p : jsval) : num :=
  Number (first_prop p ["lat"; "latitude"; "lat_deg"]).
Definition row_lng (p : jsval) : num :=
  Number (first_prop p ["lng"; "longitude"; "lon"; "lng_deg"]).
Definition row_score (p : jsval) : option num :=
  if nullish (prop p "score") then None else Some (Number (prop p "score")).
Definition row_samples (p : jsval) : num :=
  Number (first_prop p ["samples"; "count"] ?? VNum (Fin 1)).
Definition row_confidence (p : jsval) : jsval :=
  first_prop p ["confidence"; "confidence_numeric"] ?? VNull.

(** A row is accepted when both coordinates convert to finite numbers. *)
Definition accepted (p : jsval) : bool :=
  Number_isFinite (row_lat p) && Number_isFinite (row_lng p).

(** The intensity of a point as a function of its score and sample count. *)
Definition point_intensity (rawScore : option num) (samples_raw : num) : num :=
  let base :=
    match rawScore with
    | None => Fin 0.75
    | Some r => Math_max (Fin 0) (Math_min (Fin 1) (Fin 1.0 - r))
    end in
  let samples := Math_max (Fin 1) samples_raw in
  let boost :=
    Math_min (Fin 2.0) (Fin 0.45 + Math_log10 (samples + Fin 1) * Fin 0.32) in
  Math_max (Fin 0.01)
           (Math_min MAX_INTENSITY_CLAMP (base * boost * VISUAL_AMPLIFIER)).

(** The intensity of an unscored point observed once. *)
Definition unscored_single_intensity : R := 0.75 * (0.45 + log10 2 * 0.32) * 2.0.

(** Rows used in the examples. *)
Definition sample_unscored : jsval :=
  VObj [("lat", VNum (Fin 13.13)); ("lng", VNum (Fin 77.57));
        ("score", VNull); ("samples", VNum (Fin 1))].

(** The weight a row carries into its cell and the key of that cell. *)
Definition row_weight (r : jsval) : num :=
  point_intensity (row_score r) (row_samples r).

Definition row_key (cellSizeDeg : num) (r : jsval) : cell_key :=
  (toFixed6 (Math_round (row_lat r / cellSizeDeg) * cellSizeDeg)%num,
   toFixed6 (Math_round (row_lng r / cellSizeDeg) * cellSizeDeg)%num).

Definition zero_cell : Cell :=
  {| latSum := Fin 0; lngSum := Fin 0; weightSum := Fin 0; count := 0 |}.

Definition add_point (cur : Cell) (lat lng w : num) : Cell :=
  {| latSum := latSum cur + lat * w;
     lngSum := lngSum cur + lng * w;
     weightSum := weightSum cur + w;
     count := count cur + 1 |}.

Definition current_cell (cells : CellMap) (k : cell_key) : Cell :=
  match Map_get cells k with
  | Some c => c
  | None => zero_cell
  end.

Definition accumulate (cells : CellMap) (k : cell_key) (lat lng w : num)
  : CellMap :=
  Map_set cells k (add_point (current_cell cells k) lat lng w).

(** One pass of the first loop on a row that is an object. *)
Definition accumulate_row (cellSizeDeg : num) (cells : CellMap) (r : jsval)
  : CellMap :=
  if accepted r
  then accumulate cells (row_key cellSizeDeg r)
                  (row_lat r) (row_lng r) (row_weight r)
  else cells.

(** The accepted rows that fall into the cell of key [k]. *)
Definition members (cellSizeDeg : num) (k : cell_key) (rows : list jsval)
  : list jsval :=
  filter (fun r => accepted r &&
                   if cell_key_eq_dec (row_key cellSizeDeg r) k
                   then true else false) rows.

(** Sums are taken from the left, starting at 0, as the loop does. *)
Definition num_sum (l : list num) : num := fold_left num_add l (Fin 0).

(** Merging the sums of two cell maps: the entries of the second are added,
    in order, to the first. *)
Definition cell_add (a b : Cell) : Cell :=
  {| latSum := latSum a + latSum b;
     lngSum := lngSum a + lngSum b;
     weightSum := weightSum a + weightSum b;
     count := count a + count b |}.

Definition merge_entry (m : CellMap) (kv : cell_key * Cell) : CellMap :=
  Map_set m (fst kv)
          (match Map_get m (fst kv) with
           | Some c => cell_add c (snd kv)
           | None => snd kv
           end).

Definition merge_cells (m1 m2 : CellMap) : CellMap :=
  fold_left merge_entry m2 m1.

(** A row whose score and sample count, where present, are numbers. *)
Definition numeric_inputs (r : jsval) : Prop :=
  row_score r <> Some NaN /\ row_samples r <> NaN.

Definition in_clamp (a : num) : Prop :=
  exists x : R, a = Fin x /\ 0.01 <= x <= 4.0.

Definition keys (m : CellMap) : list cell_key := map fst m.

(** The cell built from the members of a key, added in order to what the map
    held for that key at the start. *)
Definition cell_of_members (start : option Cell) (ms : list jsval)
  : option Cell :=
  fold_left
    (fun oc r =>
       Some (add_point (match oc with Some c => c | None => zero_cell end)
                       (row_lat r) (row_lng r) (row_weight r)))
    ms start.

Definition is_object (r : jsval) : Prop := nullish r = false.

(** The triple a row yields in the heat array. *)
Definition heat_triple (r : jsval) : triple :=
  (row_lat r, row_lng r, row_weight r).



Definition sample_text_score : jsval :=
  VObj [("lat", VNum (Fin 13.13)); ("lng", VNum (Fin 77.57));
        ("score", VStr "high")].

Definition sample_text_lat : jsval :=
  VObj [("lat", VStr "x"); ("lng", VNum (Fin 12.9))].

Definition sample_scored : jsval :=
  VObj [("lat", VNum (Fin 13.1301)); ("lng", VNum (Fin 77.5702));
        ("score", VNum (Fin 0.25)); ("samples", VNum (Fin 9));
        ("confidence", VNum (Fin 0.8))].

Definition sample_rows : list jsval :=
  [sample_scored; sample_unscored; sample_text_lat].

(* ================================================================= *)
(** ** CSV export: [pointsToCSV]

    The text of a number, [Number::toString], cannot be defined on the
    reals; it is a parameter of this section. *)

Definition newline : string := String (ascii_of_nat 10) EmptyString.

Section CSV.

Variable NumberToString : num -> string.

(** [String(v)], as [Array.prototype.join] calls it on an element. *)
Fixpoint ToString (v : jsval) : string :=
  match v with
  | VUndefined => "undefined"
  | VNull => "null"
  | VBool b => if b then "true" else "false"
  | VNum n => NumberToString n
  | VStr s => s
  | VObj _ => "[object Object]"
  | VArr l =>
      String.concat ","
        (map (fun x => match x with
                       | VUndefined | VNull => ""
                       | _ => ToString x
                       end) l)
  end.

(** The text of an element inside [join]: [null] and [undefined] give the
    empty text. *)
Definition field_text (v : jsval) : string :=
  match v with
  | VUndefined | VNull => ""
  | _ => ToString v
  end.

(** [r.join(sep)] *)
Definition Array_join (sep : string) (r : list jsval) : string :=
  String.concat sep (map field_text r).

Definition headers : list jsval :=
  [VStr "lat"; VStr "lng"; VStr "score"; VStr "samples"; VStr "confidence"].

(** [p => [p.lat, p.lng, (p.score ?? ''), (p.samples ?? ''), (p.confidence ?? '')]] *)
Definition csv_row (p : jsval) : result (list jsval) :=
  p_lat <- get p "lat" ;;
  p_lng <- get p "lng" ;;
  p_score <- get p "score" ;;
  p_samples <- get p "samples" ;;
  p_confidence <- get p "confidence" ;;
  Ok [p_lat; p_lng; p_score ?? VStr ""; p_samples ?? VStr "";
      p_confidence ?? VStr ""].

(** [points.map(f)] for an [f] that may throw. *)
Fixpoint Array_map {A B} (f : A -> result B) (l : list A) : result (list B) :=
  match l with
  | [] => Ok []
  | x :: rest => y <- f x ;; ys <- Array_map f rest ;; Ok (y :: ys)
  end.

Definition pointsToCSV (points : list jsval) : result string :=
  rows <- Array_map csv_row points ;;
  Ok (String.concat newline (map (Array_join ",") (headers :: rows))).

End CSV.

(** [s.split(sep)] for a separator of one character. *)
Fixpoint split (sep : ascii) (s : string) : list string :=
  match s with
  | EmptyString => [EmptyString]
  | String c rest =>
      if Ascii.eqb c sep then EmptyString :: split sep rest
      else match split sep rest with
           | first :: others => String c first :: others
           | [] => [String c EmptyString]
           end
  end.

(** Modelled from the spec: the reading of one field of the exported CSV
    (the repository holds no reader).  An empty field is a missing value;
    any other field is read as a number. *)
Definition parse_field (s : string) : option num :=
  if String.eqb s "" then None else Some (StringToNumber s).

(** Modelled from the spec: the reading of one line, which must hold the
    five fields. *)
Definition parse_line (line : string) : option (list (option num)) :=
  let fields := split "," line in
  if (List.length fields =? 5)%nat then Some (map parse_field fields) else None.

(** Modelled from the spec: the reading of the lines after the header. *)
Fixpoint parse_lines (lines : list string) : option (list (list (option num))) :=
  match lines with
  | [] => Some []
  | line :: rest =>
      match parse_line line, parse_lines rest with
      | Some t, Some ts => Some (t :: ts)
      | _, _ => None
      end
  end.

(** Modelled from the spec: the reading back of the exported CSV, which the
    repository does not contain.  The text is cut at line breaks; the first
    line must be the header [lat,lng,score,samples,confidence]; every
    other line is cut at commas and gives one tuple. *)
Definition parseCSV (csv : string) : option (list (list (option num))) :=
  match split (ascii_of_nat 10) csv with
  | header :: lines =>
      if String.eqb header "lat,lng,score,samples,confidence"
      then parse_lines lines else None
  | [] => None
  end.

(** The tuple [(lat, lng, score, samples, confidence)] of a point whose
    fields are numbers or missing: a number is itself, [null] and
    [undefined] are the missing value. *)
Definition csv_value (v : jsval) : option num :=
  match v with VNum x => Some x | _ => None end.

Definition csv_tuple (p : jsval) : list (option num) :=
  map (fun name => csv_value (prop p name))
      ["lat"; "lng"; "score"; "samples"; "confidence"].

Definition number_or_missing (v : jsval) : Prop :=
  match v with
  | VNum _ | VUndefined | VNull => True
  | _ => False
  end.

Fixpoint has_char (c : ascii) (s : string) : bool :=
  match s with
  | EmptyString => false
  | String a rest => Ascii.eqb a c || has_char c rest
  end.

(** A number whose text holds no separator, is not empty and reads back as
    the number. *)
Definition reads_back (NumberToString : num -> string) (x : num) : Prop :=
  has_char "," (NumberToString x) = false /\
  has_char (ascii_of_nat 10) (NumberToString x) = false /\
  NumberToString x <> "" /\
  StringToNumber (NumberToString x) = x.

Definition exportable (NumberToString : num -> string) (p : jsval) : Prop :=
  is_object p /\
  forall name, In name ["lat"; "lng"; "score"; "samples"; "confidence"] ->
    number_or_missing (prop p name) /\
    forall x, prop p name = VNum x -> reads_back NumberToString x.

(** [Number::toString] on the integers (below 1e21 they print as their
    decimal digits); the other finite numbers are not needed and print as
    ["?"]. *)
Definition NumberToString_integers (n : num) : string :=
  match n with
  | NaN => "NaN"
  | PInf => "Infinity"
  | NInf => "-Infinity"
  | Fin x =>
      if Req_dec_T x (IZR (Int_part x))
      then NilZero.string_of_int (Z.to_int (Int_part x))
      else "?"
  end.

(** Point sets used in the examples. *)
Definition sample_export : list jsval :=
  [VObj [("lat", VNum (Fin 13)); ("lng", VNum (Fin 77));
         ("score", VNum (Fin 1)); ("samples", VNum (Fin 4));
         ("confidence", VNull)];
   VObj [("lat", VNum (Fin 12)); ("lng", VNum (Fin 78)); ("score", VNull)]].

Definition sample_comma : jsval :=
  VObj [("lat", VNum (Fin 13)); ("lng", VNum (Fin 77));
        ("score", VNum (Fin 1)); ("samples", VNum (Fin 4));
        ("confidence", VStr "high,verified")].

Definition sample_comma_twin : jsval :=
  VObj [("lat", VNum (Fin 13)); ("lng", VNum (Fin 77));
        ("score", VStr "1,4"); ("samples", VStr "high");
        ("confidence", VStr "verified")].

(** The text of the CSV row of a point. *)
Definition row_text (NumberToString : num -> string) (p : jsval) : string :=
  String.concat ","
    (map (fun name => field_text NumberToString (prop p name))
         ["lat"; "lng"; "score"; "samples"; "confidence"]).

(* ================================================================= *)
(** ** The refresh cycle: [fetchAndRender]

    The state the closure of [initHeatmapPage] and the page hold, as far as
    a refresh cycle reads or writes it.  Texts that embed numbers are kept
    as the data that determines them. *)

Inductive feedback_text : Type :=
| LoadingPoints                                (* 'Loading points...' *)
| PointsLoaded (n : nat) (avg : option num)    (* `${n} points loaded.`, with the average score when there is one *)
| FailedToLoad (err : exn).                    (* `Failed to load data: ${err.message || err}` *)

Inductive marker_kind : Type := FallbackMarker | CompactMarker.

Record Marker : Type := {
  m_kind : marker_kind;
  m_lat : num;
  m_lng : num;
  m_point : jsval
}.

Record Page : Type := {
  lastFetchedPoints : list jsval;
  sarthi_heatmap_params : jsval * jsval;     (* window._sarthi_heatmap_params: band, min_samples *)
  formFeedback : option feedback_text;       (* what the module last wrote to #formFeedback *)
  heatLayer : option (list triple);          (* [None]: not created yet *)
  heatLayerOnMap : bool;
  markersLayer : list Marker;
  markersLayerOnMap : bool
}.

(** What the page offers: the [#formFeedback] element and the
    [L.heatLayer] plugin may be absent. *)
Record Dom : Type := {
  has_formFeedback : bool;
  has_heatLayer : bool
}.

(** The body of a response: an array; or a value whose [points] and [data]
    properties are each an array ([Some]) or falsy or absent ([None]); or
    [null] or [undefined]. *)
Inductive response : Type :=
| RArray (rows : list jsval)
| RObject (points data : option (list jsval))
| RNullish.

(** Computations that read and write the page and may throw; the writes made
    before a throw stay. *)
Definition M (A : Type) : Type := Page -> Page * result A.

Definition retM {A} (a : A) : M A := fun s => (s, Ok a).
Definition throwM {A} (e : exn) : M A := fun s => (s, Throw e).
Definition liftM {A} (r : result A) : M A := fun s => (s, r).
Definition modify (f : Page -> Page) : M unit := fun s => (f s, Ok tt).
Definition read {A} (f : Page -> A) : M A := fun s => (s, Ok (f s)).

Definition bindM {A B} (c : M A) (k : A -> M B) : M B :=
  fun s =>
    match c s with
    | (s', Ok a) => k a s'
    | (s', Throw e) => (s', Throw e)
    end.

(** [try { body } catch (err) { handler }] *)
Definition try_catch {A} (body : M A) (handler : exn -> M A) : M A :=
  fun s =>
    match body s with
    | (s', Throw e) => handler e s'
    | done => done
    end.

Notation "x <~ c ;; k" := (bindM c (fun x => k))
  (at level 61, c at next level, right associativity).
Notation "c ;;; k" := (bindM c (fun _ => k))
  (at level 61, right associativity).

Definition set_lastFetchedPoints (pts : list jsval) (s : Page) : Page :=
  {| lastFetchedPoints := pts;
     sarthi_heatmap_params := sarthi_heatmap_params s;
     formFeedback := formFeedback s;
     heatLayer := heatLayer s; heatLayerOnMap := heatLayerOnMap s;
     markersLayer := markersLayer s; markersLayerOnMap := markersLayerOnMap s |}.

Definition set_params (p : jsval * jsval) (s : Page) : Page :=
  {| lastFetchedPoints := lastFetchedPoints s;
     sarthi_heatmap_params := p;
     formFeedback := formFeedback s;
     heatLayer := heatLayer s; heatLayerOnMap := heatLayerOnMap s;
     markersLayer := markersLayer s; markersLayerOnMap := markersLayerOnMap s |}.

Definition set_formFeedback (t : feedback_text) (s : Page) : Page :=
  {| lastFetchedPoints := lastFetchedPoints s;
     sarthi_heatmap_params := sarthi_heatmap_params s;
     formFeedback := Some t;
     heatLayer := heatLayer s; heatLayerOnMap := heatLayerOnMap s;
     markersLayer := markersLayer s; markersLayerOnMap := markersLayerOnMap s |}.

Definition set_heatLayer (arr : list triple) (s : Page) : Page :=
  {| lastFetchedPoints := lastFetchedPoints s;
     sarthi_heatmap_params := sarthi_heatmap_params s;
     formFeedback := formFeedback s;
     heatLayer := Some arr; heatLayerOnMap := true;
     markersLayer := markersLayer s; markersLayerOnMap := markersLayerOnMap s |}.

Definition set_markersLayer (ms : list Marker) (s : Page) : Page :=
  {| lastFetchedPoints := lastFetchedPoints s;
     sarthi_heatmap_params := sarthi_heatmap_params s;
     formFeedback := formFeedback s;
     heatLayer := heatLayer s; heatLayerOnMap := heatLayerOnMap s;
     markersLayer := ms; markersLayerOnMap := markersLayerOnMap s |}.

Definition set_markersLayerOnMap (b : bool) (s : Page) : Page :=
  {| lastFetchedPoints := lastFetchedPoints s;
     sarthi_heatmap_params := sarthi_heatmap_params s;
     formFeedback := formFeedback s;
     heatLayer := heatLayer s; heatLayerOnMap := heatLayerOnMap s;
     markersLayer := markersLayer s; markersLayerOnMap := b |}.

(** [a || b] *)
Definition js_or (a b : jsval) : jsval := if truthy a then a else b.

(** [pts.filter(p => p.score !== undefined && p.score !== null &&
    !Number.isNaN(Number(p.score)))] *)
Fixpoint valid_scores (pts : list jsval) : result (list jsval) :=
  match pts with
  | [] => Ok []
  | p :: rest =>
      p_score <- get p "score" ;;
      rest' <- valid_scores rest ;;
      Ok (if negb (nullish p_score) && negb (Number_isNaN (Number p_score))
          then p :: rest' else rest')
  end.

(** [valid.reduce((acc, p) => acc + Number(p.score || 0), 0) / valid.length] *)
Definition average_score (valid : list jsval) : num :=
  (fold_left (fun acc p => acc + Number (js_or (prop p "score") (VNum (Fin 0))))
             valid (Fin 0)
   / Fin (INR (List.length valid)))%num.

Definition updateLeftFeedback (dom : Dom) (pts : list jsval) : M unit :=
  if negb (has_formFeedback dom) then retM tt else
  let n := List.length pts in
  avg <~ liftM (match pts with
                | [] => Ok None
                | _ => valid <- valid_scores pts ;;
                       match valid with
                       | [] => Ok None
                       | _ => Ok (Some (average_score valid))
                       end
                end) ;;
  modify (set_formFeedback (PointsLoaded n avg)).

(** [pts.forEach(p => { if (typeof p.lat !== 'number' ||
    typeof p.lng !== 'number') return; ...; markersLayer.addLayer(m); })] *)
Fixpoint add_markers (kind : marker_kind) (pts : list jsval) : M unit :=
  match pts with
  | [] => retM tt
  | p :: rest =>
      p_lat <~ liftM (get p "lat") ;;
      match p_lat with
      | VNum la =>
          p_lng <~ liftM (get p "lng") ;;
          match p_lng with
          | VNum lo =>
              modify (fun s =>
                set_markersLayer
                  (markersLayer s ++
                   [{| m_kind := kind; m_lat := la; m_lng := lo; m_point := p |}]) s) ;;;
              add_markers kind rest
          | _ => add_markers kind rest
          end
      | _ => add_markers kind rest
      end
  end.

Definition points_of (data : response) : result (list jsval) :=
  match data with
  | RArray rows => Ok rows
  | RObject (Some pts) _ => Ok pts
  | RObject None (Some pts) => Ok pts
  | RObject None None => Ok []
  | RNullish => Throw (TypeError "points")
  end.

Section Refresh.

Variable dom : Dom.
(** The arguments of [initHeatmapPage]. *)
Variables band min_samples : jsval.
(** [safeApiGet('/heatmap_data', { band, min_samples, bbox })], awaited:
    the answer to a request, the body of the response or the error the
    promise is rejected with. *)
Variable safeApiGet : jsval * jsval -> result response.

(** The part of [fetchAndRender] that runs before the request is sent. *)
Definition fetchAndRender_begin (b ms : jsval) : M (jsval * jsval) :=
  let params := (b ?? band, ms ?? min_samples) in
  modify (set_params params) ;;;
  (if has_formFeedback dom then modify (set_formFeedback LoadingPoints)
   else retM tt) ;;;
  retM params.

(** The part that runs when the request is settled. *)
Definition fetchAndRender_resume (outcome : result response) : M (list jsval) :=
  try_catch
    (data <~ liftM outcome ;;
     pts <~ liftM (points_of data) ;;
     modify (set_lastFetchedPoints pts) ;;;
     updateLeftFeedback dom pts ;;;
     heatArr <~ liftM (buildHeatArrayFromRows (Some pts)) ;;
     (if has_heatLayer dom then modify (set_heatLayer heatArr)
      else (modify (set_markersLayer []) ;;;
            add_markers FallbackMarker pts)) ;;;
     modify (set_markersLayer []) ;;;
     add_markers CompactMarker pts ;;;
     layer <~ read heatLayer ;;
     shown <~ read markersLayerOnMap ;;
     (match layer with
      | Some _ => if shown then modify (set_markersLayerOnMap false) else retM tt
      | None => retM tt
      end) ;;;
     retM pts)
    (fun err =>
       (if has_formFeedback dom then modify (set_formFeedback (FailedToLoad err))
        else retM tt) ;;;
       throwM err).

Definition fetchAndRender (b ms : jsval) : M (list jsval) :=
  params <~ fetchAndRender_begin b ms ;;
  fetchAndRender_resume (safeApiGet params).

End Refresh.

(* ================================================================= *)
(** ** The refresh scheduler: the [moveend] handler and its timer

    Time is counted in milliseconds.  A timer set with a delay fires when
    the clock has reached its due time and it has not been cleared. *)

Record Timers : Type := {
  clock : nat;
  fetchTimeout : option nat;        (* [null], or the id [setTimeout] returned *)
  pending : list (nat * nat);       (* the timers that are set: id and due time *)
  next_id : nat;
  fetches : nat                     (* calls of [controller.fetchAndRender] by the timer *)
}.

Definition clearTimeout (id : nat) (t : Timers) : Timers :=
  {| clock := clock t; fetchTimeout := fetchTimeout t;
     pending := filter (fun p => negb (fst p =? id)%nat) (pending t);
     next_id := next_id t; fetches := fetches t |}.

Definition setTimeout (delay : nat) (t : Timers) : nat * Timers :=
  (next_id t,
   {| clock := clock t; fetchTimeout := fetchTimeout t;
      pending := pending t ++ [(next_id t, clock t + delay)%nat];
      next_id := S (next_id t); fetches := fetches t |}).

(** [map.on('moveend', () => { if (fetchTimeout) clearTimeout(fetchTimeout);
    fetchTimeout = setTimeout(() => controller.fetchAndRender(), 300); })] *)
Definition on_moveend (t : Timers) : Timers :=
  let t1 := match fetchTimeout t with
            | Some (S id) => clearTimeout (S id) t
            | _ => t
            end in
  let (id, t2) := setTimeout 300 t1 in
  {| clock := clock t2; fetchTimeout := Some id; pending := pending t2;
     next_id := next_id t2; fetches := fetches t2 |}.

(** The timers selected by [due] fire: each callback starts one fetch cycle. *)
Definition fire (due : nat -> bool) (t : Timers) : Timers :=
  {| clock := clock t; fetchTimeout := fetchTimeout t;
     pending := filter (fun p => negb (due (snd p))) (pending t);
     next_id := next_id t;
     fetches := fetches t
                + List.length (filter (fun p => due (snd p)) (pending t)) |}.

Definition set_clock (time : nat) (t : Timers) : Timers :=
  {| clock := time; fetchTimeout := fetchTimeout t; pending := pending t;
     next_id := next_id t; fetches := fetches t |}.

(** A [moveend] event arrives at [time].  The timers due before [time] have
    fired; whether a timer due exactly at [time] fires before the event is
    handled is left open by [timer_first]. *)
Definition moveend_at (timer_first : bool) (t : Timers) (time : nat) : Timers :=
  on_moveend
    (set_clock time
       (fire (fun due => if timer_first then (due <=? time)%nat
                         else (due <? time)%nat) t)).

(** After the last event every timer still set fires. *)
Definition settle (t : Timers) : Timers := fire (fun _ => true) t.

Definition timers_start : Timers :=
  {| clock := 0; fetchTimeout := None; pending := []; next_id := 1;
     fetches := 0 |}.

Definition run_moveends (timer_first : bool) (times : list nat) : Timers :=
  settle (fold_left (moveend_at timer_first) times timers_start).

(** The arrival times of a burst: in order, all less than 300 ms after
    the first. *)
Fixpoint in_order (times : list nat) : Prop :=
  match times with
  | a :: ((b :: _) as rest) => (a <= b)%nat /\ in_order rest
  | _ => True
  end.

Definition within_window (times : list nat) : Prop :=
  match times with
  | [] => False
  | first :: rest =>
      in_order times /\ Forall (fun t => (t < first + 300)%nat) rest
  end.

(** Arrival times each more than 300 ms after the one before. *)
Fixpoint spaced_beyond_window (times : list nat) : Prop :=
  match times with
  | a :: ((b :: _) as rest) => (a + 300 < b)%nat /\ spaced_beyond_window rest
  | _ => True
  end.

(** A computation that does not write [lastFetchedPoints]. *)
Definition keeps_points {A} (c : M A) : Prop :=
  forall s, lastFetchedPoints (fst (c s)) = lastFetchedPoints s.

(** A page, a document and a network used in the examples. *)
Definition page_start : Page :=
  {| lastFetchedPoints := sample_rows;
     sarthi_heatmap_params := (VStr "night", VNum (Fin 1));
     formFeedback := None;
     heatLayer := None; heatLayerOnMap := false;
     markersLayer := []; markersLayerOnMap := true |}.

Definition dom_full : Dom := {| has_formFeedback := true; has_heatLayer := true |}.

(** A network that rejects every request. *)
Definition offline (request : jsval * jsval) : result response :=
  Throw (FetchError "Failed to fetch").

(** One timer is set, due at [due]; [fetchTimeout] holds its id; [n] fetch
    cycles have been started. *)
Definition armed (t : Timers) (due n : nat) : Prop :=
  exists id, pending t = [(S id, due)] /\ fetchTimeout t = Some (S id) /\
             fetches t = n /\ (1 <= next_id t)%nat.

Definition fires_before (timer_first : bool) (due time : nat) : bool :=
  if timer_first then (due <=? time)%nat else (due <? time)%nat.

(** Each arrival is less than 300 ms after the one before. *)
Fixpoint gaps_within (prev : nat) (times : list nat) : Prop :=
  match times with
  | [] => True
  | t :: rest => (t < prev + 300)%nat /\ gaps_within t rest
  end.

Definition sample_neighbour : jsval :=
  VObj [("lat", VNum (Fin 13.1299)); ("lng", VNum (Fin 77.5700));
        ("score", VNum (Fin 0.5)); ("samples", VNum (Fin 9))].

Definition sample_far : jsval :=
  VObj [("lat", VNum (Fin 13.2)); ("lng", VNum (Fin 77.6));
        ("score", VNum (Fin 0.5)); ("samples", VNum (Fin 9))].

(** A network that answers every request with [data]. *)
Definition answers (data : response) (request : jsval * jsval) : result response :=
  Ok data.

(* ================================================================= *)
(** ** The marker colour and the percent text: [scoreToColor],
    [scoreToPercentStr] *)

(** [a || b] on a number [a]: NaN and 0 are falsy. *)
Definition num_or (a b : num) : num :=
  match a with
  | NaN => b
  | Fin x => if Req_dec_T x 0 then b else a
  | _ => a
  end.

(** The text [`rgb(${r},${g},${b})`], as its three numbers. *)
Record Color : Type := {
  red : num;
  green : num;
  blue : num
}.

Definition scoreToColor (score : jsval) : Color :=
  let s := Math_max (Fin 0) (Math_min (Fin 1) (num_or (Number score) (Fin 0))) in
  let r := Math_round (Math_min (Fin 255)
                         (Math_max (Fin 0) (Fin 255 * (Fin 1 - s) * Fin 1.6))) in
  let g := Math_round (Math_min (Fin 255)
                         (Math_max (Fin 0) (Fin 255 * s * Fin 1.2))) in
  {| red := r; green := g; blue := Fin 40 |}.




(* ================================================================= *)
(** ** The controller: [toggleMarkers], [exportCSV] *)


(** What [exportCSV] does besides returning: an alert, or the download of a
    text (the name of the file, which holds the time, is left out). *)
Inductive export_outcome : Type :=
| Alerted (message : string)
| Downloaded (csv : string).

Definition exportCSV (NumberToString : num -> string) (s : Page)
  : result export_outcome :=
  match lastFetchedPoints s with
  | [] => Ok (Alerted "No data to export.")
  | pts => csv <- pointsToCSV NumberToString pts ;; Ok (Downloaded csv)
  end.

(* ================================================================= *)
(** ** [initHeatmapPage]

    The state kept across calls: the controller stored on [window] (known
    here by the arguments [band] and [min_samples] its closure holds), and
    the page. *)

Record App : Type := {
  sarthi_heatmap_controller : option (jsval * jsval);
  page : Page
}.

Record Host : Type := {
  has_map_element : bool;     (* [document.getElementById('map')] *)
  has_Leaflet : bool;         (* [typeof L !== 'undefined'] *)
  host_dom : Dom
}.

(** What the call resolves to: [undefined], or the controller. *)
Inductive init_outcome : Type :=
| NoController
| TheController.

(** A default parameter applies when the argument is [undefined]. *)
Definition default_arg (v d : jsval) : jsval :=
  match v with VUndefined => d | _ => v end.

(** The closure state of a new controller on the page. *)
Definition new_closure (params : jsval * jsval) (s : Page) : Page :=
  {| lastFetchedPoints := [];
     sarthi_heatmap_params := params;
     formFeedback := formFeedback s;
     heatLayer := None; heatLayerOnMap := false;
     markersLayer := []; markersLayerOnMap := true |}.

Definition initHeatmapPage (host : Host)
  (safeApiGet : jsval * jsval -> result response)
  (band_arg min_samples_arg : jsval) (a : App) : App * result init_outcome :=
  let band := default_arg band_arg (VStr "night") in
  let min_samples := default_arg min_samples_arg (VNum (Fin 1)) in
  if negb (has_map_element host) then (a, Ok NoController)
  else if negb (has_Leaflet host) then (a, Ok NoController)
  else
    match sarthi_heatmap_controller a with
    | Some (band0, min_samples0) =>
        (* the controller exists: its own closure runs the cycle *)
        let s1 := set_params (band, min_samples) (page a) in
        match fetchAndRender (host_dom host) band0 min_samples0 safeApiGet
                VUndefined VUndefined s1 with
        | (s2, Ok _) =>
            ({| sarthi_heatmap_controller := Some (band0, min_samples0);
                page := s2 |}, Ok TheController)
        | (s2, Throw e) =>
            ({| sarthi_heatmap_controller := Some (band0, min_samples0);
                page := s2 |}, Throw e)
        end
    | None =>
        let s1 := new_closure (band, min_samples) (page a) in
        (* [try { await controller.fetchAndRender(); } catch (e) { }] *)
        let (s2, _) :=
          fetchAndRender (host_dom host) band min_samples safeApiGet
            VUndefined VUndefined s1 in
        ({| sarthi_heatmap_controller := Some (band, min_samples);
            page := s2 |}, Ok TheController)
    end.

(* ================================================================= *)
(** ** Notions used in the further properties *)

(** The order of the numbers, NaN being unordered. *)
Definition num_le (a b : num) : Prop :=
  match a, b with
  | NaN, _ | _, NaN => False
  | NInf, _ | _, PInf => True
  | Fin x, Fin y => x <= y
  | _, _ => False
  end.


(** The entry of a cell that holds one row only. *)
Definition single_entry (cellSizeDeg : num) (r : jsval) : cell_key * Cell :=
  (row_key cellSizeDeg r,
   add_point zero_cell (row_lat r) (row_lng r) (row_weight r)).

(** A score as [updateLeftFeedback] counts it in the average. *)
Definition valid_score (p : jsval) : bool :=
  negb (nullish (prop p "score")) && negb (Number_isNaN (Number (prop p "score"))).

(** A row that gets a marker: [typeof p.lat] and [typeof p.lng] are
    ['number']. *)
Definition marker_of (kind : marker_kind) (p : jsval) : option Marker :=
  match prop p "lat", prop p "lng" with
  | VNum la, VNum lo =>
      Some {| m_kind := kind; m_lat := la; m_lng := lo; m_point := p |}
  | _, _ => None
  end.

Fixpoint markers_of (kind : marker_kind) (pts : list jsval) : list Marker :=
  match pts with
  | [] => []
  | p :: rest =>
      match marker_of kind p with
      | Some m => m :: markers_of kind rest
      | None => markers_of kind rest
      end
  end.

(** The timers that fire between consecutive events, the first event being
    at [prev]. *)
Fixpoint fired_between (timer_first : bool) (prev : nat) (times : list nat)
  : nat :=
  match times with
  | [] => 0
  | t :: rest =>
      (if fires_before timer_first (prev + 300) t then 1 else 0)
      + fired_between timer_first t rest
  end.

(** The value the final clamp of the scorer is applied to:
    [intensity * boost * VISUAL_AMPLIFIER]. *)
Definition raw_intensity (rawScore : option num) (samples_raw : num) : num :=
  let base :=
    match rawScore with
    | None => Fin 0.75
    | Some r => Math_max (Fin 0) (Math_min (Fin 1) (Fin 1.0 - r))
    end in
  let samples := Math_max (Fin 1) samples_raw in
  let boost :=
    Math_min (Fin 2.0) (Fin 0.45 + Math_log10 (samples + Fin 1) * Fin 0.32) in
  (base * boost * VISUAL_AMPLIFIER)%num.

(** A score clamped into [0, 1]. *)
Definition clamp01 (r : num) : num := Math_max (Fin 0) (Math_min (Fin 1) r).

(** Rows with a score and a sample count outside their ranges, and the row
    they are scored as. *)
Definition sample_out_of_range : jsval :=
  VObj [("lat", VNum (Fin 13.13)); ("lng", VNum (Fin 77.57));
        ("score", VNum (Fin 1.5)); ("samples", VNum (Fin 0))].

Definition sample_in_range : jsval :=
  VObj [("lat", VNum (Fin 13.13)); ("lng", VNum (Fin 77.57));
        ("score", VNum (Fin 1)); ("samples", VNum (Fin 1))].

(** The safest and the least safe rows there can be. *)
Definition sample_safest : jsval :=
  VObj [("lat", VNum (Fin 13.13)); ("lng", VNum (Fin 77.57));
        ("score", VNum (Fin 1)); ("samples", VNum (Fin 250))].

Definition sample_least_safe : jsval :=
  VObj [("lat", VNum (Fin 13.13)); ("lng", VNum (Fin 77.57));
        ("score", VNum (Fin 0)); ("samples", VNum (Fin 100000))].

(** The average the summary line shows: none when no point has a valid
    score. *)
Definition summary_average (pts : list jsval) : option num :=
  match filter valid_score pts with
  | [] => None
  | valid => Some (average_score valid)
  end.

(** A page with the map element and Leaflet, before and after the first
    initialisation. *)
Definition host_full : Host :=
  {| has_map_element := true; has_Leaflet := true; host_dom := dom_full |}.

Definition app_fresh : App :=
  {| sarthi_heatmap_controller := None; page := page_start |}.

Definition app_running : App :=
  {| sarthi_heatmap_controller := Some (VStr "night", VNum (Fin 1));
     page := page_start |}.

(* ================================================================= *)
(** ** Conversions that throw

    [Number(v)], [String(v)], a template literal and [Array.prototype.join]
    first convert an object to a primitive.  A row comes from JSON, so none
    of its property values is callable: an object that has an own property
    [toString] has no [toString] that can be called, and its conversion
    throws a TypeError; so does the conversion of an array that holds such
    an object (an array converts through [join], which converts every
    element that is neither [null] nor [undefined]).  Every other value
    converts without throwing.

    The definitions above read such a conversion as NaN (or as the text
    [[object Object]]).  The module [Strict] embeds once more, with the
    TypeError kept, the functions whose properties depend on it. *)

Definition own_property (props : list (string * jsval)) (name : string) : bool :=
  existsb (fun kv => String.eqb (fst kv) name) props.

Fixpoint conversion_throws (v : jsval) : bool :=
  match v with
  | VObj props => own_property props "toString"
  | VArr elems => existsb conversion_throws elems
  | _ => false
  end.

Definition conversion_error : exn :=
  TypeError "Cannot convert object to primitive value".

(** [Number(v)], with the TypeError. *)
Definition ToNumber (v : jsval) : result num :=
  if conversion_throws v then Throw conversion_error else Ok (Number v).

Module Strict.

Definition pointToHeatEntry (p : jsval) : result (option HeatEntry) :=
  if negb (truthy p) then Ok None else
  lat_v <- read_first p ["lat"; "latitude"; "lat_deg"] ;;
  lat <- ToNumber lat_v ;;
  lng_v <- read_first p ["lng"; "longitude"; "lon"; "lng_deg"] ;;
  lng <- ToNumber lng_v ;;
  if negb (Number_isFinite lat) || negb (Number_isFinite lng) then Ok None else
  p_score <- get p "score" ;;
  rawScore <- (if nullish p_score then Ok None
               else s <- ToNumber p_score ;; Ok (Some s)) ;;
  let intensity :=
    match rawScore with
    | None => Fin 0.75
    | Some r => Math_max (Fin 0) (Math_min (Fin 1) (Fin 1.0 - r))
    end in
  samples_v <- read_first p ["samples"; "count"] ;;
  samples_n <- ToNumber (samples_v ?? VNum (Fin 1)) ;;
  let samples := Math_max (Fin 1) samples_n in
  let boost :=
    Math_min (Fin 2.0) (Fin 0.45 + Math_log10 (samples + Fin 1) * Fin 0.32) in
  let intensity := (intensity * boost)%num in
  let intensity :=
    Math_max (Fin 0.01)
             (Math_min MAX_INTENSITY_CLAMP (intensity * VISUAL_AMPLIFIER)) in
  confidence_v <- read_first p ["confidence"; "confidence_numeric"] ;;
  Ok (Some {| lat := lat; lng := lng; intensity := intensity;
              meta := {| score := rawScore; samples := samples;
                         confidence := confidence_v ?? VNull |} |}).

(** The body of the first loop of [aggregateByGrid], for one row [r]. *)
Definition aggregate_row (cellSizeDeg : num) (cells : CellMap) (r : jsval)
  : result CellMap :=
  lat_v <- read_first r ["lat"; "latitude"; "lat_deg"] ;;
  lat <- ToNumber lat_v ;;
  lng_v <- read_first r ["lng"; "longitude"; "lon"; "lng_deg"] ;;
  lng <- ToNumber lng_v ;;
  if negb (Number_isFinite lat) || negb (Number_isFinite lng) then Ok cells else
  r_score <- get r "score" ;;
  rawScore <- (if nullish r_score then Ok None
               else s <- ToNumber r_score ;; Ok (Some s)) ;;
  let intensity :=
    match rawScore with
    | None => Fin 0.75
    | Some s => Math_max (Fin 0) (Math_min (Fin 1) (Fin 1.0 - s))
    end in
  samples_v <- read_first r ["samples"; "count"] ;;
  samples_n <- ToNumber (samples_v ?? VNum (Fin 1)) ;;
  let samples := Math_max (Fin 1) samples_n in
  let boost :=
    Math_min (Fin 2.0) (Fin 0.45 + Math_log10 (samples + Fin 1) * Fin 0.32) in
  let pointIntensity := (intensity * boost * VISUAL_AMPLIFIER)%num in
  let pointIntensity :=
    Math_max (Fin 0.01) (Math_min MAX_INTENSITY_CLAMP pointIntensity) in
  let keyLat := (Math_round (lat / cellSizeDeg) * cellSizeDeg)%num in
  let keyLng := (Math_round (lng / cellSizeDeg) * cellSizeDeg)%num in
  let key := (toFixed6 keyLat, toFixed6 keyLng) in
  let cur :=
    match Map_get cells key with
    | Some c => c
    | None => {| latSum := Fin 0; lngSum := Fin 0; weightSum := Fin 0;
                 count := 0 |}
    end in
  let cur' := {| latSum := latSum cur + lat * pointIntensity;
                 lngSum := lngSum cur + lng * pointIntensity;
                 weightSum := weightSum cur + pointIntensity;
                 count := count cur + 1 |} in
  Ok (Map_set cells key cur').

Fixpoint aggregate_rows (cellSizeDeg : num) (rows : list jsval)
  (cells : CellMap) : result CellMap :=
  match rows with
  | [] => Ok cells
  | r :: rest =>
      cells' <- aggregate_row cellSizeDeg cells r ;;
      aggregate_rows cellSizeDeg rest cells'
  end.

Definition aggregateByGrid (rows : list jsval) (cellSizeDeg : num)
  : result (list Aggregated) :=
  cells <- aggregate_rows cellSizeDeg rows [] ;;
  Ok (map (fun kv => emit_cell (snd kv)) cells).

Fixpoint push_entries (rows : list jsval) (arr : list triple)
  : result (list triple) :=
  match rows with
  | [] => Ok arr
  | r :: rest =>
      p <- pointToHeatEntry r ;;
      match p with
      | None => push_entries rest arr
      | Some e => push_entries rest (arr ++ [(lat e, lng e, intensity e)])
      end
  end.

Definition buildHeatArrayFromRowsWith (use_aggregation : bool)
  (rows : option (list jsval)) : result (list triple) :=
  match rows with
  | None => Ok []
  | Some [] => Ok []
  | Some rows =>
      if use_aggregation then
        aggregated <- aggregateByGrid rows AGG_CELL_SIZE_DEG ;;
        Ok (map (fun a => (a_lat a, a_lng a, a_intensity a)) aggregated)
      else push_entries rows []
  end.

Definition buildHeatArrayFromRows (rows : option (list jsval))
  : result (list triple) :=
  buildHeatArrayFromRowsWith USE_AGGREGATION rows.

Definition scoreToColor (score : jsval) : result Color :=
  n <- ToNumber score ;;
  let s := Math_max (Fin 0) (Math_min (Fin 1) (num_or n (Fin 0))) in
  let r := Math_round (Math_min (Fin 255)
                         (Math_max (Fin 0) (Fin 255 * (Fin 1 - s) * Fin 1.6))) in
  let g := Math_round (Math_min (Fin 255)
                         (Math_max (Fin 0) (Fin 255 * s * Fin 1.2))) in
  Ok {| red := r; green := g; blue := Fin 40 |}.

Section CSV.

Variable NumberToString : num -> string.

(** [String(v)], as [Array.prototype.join] calls it on an element. *)
Definition ToString (v : jsval) : result string :=
  if conversion_throws v then Throw conversion_error
  else Ok (ToString NumberToString v).

Definition field_text (v : jsval) : result string :=
  match v with
  | VUndefined | VNull => Ok ""
  | _ => ToString v
  end.

(** [r.join(sep)] *)
Definition Array_join (sep : string) (r : list jsval) : result string :=
  texts <- Array_map field_text r ;;
  Ok (String.concat sep texts).

Definition pointsToCSV (points : list jsval) : result string :=
  rows <- Array_map csv_row points ;;
  lines <- Array_map (Array_join ",") (headers :: rows) ;;
  Ok (String.concat newline lines).

Definition exportCSV (s : Page) : result export_outcome :=
  match lastFetchedPoints s with
  | [] => Ok (Alerted "No data to export.")
  | pts => csv <- pointsToCSV pts ;; Ok (Downloaded csv)
  end.

End CSV.

End Strict.

(** ** Which rows throw

    The coordinates are converted first; the score and the sample count
    are converted only when both coordinates are finite. *)
Definition coords_throw (r : jsval) : bool :=
  conversion_throws (first_prop r ["lat"; "latitude"; "lat_deg"]) ||
  conversion_throws (first_prop r ["lng"; "longitude"; "lon"; "lng_deg"]).

Definition row_throws (r : jsval) : bool :=
  coords_throw r ||
  (accepted r &&
   (conversion_throws (prop r "score") ||
    conversion_throws (first_prop r ["samples"; "count"]))).

(** A point all of whose exported fields convert to text. *)
Definition exportable_point (p : jsval) : bool :=
  forallb (fun name => negb (conversion_throws (prop p name)))
          ["lat"; "lng"; "score"; "samples"; "confidence"].

(** A row none of whose property values throws when converted. *)
Definition plain_row (r : jsval) : bool :=
  match r with
  | VObj props => forallb (fun kv => negb (conversion_throws (snd kv))) props
  | _ => true
  end.

(** Rows whose conversion throws. *)
Definition sample_object_lat : jsval :=
  VObj [("lat", VObj [("toString", VNum (Fin 1))]); ("lng", VNum (Fin 12.9))].

Definition sample_object_confidence : jsval :=
  VObj [("lat", VNum (Fin 13)); ("lng", VNum (Fin 77));
        ("confidence", VObj [("toString", VNum (Fin 1))])].


(* ================================================================= *)
(** ** The aggregator in binary64

    The loop of [aggregateByGrid] once more, on IEEE 754 double-precision
    numbers, for rows whose fields hold numbers already (the score may be
    [null], the sample count absent): every operation rounds as the
    language's does.  [Math.round] and [toFixed(6)] are exact functions of
    their argument and are computed on its exact value.  [Math.log10] is
    given where the language fixes its value; elsewhere the language leaves
    it implementation-approximated and the functions below return [None]. *)

Module Binary64.

Import Floats.
Local Close Scope R_scope.
Local Open Scope float_scope.
Local Set Warnings "-inexact-float".

Definition AGG_CELL_SIZE_DEG : float := 0.0015.
Definition VISUAL_AMPLIFIER : float := 2.0.
Definition MAX_INTENSITY_CLAMP : float := 4.0.

Definition Number_isFinite (x : float) : bool :=
  negb (is_nan x) && negb (is_infinity x).

(** [Math.max] and [Math.min]: NaN when an argument is NaN; +0 counts as
    larger than -0. *)
Definition Math_max (a b : float) : float :=
  if is_nan a || is_nan b then nan
  else if ltb a b then b
  else if ltb b a then a
  else if is_zero a && get_sign a then b else a.

Definition Math_min (a b : float) : float :=
  if is_nan a || is_nan b then nan
  else if ltb a b then a
  else if ltb b a then b
  else if is_zero a && get_sign a then a else b.

Definition Math_log10 (x : float) : option float :=
  if is_nan x then Some nan
  else if ltb x 0 then Some nan
  else if is_zero x then Some neg_infinity
  else if eqb x 1 then Some 0
  else if is_infinity x then Some infinity
  else None.

(** The number that is a given integer below 2^63 in size. *)
Definition of_Z (k : Z) : float :=
  if (k <? 0)%Z then - of_uint63 (Uint63.of_Z (- k))
  else of_uint63 (Uint63.of_Z k).

(** [Math.round]: the nearest integer, a tie going up; a number with no
    fraction bits, an infinity and NaN are returned as they are. *)
Definition Math_round (x : float) : float :=
  match Prim2SF x with
  | S754_finite s m e =>
      if (0 <=? e)%Z then x
      else
        let signed := if s then Z.neg m else Z.pos m in
        let k := ((signed + 2 ^ (- e - 1)) / 2 ^ (- e))%Z in
        if (k =? 0)%Z then (if s then -0 else 0) else of_Z k
  | _ => x
  end.

(** The text of [x.toFixed(6)], as in the first part; from 1e21 on the text
    is that of the number itself. *)
Inductive fixed_text : Type :=
| TxNaN
| TxInfinity (negative : bool)
| TxDigits (negative : bool) (n : Z)
| TxLarge (x : float).

Definition toFixed6 (x : float) : fixed_text :=
  match Prim2SF x with
  | S754_nan => TxNaN
  | S754_infinity s => TxInfinity s
  | S754_zero _ => TxDigits false 0
  | S754_finite s m e =>
      if leb 1e21 (abs x) then TxLarge x
      else if (0 <=? e)%Z then TxDigits s (Z.pos m * 2 ^ e * 10 ^ 6)
      else TxDigits s ((2 * Z.pos m * 10 ^ 6 + 2 ^ (- e)) / 2 ^ (1 - e))
  end.

Definition fixed_text_eqb (a b : fixed_text) : bool :=
  match a, b with
  | TxNaN, TxNaN => true
  | TxInfinity s, TxInfinity s' => Bool.eqb s s'
  | TxDigits s n, TxDigits s' n' => Bool.eqb s s' && (n =? n')%Z
  | TxLarge x, TxLarge y => eqb x y
  | _, _ => false
  end.

Definition cell_key : Type := (fixed_text * fixed_text)%type.

Definition cell_key_eqb (a b : cell_key) : bool :=
  fixed_text_eqb (fst a) (fst b) && fixed_text_eqb (snd a) (snd b).

Record Row : Type := {
  r_lat : float;
  r_lng : float;
  r_score : option float;      (* [None] is [null] *)
  r_samples : option float     (* [None]: neither [samples] nor [count] *)
}.

Record Cell : Type := {
  latSum : float;
  lngSum : float;
  weightSum : float;
  count : nat
}.

Definition CellMap : Type := list (cell_key * Cell).

Fixpoint Map_get (m : CellMap) (k : cell_key) : option Cell :=
  match m with
  | [] => None
  | (k', v) :: rest => if cell_key_eqb k' k then Some v else Map_get rest k
  end.

Fixpoint Map_set (m : CellMap) (k : cell_key) (v : Cell) : CellMap :=
  match m with
  | [] => [(k, v)]
  | (k', v') :: rest =>
      if cell_key_eqb k' k then (k, v) :: rest
      else (k', v') :: Map_set rest k v
  end.

Record Aggregated : Type := {
  a_lat : float;
  a_lng : float;
  a_intensity : float;
  a_count : nat
}.

(** The body of the first loop, for one row [r]. *)
Definition aggregate_row (cellSizeDeg : float) (cells : CellMap) (r : Row)
  : option CellMap :=
  let lat := r_lat r in
  let lng := r_lng r in
  if negb (Number_isFinite lat) || negb (Number_isFinite lng) then Some cells else
  let rawScore := r_score r in
  let intensity :=
    match rawScore with
    | None => 0.75
    | Some s => Math_max 0 (Math_min 1 (1.0 - s))
    end in
  let samples :=
    Math_max 1 (match r_samples r with Some n => n | None => 1 end) in
  match Math_log10 (samples + 1) with
  | None => None
  | Some log =>
      let boost := Math_min 2.0 (0.45 + log * 0.32) in
      let pointIntensity := intensity * boost * VISUAL_AMPLIFIER in
      let pointIntensity :=
        Math_max 0.01 (Math_min MAX_INTENSITY_CLAMP pointIntensity) in
      let keyLat := Math_round (lat / cellSizeDeg) * cellSizeDeg in
      let keyLng := Math_round (lng / cellSizeDeg) * cellSizeDeg in
      let key := (toFixed6 keyLat, toFixed6 keyLng) in
      let cur :=
        match Map_get cells key with
        | Some c => c
        | None => {| latSum := 0; lngSum := 0; weightSum := 0; count := 0 |}
        end in
      let cur' := {| latSum := latSum cur + lat * pointIntensity;
                     lngSum := lngSum cur + lng * pointIntensity;
                     weightSum := weightSum cur + pointIntensity;
                     count := count cur + 1 |} in
      Some (Map_set cells key cur')
  end.

Fixpoint aggregate_rows (cellSizeDeg : float) (rows : list Row)
  (cells : CellMap) : option CellMap :=
  match rows with
  | [] => Some cells
  | r :: rest =>
      match aggregate_row cellSizeDeg cells r with
      | Some cells' => aggregate_rows cellSizeDeg rest cells'
      | None => None
      end
  end.

(** The body of the second loop, for one entry of the map. *)
Definition emit_cell (v : Cell) : Aggregated :=
  let avgLat := latSum v / weightSum v in
  let avgLng := lngSum v / weightSum v in
  let combinedIntensity := Math_min MAX_INTENSITY_CLAMP (weightSum v) in
  {| a_lat := avgLat; a_lng := avgLng; a_intensity := combinedIntensity;
     a_count := count v |}.

Definition aggregateByGrid (rows : list Row) (cellSizeDeg : float)
  : option (list Aggregated) :=
  match aggregate_rows cellSizeDeg rows [] with
  | Some cells => Some (map (fun kv => emit_cell (snd kv)) cells)
  | None => None
  end.

(** Modelled from the spec: merging the cell sums of two runs, the sums and
    the count of the second added per key to the first (the repository holds
    no merge). *)
Definition merge_entry (m : CellMap) (kv : cell_key * Cell) : CellMap :=
  Map_set m (fst kv)
          (match Map_get m (fst kv) with
           | Some c => {| latSum := latSum c + latSum (snd kv);
                          lngSum := lngSum c + lngSum (snd kv);
                          weightSum := weightSum c + weightSum (snd kv);
                          count := count c + count (snd kv) |}
           | None => snd kv
           end).

Definition merge_cells (m1 m2 : CellMap) : CellMap :=
  fold_left merge_entry m2 m1.

(** Three rows at one place: one of score 0.1, two of score 1.  The sample
    count is infinite, where the logarithm is fixed by the language. *)
Definition row_A : Row :=
  {| r_lat := 13.13; r_lng := 77.57; r_score := Some 0.1;
     r_samples := Some infinity |}.

Definition row_B : Row :=
  {| r_lat := 13.13; r_lng := 77.57; r_score := Some 1;
     r_samples := Some infinity |}.

End Binary64.

(** ** Notions used in the statements about the strict functions *)

(** A row the aggregator's loop body handles without throwing. *)
Definition aggregable (r : jsval) : Prop :=
  nullish r = false /\ row_throws r = false.

(** The number of rows the cell of key [k] holds; 0 when there is none. *)
Definition cell_count (m : CellMap) (k : cell_key) : nat :=
  match Map_get m k with
  | Some v => count v
  | None => 0
  end.

(** The counts of the cells [aggregateByGrid] emits from a map. *)
Definition emitted_counts (m : CellMap) : list nat :=
  map (fun kv => a_count (emit_cell (snd kv))) m.

(** The cell the aggregator emits for an accepted row that has its cell to
    itself: the sums start at 0 and receive the row once. *)
Definition separate_cell (r : jsval) : Aggregated :=
  {| a_lat := ((Fin 0 + row_lat r * row_weight r) / (Fin 0 + row_weight r))%num;
     a_lng := ((Fin 0 + row_lng r * row_weight r) / (Fin 0 + row_weight r))%num;
     a_intensity := row_weight r;
     a_count := 1 |}.

(** The values [pointsToCSV] joins for a point. *)
Definition csv_fields (p : jsval) : list jsval :=
  [prop p "lat"; prop p "lng"; prop p "score" ?? VStr "";
   prop p "samples" ?? VStr ""; prop p "confidence" ?? VStr ""].


(* ================================================================= *)
(** * Properties *)

(** ** Reading a row *)

Lemma truthy_not_nullish (p : jsval) : truthy p = true -> nullish p = false.
Proof. destruct p; simpl; congruence. Qed.

Lemma get_ok (p : jsval) (n : string) :
  nullish p = false -> get p n = Ok (prop p n).
Proof. intros H. unfold get. now rewrite H. Qed.

Lemma read_first_ok (p : jsval) (names : list string) :
  nullish p = false -> read_first p names = Ok (first_prop p names).
Proof.
  intros H. induction names as [|n rest IH]; [reflexivity|].
  destruct rest as [|n' rest].
  - simpl. now apply get_ok.
  - change (read_first p (n :: n' :: rest))
      with (v <- get p n ;; if nullish v then read_first p (n' :: rest) else Ok v).
    rewrite get_ok by assumption. cbn [bind].
    change (first_prop p (n :: n' :: rest))
      with (prop p n ?? first_prop p (n' :: rest)).
    unfold coalesce. destruct (nullish (prop p n)); [exact IH|reflexivity].
Qed.

Lemma read_first_throw (p : jsval) (n : string) (names : list string) :
  nullish p = true -> read_first p (n :: names) = Throw (TypeError n).
Proof.
  intros H. destruct names; simpl; unfold get; now rewrite H.
Qed.

Lemma pointToHeatEntry_falsy (p : jsval) :
  truthy p = false -> pointToHeatEntry p = Ok None.
Proof. intros H. unfold pointToHeatEntry. now rewrite H. Qed.

Lemma pointToHeatEntry_truthy (p : jsval) :
  truthy p = true ->
  pointToHeatEntry p =
  Ok (if accepted p
      then Some {| lat := row_lat p; lng := row_lng p;
                   intensity := point_intensity (row_score p) (row_samples p);
                   meta := {| score := row_score p;
                              samples := Math_max (Fin 1) (row_samples p);
                              confidence := row_confidence p |} |}
      else None).
Proof.
  intros Ht. pose proof (truthy_not_nullish _ Ht) as Hn.
  unfold pointToHeatEntry. rewrite Ht. cbn [negb].
  rewrite !read_first_ok, !get_ok by assumption. cbn [bind].
  unfold accepted, row_lat, row_lng.
  destruct (Number_isFinite _); [|reflexivity].
  destruct (Number_isFinite _); reflexivity.
Qed.

(** ** Arithmetic facts *)

Lemma ln_10_pos : 0 < ln 10.
Proof. rewrite <- ln_1. apply ln_increasing; lra. Qed.

Lemma log10_increasing (x y : R) : 0 < x -> x <= y -> log10 x <= log10 y.
Proof.
  intros Hx Hxy. unfold log10. pose proof ln_10_pos.
  apply Rmult_le_compat_r; [left; now apply Rinv_0_lt_compat|].
  destruct Hxy as [Hlt| ->]; [left; now apply ln_increasing|right; reflexivity].
Qed.

(** [3/10 < log10 2 < 1/3], from [10^3 < 2^10] and [2^3 < 10]. *)
Lemma log10_2_bounds : 3 / 10 < log10 2 < 1 / 3.
Proof.
  pose proof ln_10_pos as H10.
  assert (H2 : 0 < ln 2) by (rewrite <- ln_1; apply ln_increasing; lra).
  assert (Ha : 3 * ln 10 < 10 * ln 2).
  { replace (3 * ln 10) with (INR 3 * ln 10) by (simpl; lra).
    replace (10 * ln 2) with (INR 10 * ln 2) by (simpl; lra).
    rewrite <- !ln_pow by lra. apply ln_increasing; simpl; lra. }
  assert (Hb : 3 * ln 2 < ln 10).
  { replace (3 * ln 2) with (INR 3 * ln 2) by (simpl; lra).
    rewrite <- ln_pow by lra. apply ln_increasing; simpl; lra. }
  unfold log10. split.
  - apply Rmult_lt_reg_r with (ln 10); [assumption|].
    unfold Rdiv at 2. rewrite Rmult_assoc, Rinv_l by lra. lra.
  - apply Rmult_lt_reg_r with (ln 10); [assumption|].
    unfold Rdiv at 1. rewrite Rmult_assoc, Rinv_l by lra. lra.
Qed.

Lemma log10_2_pos : 0 < log10 2.
Proof. pose proof log10_2_bounds. lra. Qed.

Lemma by_sign_pos (x : R) (a b c : num) : 0 < x -> by_sign x a b c = a.
Proof. intros H. unfold by_sign. destruct (Rlt_dec 0 x); [reflexivity|lra]. Qed.

Lemma by_sign_neg (x : R) (a b c : num) : x < 0 -> by_sign x a b c = b.
Proof.
  intros H. unfold by_sign.
  destruct (Rlt_dec 0 x); [lra|]. destruct (Rlt_dec x 0); [reflexivity|lra].
Qed.

Lemma by_sign_zero (a b c : num) : by_sign 0 a b c = c.
Proof.
  unfold by_sign.
  destruct (Rlt_dec 0 0); [lra|]. destruct (Rlt_dec 0 0); [lra|reflexivity].
Qed.

Lemma point_intensity_unscored_single :
  point_intensity None (Fin 1) = Fin unscored_single_intensity.
Proof.
  pose proof log10_2_bounds as Hb.
  unfold point_intensity, unscored_single_intensity, MAX_INTENSITY_CLAMP, VISUAL_AMPLIFIER.
  cbn [Math_max Math_min num_add num_mul].
  rewrite Rmax_left by lra.
  cbn [Math_log10]. rewrite by_sign_pos by lra.
  replace (1 + 1) with 2 by lra.
  cbn [Math_max Math_min num_add num_mul].
  rewrite (Rmin_right 2.0) by lra.
  rewrite Rmin_right by lra. rewrite Rmax_right by lra. reflexivity.
Qed.

Lemma log10_2_upper : log10 2 < 28 / 93.
Proof.
  pose proof ln_10_pos as H10.
  assert (Hb : 93 * ln 2 < 28 * ln 10).
  { replace (93 * ln 2) with (INR 93 * ln 2) by (rewrite INR_IZR_INZ; simpl; lra).
    replace (28 * ln 10) with (INR 28 * ln 10) by (rewrite INR_IZR_INZ; simpl; lra).
    rewrite <- !ln_pow by lra. apply ln_increasing.
    - apply pow_lt; lra.
    - rewrite !pow_IZR. apply IZR_lt. reflexivity. }
  unfold log10.
  apply Rmult_lt_reg_r with (ln 10); [assumption|].
  unfold Rdiv at 1. rewrite Rmult_assoc, Rinv_l by lra. lra.
Qed.

Lemma unscored_single_intensity_range :
  0.819 < unscored_single_intensity < 0.8196.
Proof.
  pose proof log10_2_bounds. pose proof log10_2_upper.
  unfold unscored_single_intensity. lra.
Qed.




(** ** Algebra of [num] *)

Lemma num_add_comm (a b : num) : (a + b = b + a)%num.
Proof. destruct a, b; simpl; try reflexivity. f_equal. lra. Qed.

Lemma num_add_assoc (a b c : num) : (a + b + c = a + (b + c))%num.
Proof. destruct a, b, c; simpl; try reflexivity. f_equal. lra. Qed.

Lemma num_add_0_l (a : num) : (Fin 0 + a = a)%num.
Proof. destruct a; simpl; try reflexivity. f_equal. lra. Qed.

Lemma num_add_0_r (a : num) : (a + Fin 0 = a)%num.
Proof. rewrite num_add_comm. apply num_add_0_l. Qed.

Lemma num_add_swap (a b c : num) : (a + b + c = a + c + b)%num.
Proof. rewrite !num_add_assoc. f_equal. apply num_add_comm. Qed.

(** ** The clamp *)

Ltac minmax :=
  unfold Rmax, Rmin; repeat destruct (Rle_dec _ _); lra.

Lemma clamp_in_range (a : num) :
  a <> NaN -> in_clamp (Math_max (Fin 0.01) (Math_min MAX_INTENSITY_CLAMP a)).
Proof.
  intros Ha. unfold in_clamp, MAX_INTENSITY_CLAMP.
  destruct a as [| | |x]; [congruence| | |]; simpl;
    (eexists; split; [reflexivity|minmax]).
Qed.

Lemma clamp_nan :
  Math_max (Fin 0.01) (Math_min MAX_INTENSITY_CLAMP NaN) = NaN.
Proof. reflexivity. Qed.

(** The base intensity is in [0, 1] when the score is a number. *)
Lemma base_in_unit (r : num) :
  r <> NaN ->
  exists x, Math_max (Fin 0) (Math_min (Fin 1) (Fin 1.0 - r)) = Fin x /\ 0 <= x <= 1.
Proof.
  intros Hr. destruct r as [| | |y]; [congruence| | |]; simpl;
    (eexists; split; [reflexivity|minmax]).
Qed.

(** The boost is in (0.45, 2] when the sample count is a number. *)
Lemma boost_in_range (s : num) :
  s <> NaN ->
  exists x,
    Math_min (Fin 2.0)
      (Fin 0.45 + Math_log10 (Math_max (Fin 1) s + Fin 1) * Fin 0.32) = Fin x /\
    0.45 < x <= 2.
Proof.
  intros Hs. pose proof log10_2_pos as H2.
  destruct s as [| | |y]; [congruence| | |]; simpl.
  - rewrite by_sign_pos by lra. simpl. exists 2.0. split; [reflexivity|lra].
  - rewrite by_sign_pos by lra. simpl. eexists. split; [reflexivity|].
    replace (1 + 1) with 2 by lra.
    pose proof (Rmin_l 2.0 (0.45 + log10 2 * 0.32)).
    split; [|lra]. apply Rmin_glb_lt; lra.
  - pose proof (Rmax_l 1 y) as Hm.
    rewrite by_sign_pos by lra. simpl. eexists. split; [reflexivity|].
    assert (log10 2 <= log10 (Rmax 1 y + 1)) by (apply log10_increasing; lra).
    pose proof (Rmin_l 2.0 (0.45 + log10 (Rmax 1 y + 1) * 0.32)).
    split; [|lra]. apply Rmin_glb_lt; lra.
Qed.

Lemma point_intensity_in_clamp (rawScore : option num) (samples_raw : num) :
  rawScore <> Some NaN -> samples_raw <> NaN ->
  in_clamp (point_intensity rawScore samples_raw).
Proof.
  intros Hsc Hsa. unfold point_intensity.
  destruct (boost_in_range Hsa) as (b & Hb & Hbr). rewrite Hb.
  apply clamp_in_range.
  destruct rawScore as [r|].
  - destruct (@base_in_unit r) as (x & Hx & _); [congruence|].
    rewrite Hx. discriminate.
  - discriminate.
Qed.

Lemma point_intensity_nan_score (samples_raw : num) :
  point_intensity (Some NaN) samples_raw = NaN.
Proof. reflexivity. Qed.

(** ** The cell map *)

Lemma Map_get_set (m : CellMap) (k k' : cell_key) (v : Cell) :
  Map_get (Map_set m k v) k' = if cell_key_eq_dec k k' then Some v else Map_get m k'.
Proof.
  induction m as [|[k0 v0] m IH]; simpl.
  - destruct (cell_key_eq_dec k k'); reflexivity.
  - destruct (cell_key_eq_dec k0 k) as [->|Hne]; simpl.
    + destruct (cell_key_eq_dec k k'); reflexivity.
    + destruct (cell_key_eq_dec k0 k') as [->|Hne'].
      * destruct (cell_key_eq_dec k k'); [congruence|reflexivity].
      * exact IH.
Qed.

Lemma Map_get_set_same (m : CellMap) (k : cell_key) (v : Cell) :
  Map_get (Map_set m k v) k = Some v.
Proof. rewrite Map_get_set. destruct (cell_key_eq_dec k k); congruence. Qed.

Lemma Map_get_set_other (m : CellMap) (k k' : cell_key) (v : Cell) :
  k <> k' -> Map_get (Map_set m k v) k' = Map_get m k'.
Proof. intros H. rewrite Map_get_set. destruct (cell_key_eq_dec k k'); congruence. Qed.

Lemma Map_get_None (m : CellMap) (k : cell_key) :
  Map_get m k = None <-> ~ In k (keys m).
Proof.
  induction m as [|[k0 v0] m IH]; simpl.
  - tauto.
  - destruct (cell_key_eq_dec k0 k) as [->|Hne].
    + split; [discriminate|tauto].
    + rewrite IH. tauto.
Qed.

Lemma Map_get_Some_In (m : CellMap) (k : cell_key) (v : Cell) :
  Map_get m k = Some v -> In (k, v) m.
Proof.
  induction m as [|[k0 v0] m IH]; simpl; [discriminate|].
  destruct (cell_key_eq_dec k0 k) as [->|Hne].
  - intros [= ->]. now left.
  - intros H. right. auto.
Qed.

Lemma In_Map_get (m : CellMap) (k : cell_key) (v : Cell) :
  NoDup (keys m) -> In (k, v) m -> Map_get m k = Some v.
Proof.
  induction m as [|[k0 v0] m IH]; simpl; [tauto|].
  intros Hnd [Heq|Hin].
  - injection Heq as -> ->. destruct (cell_key_eq_dec k k); congruence.
  - inversion Hnd as [|? ? Hnot Hnd']; subst.
    destruct (cell_key_eq_dec k0 k) as [->|Hne].
    + exfalso. apply Hnot. change k with (fst (k, v)). now apply in_map.
    + auto.
Qed.

Lemma Map_set_absent (m : CellMap) (k : cell_key) (v : Cell) :
  Map_get m k = None -> Map_set m k v = m ++ [(k, v)].
Proof.
  induction m as [|[k0 v0] m IH]; simpl; [reflexivity|].
  destruct (cell_key_eq_dec k0 k); [discriminate|].
  intros H. now rewrite IH.
Qed.

Lemma keys_Map_set (m : CellMap) (k : cell_key) (v : Cell) :
  keys (Map_set m k v) =
  match Map_get m k with Some _ => keys m | None => keys m ++ [k] end.
Proof.
  induction m as [|[k0 v0] m IH]; simpl; [reflexivity|].
  destruct (cell_key_eq_dec k0 k) as [->|Hne]; simpl; [reflexivity|].
  rewrite IH. destruct (Map_get m k); reflexivity.
Qed.

Lemma NoDup_keys_Map_set (m : CellMap) (k : cell_key) (v : Cell) :
  NoDup (keys m) -> NoDup (keys (Map_set m k v)).
Proof.
  intros Hnd. rewrite keys_Map_set.
  destruct (Map_get m k) eqn:Hg; [assumption|].
  apply Map_get_None in Hg.
  apply NoDup_rev in Hnd. rewrite <- (rev_involutive (keys m ++ [k])).
  apply NoDup_rev. rewrite rev_app_distr. simpl. constructor; [|assumption].
  now rewrite <- in_rev.
Qed.

Lemma Map_set_set (m : CellMap) (k : cell_key) (v v' : Cell) :
  Map_set (Map_set m k v) k v' = Map_set m k v'.
Proof.
  induction m as [|[k0 v0] m IH]; simpl.
  - destruct (cell_key_eq_dec k k); congruence.
  - destruct (cell_key_eq_dec k0 k) as [->|Hne]; simpl.
    + destruct (cell_key_eq_dec k k); congruence.
    + destruct (cell_key_eq_dec k0 k); [congruence|]. now rewrite IH.
Qed.

(** Replacing the value of a key that is present commutes with setting
    another key. *)
Lemma Map_set_comm (m : CellMap) (k k' : cell_key) (v v' : Cell) :
  k <> k' -> Map_get m k <> None ->
  Map_set (Map_set m k' v') k v = Map_set (Map_set m k v) k' v'.
Proof.
  intros Hne. induction m as [|[k0 v0] m IH]; simpl; [congruence|].
  destruct (cell_key_eq_dec k0 k) as [->|Hk]; intros Hg.
  - destruct (cell_key_eq_dec k k'); [congruence|]. simpl.
    destruct (cell_key_eq_dec k k); [|congruence].
    destruct (cell_key_eq_dec k k'); congruence.
  - destruct (cell_key_eq_dec k0 k') as [->|Hk']; simpl.
    + destruct (cell_key_eq_dec k' k); [congruence|].
      destruct (cell_key_eq_dec k' k'); congruence.
    + destruct (cell_key_eq_dec k0 k); [congruence|].
      destruct (cell_key_eq_dec k0 k'); [congruence|].
      now rewrite IH.
Qed.

(** Two maps with distinct keys and the same lookups hold the same entries. *)
Lemma Map_lookup_Permutation (m m' : CellMap) :
  NoDup (keys m) -> NoDup (keys m') ->
  (forall k, Map_get m k = Map_get m' k) -> Permutation m m'.
Proof.
  intros Hm Hm' Hget.
  apply NoDup_Permutation.
  - apply (NoDup_map_inv fst). exact Hm.
  - apply (NoDup_map_inv fst). exact Hm'.
  - intros [k v]. split; intros Hin.
    + apply Map_get_Some_In. rewrite <- Hget. now apply In_Map_get.
    + apply Map_get_Some_In. rewrite Hget. now apply In_Map_get.
Qed.

(** ** One row of the aggregator *)

Lemma aggregate_row_ok (c : num) (cells : CellMap) (r : jsval) :
  nullish r = false ->
  aggregate_row c cells r = Ok (accumulate_row c cells r).
Proof.
  intros Hn. unfold aggregate_row, accumulate_row.
  rewrite !read_first_ok, !get_ok by assumption. cbn [bind].
  unfold accepted, row_lat, row_lng.
  destruct (Number_isFinite (Number (first_prop r ["lat"; "latitude"; "lat_deg"])));
    [|reflexivity].
  destruct (Number_isFinite _); reflexivity.
Qed.

Lemma aggregate_row_throw (c : num) (cells : CellMap) (r : jsval) :
  nullish r = true -> aggregate_row c cells r = Throw (TypeError "lat").
Proof.
  intros Hn. unfold aggregate_row. now rewrite read_first_throw.
Qed.

Lemma aggregate_rows_ok (c : num) (rows : list jsval) (m : CellMap) :
  Forall is_object rows ->
  aggregate_rows c rows m = Ok (fold_left (accumulate_row c) rows m).
Proof.
  intros H. revert m. induction H as [|r rows Hr _ IH]; intros m; simpl.
  - reflexivity.
  - rewrite aggregate_row_ok by exact Hr. simpl. apply IH.
Qed.

Lemma aggregate_rows_throw (c : num) (rows : list jsval) (m : CellMap) :
  ~ Forall is_object rows ->
  aggregate_rows c rows m = Throw (TypeError "lat").
Proof.
  revert m. induction rows as [|r rows IH]; intros m Hnot; simpl.
  - exfalso. apply Hnot. constructor.
  - destruct (nullish r) eqn:Hn.
    + now rewrite aggregate_row_throw.
    + rewrite aggregate_row_ok by assumption. simpl. apply IH.
      intros HF. apply Hnot. now constructor.
Qed.

Lemma aggregate_rows_Ok_inv (c : num) (rows : list jsval) (m m' : CellMap) :
  aggregate_rows c rows m = Ok m' ->
  Forall is_object rows /\ m' = fold_left (accumulate_row c) rows m.
Proof.
  intros H.
  assert (HF : Forall is_object rows).
  { destruct (Forall_dec is_object) with (l := rows) as [HF|HF]; [|assumption|].
    - intros x. unfold is_object. destruct (nullish x); [right|left]; congruence.
    - rewrite aggregate_rows_throw in H by assumption. discriminate. }
  split; [assumption|]. rewrite aggregate_rows_ok in H by assumption. congruence.
Qed.

(** ** Cells as sums over their members *)

Lemma add_point_cell_add (c v : Cell) (lat lng w : num) :
  add_point (cell_add c v) lat lng w = cell_add c (add_point v lat lng w).
Proof.
  unfold add_point, cell_add. cbn [latSum lngSum weightSum count].
  rewrite !num_add_assoc. f_equal. lia.
Qed.

Lemma cell_add_zero_point (c : Cell) (lat lng w : num) :
  cell_add c (add_point zero_cell lat lng w) = add_point c lat lng w.
Proof.
  unfold add_point, cell_add, zero_cell. cbn [latSum lngSum weightSum count].
  now rewrite !num_add_0_l.
Qed.

Lemma add_point_swap (c : Cell) (la lo w la' lo' w' : num) :
  add_point (add_point c la lo w) la' lo' w' =
  add_point (add_point c la' lo' w') la lo w.
Proof.
  unfold add_point. cbn [latSum lngSum weightSum count].
  rewrite (num_add_swap (latSum c)), (num_add_swap (lngSum c)),
    (num_add_swap (weightSum c)). reflexivity.
Qed.

Lemma NoDup_keys_accumulate_row (c : num) (m : CellMap) (r : jsval) :
  NoDup (keys m) -> NoDup (keys (accumulate_row c m r)).
Proof.
  intros H. unfold accumulate_row, accumulate.
  destruct (accepted r); [now apply NoDup_keys_Map_set|assumption].
Qed.

Lemma NoDup_keys_fold (c : num) (rows : list jsval) (m : CellMap) :
  NoDup (keys m) -> NoDup (keys (fold_left (accumulate_row c) rows m)).
Proof.
  revert m. induction rows as [|r rows IH]; intros m H; simpl; [assumption|].
  apply IH. now apply NoDup_keys_accumulate_row.
Qed.

Lemma Map_get_fold (c : num) (rows : list jsval) (m : CellMap) (k : cell_key) :
  Map_get (fold_left (accumulate_row c) rows m) k =
  cell_of_members (Map_get m k) (members c k rows).
Proof.
  revert m. induction rows as [|r rows IH]; intros m; [reflexivity|].
  cbn [fold_left]. rewrite IH. unfold members. cbn [filter].
  fold (members c k rows).
  unfold accumulate_row, accumulate, current_cell.
  destruct (accepted r); cbn [andb]; [|reflexivity].
  destruct (cell_key_eq_dec (row_key c r) k) as [Heq|Hne].
  - rewrite Heq, Map_get_set_same. reflexivity.
  - rewrite Map_get_set_other by assumption. reflexivity.
Qed.

Lemma cell_of_members_Permutation (ms ms' : list jsval) (s : option Cell) :
  Permutation ms ms' -> cell_of_members s ms = cell_of_members s ms'.
Proof.
  intros H. revert s. unfold cell_of_members.
  induction H as [|x l l' _ IH|x y l|l l' l'' _ IH1 _ IH2]; intros s; simpl.
  - reflexivity.
  - apply IH.
  - now rewrite add_point_swap.
  - now rewrite IH1.
Qed.

Lemma members_Permutation (c : num) (k : cell_key) (l l' : list jsval) :
  Permutation l l' -> Permutation (members c k l) (members c k l').
Proof.
  unfold members.
  induction 1 as [|x l l' _ IH|x y l|l l' l'' _ IH1 _ IH2]; simpl.
  - constructor.
  - destruct (_ && _); [now constructor|assumption].
  - destruct (accepted y && _), (accepted x && _);
      try apply Permutation_refl. apply perm_swap.
  - now transitivity (filter
        (fun r => accepted r &&
                  (if cell_key_eq_dec (row_key c r) k then true else false)) l').
Qed.

(** The sums held by a cell, spelled out. *)
Lemma cell_of_members_sums (c0 : Cell) (ms : list jsval) :
  cell_of_members (Some c0) ms =
  Some {| latSum := fold_left num_add
                      (map (fun r => row_lat r * row_weight r)%num ms) (latSum c0);
          lngSum := fold_left num_add
                      (map (fun r => row_lng r * row_weight r)%num ms) (lngSum c0);
          weightSum := fold_left num_add (map row_weight ms) (weightSum c0);
          count := count c0 + List.length ms |}.
Proof.
  revert c0. unfold cell_of_members.
  induction ms as [|r ms IH]; intros c0; simpl.
  - destruct c0; simpl. do 2 f_equal. lia.
  - rewrite IH. simpl. do 2 f_equal. lia.
Qed.

Lemma cell_of_members_None (ms : list jsval) :
  cell_of_members None ms =
  match ms with
  | [] => None
  | _ => Some {| latSum := num_sum (map (fun r => row_lat r * row_weight r)%num ms);
                 lngSum := num_sum (map (fun r => row_lng r * row_weight r)%num ms);
                 weightSum := num_sum (map row_weight ms);
                 count := List.length ms |}
  end.
Proof.
  destruct ms as [|r ms]; [reflexivity|].
  change (cell_of_members None (r :: ms))
    with (cell_of_members
            (Some (add_point zero_cell (row_lat r) (row_lng r) (row_weight r))) ms).
  rewrite cell_of_members_sums. reflexivity.
Qed.

(** ** Merging cell maps *)

Lemma accumulate_merge_entry_same (m : CellMap) (k : cell_key) (v : Cell)
  (lat lng w : num) :
  accumulate (merge_entry m (k, v)) k lat lng w =
  merge_entry m (k, add_point v lat lng w).
Proof.
  unfold accumulate, merge_entry, current_cell. cbn [fst snd].
  rewrite Map_get_set_same, Map_set_set.
  destruct (Map_get m k); [now rewrite add_point_cell_add|reflexivity].
Qed.

Lemma accumulate_merge_entry_other (m : CellMap) (k k' : cell_key) (v : Cell)
  (lat lng w : num) :
  k <> k' -> Map_get m k <> None ->
  accumulate (merge_entry m (k', v)) k lat lng w =
  merge_entry (accumulate m k lat lng w) (k', v).
Proof.
  intros Hne Hg. unfold accumulate, merge_entry, current_cell. cbn [fst snd].
  rewrite (Map_get_set_other m _ (not_eq_sym Hne)), (Map_get_set_other m _ Hne).
  now apply Map_set_comm.
Qed.

Lemma accumulate_merge_cells_other (n m : CellMap) (k : cell_key)
  (lat lng w : num) :
  ~ In k (keys n) -> Map_get m k <> None ->
  accumulate (merge_cells m n) k lat lng w =
  merge_cells (accumulate m k lat lng w) n.
Proof.
  unfold merge_cells. revert m.
  induction n as [|[k' v] n IH]; intros m Hnot Hg; [reflexivity|].
  cbn [fold_left]. simpl in Hnot.
  assert (Hne : k <> k') by (intros ->; tauto).
  rewrite IH.
  - now rewrite accumulate_merge_entry_other.
  - tauto.
  - unfold merge_entry. cbn [fst snd].
    now rewrite Map_get_set_other by (apply not_eq_sym; exact Hne).
Qed.

Lemma accumulate_merge_cells (n m : CellMap) (k : cell_key) (lat lng w : num) :
  NoDup (keys n) ->
  accumulate (merge_cells m n) k lat lng w =
  merge_cells m (accumulate n k lat lng w).
Proof.
  revert m. induction n as [|[k0 v0] n IH]; intros m Hnd.
  - unfold accumulate at 2, merge_cells, current_cell. cbn.
    unfold accumulate, merge_entry, current_cell. cbn [fst snd].
    destruct (Map_get m k); [now rewrite cell_add_zero_point|reflexivity].
  - inversion Hnd as [|? ? Hnot Hnd']; subst.
    unfold accumulate at 2, current_cell. cbn [Map_get Map_set].
    destruct (cell_key_eq_dec k0 k) as [->|Hne].
    + unfold merge_cells. cbn [fold_left].
      rewrite <- accumulate_merge_entry_same.
      apply accumulate_merge_cells_other; [exact Hnot|].
      unfold merge_entry. cbn [fst snd]. rewrite Map_get_set_same. discriminate.
    + unfold merge_cells. cbn [fold_left].
      apply (IH (merge_entry m (k0, v0)) Hnd').
Qed.

Lemma fold_accumulate_merge (c : num) (rows : list jsval) (m : CellMap) :
  fold_left (accumulate_row c) rows m =
  merge_cells m (fold_left (accumulate_row c) rows []).
Proof.
  induction rows as [|r rows IH] using rev_ind; [reflexivity|].
  rewrite !fold_left_app. cbn [fold_left]. rewrite IH.
  unfold accumulate_row at 1 3. destruct (accepted r); [|reflexivity].
  apply accumulate_merge_cells. apply NoDup_keys_fold. constructor.
Qed.

Lemma aggregate_rows_app (c : num) (l1 l2 : list jsval) :
  aggregate_rows c (l1 ++ l2) [] =
  (m1 <- aggregate_rows c l1 [] ;;
   m2 <- aggregate_rows c l2 [] ;;
   Ok (merge_cells m1 m2)).
Proof.
  destruct (Forall_dec is_object) with (l := l1) as [H1|H1].
  { intros x. unfold is_object. destruct (nullish x); [right|left]; congruence. }
  - destruct (Forall_dec is_object) with (l := l2) as [H2|H2].
    { intros x. unfold is_object. destruct (nullish x); [right|left]; congruence. }
    + rewrite !aggregate_rows_ok by (try apply Forall_app; auto).
      cbn [bind]. rewrite fold_left_app. now rewrite fold_accumulate_merge.
    + rewrite (aggregate_rows_ok c [] H1), (aggregate_rows_throw c [] H2).
      rewrite aggregate_rows_throw; [reflexivity|].
      intros HF. apply Forall_app in HF. tauto.
  - rewrite (aggregate_rows_throw c [] H1).
    rewrite aggregate_rows_throw; [reflexivity|].
    intros HF. apply Forall_app in HF. tauto.
Qed.

Lemma fold_accumulate_Permutation (c : num) (l l' : list jsval) :
  Permutation l l' ->
  Permutation (fold_left (accumulate_row c) l [])
              (fold_left (accumulate_row c) l' []).
Proof.
  intros H. apply Map_lookup_Permutation.
  - apply NoDup_keys_fold. constructor.
  - apply NoDup_keys_fold. constructor.
  - intros k. rewrite !Map_get_fold.
    apply cell_of_members_Permutation. now apply members_Permutation.
Qed.

Lemma fold_accumulate_lookup_Permutation (c : num) (l l' : list jsval)
  (k : cell_key) :
  Permutation l l' ->
  Map_get (fold_left (accumulate_row c) l []) k =
  Map_get (fold_left (accumulate_row c) l' []) k.
Proof.
  intros H. rewrite !Map_get_fold.
  apply cell_of_members_Permutation. now apply members_Permutation.
Qed.

(** In exact arithmetic aggregation can be split and merged and does not
    depend on the order of its input: the cell map of [l1 ++ l2] is the
    cell map of [l1] merged with that of [l2], and permuted inputs give the
    same cell for every key.  This rests on the associativity of exact
    addition; the sums of the program are binary64 sums, which round, and
    for them it fails (the binary64 example further down shows it). *)
Lemma exact_sums_merge_and_order :
  (forall (c : num) (l1 l2 : list jsval),
      aggregate_rows c (l1 ++ l2) [] =
      (m1 <- aggregate_rows c l1 [] ;;
       m2 <- aggregate_rows c l2 [] ;;
       Ok (merge_cells m1 m2)) /\
      aggregateByGrid (l1 ++ l2) c =
      (m1 <- aggregate_rows c l1 [] ;;
       m2 <- aggregate_rows c l2 [] ;;
       Ok (map (fun kv => emit_cell (snd kv)) (merge_cells m1 m2)))) /\
  (forall (c : num) (l l' : list jsval),
      Permutation l l' ->
      match aggregate_rows c l [], aggregate_rows c l' [] with
      | Ok m, Ok m' => forall k, Map_get m k = Map_get m' k
      | Throw e, Throw e' => e = e'
      | _, _ => False
      end /\
      match aggregateByGrid l c, aggregateByGrid l' c with
      | Ok out, Ok out' => Permutation out out'
      | Throw e, Throw e' => e = e'
      | _, _ => False
      end).
Proof.
  split.
  - intros c l1 l2. split; [apply aggregate_rows_app|].
    unfold aggregateByGrid. rewrite aggregate_rows_app.
    destruct (aggregate_rows c l1 []); [|reflexivity].
    destruct (aggregate_rows c l2 []); reflexivity.
  - intros c l l' Hp. unfold aggregateByGrid.
    destruct (Forall_dec is_object) with (l := l) as [H|H].
    { intros x. unfold is_object. destruct (nullish x); [right|left]; congruence. }
    + assert (H' : Forall is_object l') by (now rewrite <- Hp).
      rewrite !aggregate_rows_ok by assumption. cbn [bind]. split.
      * intros k. now apply fold_accumulate_lookup_Permutation.
      * apply Permutation_map. now apply fold_accumulate_Permutation.
    + assert (H' : ~ Forall is_object l') by (now rewrite <- Hp).
      rewrite !aggregate_rows_throw by assumption. cbn [bind]. split; reflexivity.
Qed.

(** ** Accepted rows *)

Lemma accepted_object (r : jsval) :
  accepted r = true -> exists props, r = VObj props.
Proof.
  destruct r; try discriminate. intros _. now eexists.
Qed.

Lemma accepted_truthy (r : jsval) : accepted r = true -> truthy r = true.
Proof. intros H. destruct (accepted_object _ H) as [props ->]. reflexivity. Qed.

Lemma accepted_is_object (r : jsval) : accepted r = true -> is_object r.
Proof. intros H. destruct (accepted_object _ H) as [props ->]. reflexivity. Qed.

Lemma pointToHeatEntry_total (r : jsval) :
  pointToHeatEntry r =
  Ok (if accepted r
      then Some {| lat := row_lat r; lng := row_lng r;
                   intensity := row_weight r;
                   meta := {| score := row_score r;
                              samples := Math_max (Fin 1) (row_samples r);
                              confidence := row_confidence r |} |}
      else None).
Proof.
  destruct (truthy r) eqn:Ht.
  - now apply pointToHeatEntry_truthy.
  - rewrite pointToHeatEntry_falsy by assumption.
    destruct (accepted r) eqn:Ha; [|reflexivity].
    apply accepted_truthy in Ha. congruence.
Qed.


Lemma push_entries_spec (rows : list jsval) (arr : list triple) :
  push_entries rows arr = Ok (arr ++ map heat_triple (filter accepted rows)).
Proof.
  revert arr. induction rows as [|r rows IH]; intros arr; cbn [push_entries].
  - now rewrite app_nil_r.
  - rewrite pointToHeatEntry_total. cbn [bind filter].
    destruct (accepted r); simpl.
    + rewrite IH, <- app_assoc. reflexivity.
    + apply IH.
Qed.

Lemma buildHeatArrayFromRows_spec (rows : option (list jsval)) :
  buildHeatArrayFromRows rows =
  Ok (map heat_triple
          (filter accepted (match rows with Some l => l | None => [] end))).
Proof.
  unfold buildHeatArrayFromRows, buildHeatArrayFromRowsWith, USE_AGGREGATION.
  destruct rows as [[|r rows]|]; try reflexivity.
  now rewrite push_entries_spec.
Qed.

(** ** Sums of weights *)

Lemma sum_of_clamped (ws : list num) (a : R) :
  Forall in_clamp ws ->
  exists w, fold_left num_add ws (Fin a) = Fin w /\
            a + 0.01 * INR (List.length ws) <= w.
Proof.
  intros H. revert a. induction H as [|x ws (y & -> & Hy) _ IH]; intros a.
  - exists a. split; [reflexivity|]. simpl. lra.
  - cbn [fold_left num_add]. destruct (IH (a + y)) as (w & Hw & Hle).
    exists w. split; [exact Hw|].
    change (List.length (Fin y :: ws)) with (S (List.length ws)).
    rewrite S_INR. lra.
Qed.

Lemma sum_of_weights_positive (ws : list num) :
  Forall in_clamp ws -> ws <> [] ->
  exists w, num_sum ws = Fin w /\ 0.01 <= w.
Proof.
  intros H Hne. destruct (sum_of_clamped 0 H) as (w & Hw & Hle).
  exists w. split; [exact Hw|].
  destruct ws as [|x ws]; [congruence|].
  change (List.length (x :: ws)) with (S (List.length ws)) in Hle.
  rewrite S_INR in Hle. pose proof (pos_INR (List.length ws)). lra.
Qed.

Lemma members_incl (c : num) (k : cell_key) (rows : list jsval) (r : jsval) :
  In r (members c k rows) -> In r rows /\ accepted r = true.
Proof.
  unfold members. rewrite filter_In. intros [Hin Hb].
  apply andb_true_iff in Hb. tauto.
Qed.

Lemma member_weights_clamped (c : num) (k : cell_key) (rows : list jsval) :
  Forall (fun r => accepted r = true -> numeric_inputs r) rows ->
  Forall in_clamp (map row_weight (members c k rows)).
Proof.
  intros H. apply Forall_map. apply Forall_forall. intros r Hr.
  apply members_incl in Hr as [Hin Ha].
  rewrite Forall_forall in H. destruct (H r Hin Ha) as [Hs Hn].
  now apply point_intensity_in_clamp.
Qed.

(** Every entry of the final map is the cell of the members of its key. *)
Lemma fold_entry_members (c : num) (rows : list jsval) (k : cell_key) (v : Cell) :
  In (k, v) (fold_left (accumulate_row c) rows []) ->
  let ms := members c k rows in
  ms <> [] /\
  v = {| latSum := num_sum (map (fun r => row_lat r * row_weight r)%num ms);
         lngSum := num_sum (map (fun r => row_lng r * row_weight r)%num ms);
         weightSum := num_sum (map row_weight ms);
         count := List.length ms |}.
Proof.
  intros Hin. apply In_Map_get in Hin; [|apply NoDup_keys_fold; constructor].
  rewrite Map_get_fold, cell_of_members_None in Hin. cbn [Map_get] in Hin.
  cbv zeta. destruct (members c k rows) as [|r ms]; [discriminate|].
  split; [discriminate|]. congruence.
Qed.

(* ================================================================= *)
(** * The scorer and the aggregator: claims *)

Lemma pointToHeatEntry_unscored_single (p : jsval) :
  accepted p = true -> row_score p = None -> row_samples p = Fin 1 ->
  exists e, pointToHeatEntry p = Ok (Some e) /\
            intensity e = Fin unscored_single_intensity.
Proof.
  intros Ha Hs Hn. rewrite pointToHeatEntry_total, Ha.
  eexists. split; [reflexivity|]. cbn [intensity].
  unfold row_weight. rewrite Hs, Hn. apply point_intensity_unscored_single.
Qed.

(** C1 (as amended).  For every accepted row whose score is [null] or
    absent and whose sample count is 1 or absent, the scorer returns an
    entry whose intensity is 0.75 * (0.45 + log10 2 * 0.32) * 2.0, a number
    between 0.819 and 0.8196: at one sample the boost is
    0.45 + 0.32 * log10 2, not 0.45, and the clamp does not bite. *)
Theorem unscored_single_sample_intensity (p : jsval) :
  accepted p = true -> row_score p = None -> row_samples p = Fin 1 ->
  exists e, pointToHeatEntry p = Ok (Some e) /\
            intensity e = Fin (0.75 * (0.45 + log10 2 * 0.32) * 2.0) /\
            0.819 < 0.75 * (0.45 + log10 2 * 0.32) * 2.0 < 0.8196.
Proof.
  intros Ha Hs Hn.
  destruct (pointToHeatEntry_unscored_single p Ha Hs Hn) as (e & He & Hi).
  exists e. repeat split; try assumption; apply unscored_single_intensity_range.
Qed.

Lemma unscored_single_sample_intensity_witness :
  exists e, pointToHeatEntry sample_unscored = Ok (Some e) /\
            intensity e = Fin (0.75 * (0.45 + log10 2 * 0.32) * 2.0) /\
            0.819 < 0.75 * (0.45 + log10 2 * 0.32) * 2.0 < 0.8196.
Proof.
  apply (unscored_single_sample_intensity sample_unscored); reflexivity.
Defined.

(** C1, as stated, fails: the intensity of an accepted row with a [null]
    score and one sample is not 0.75 * 0.45 * 2.0 = 0.675. *)
Lemma unscored_single_not_0675 :
  accepted sample_unscored = true /\
  row_score sample_unscored = None /\ row_samples sample_unscored = Fin 1 /\
  exists e, pointToHeatEntry sample_unscored = Ok (Some e) /\
            intensity e <> Fin (0.75 * 0.45 * 2.0).
Proof.
  repeat (split; [reflexivity|]).
  destruct (pointToHeatEntry_unscored_single sample_unscored)
    as (e & He & Hi); try reflexivity.
  exists e. split; [assumption|]. rewrite Hi. intros Heq.
  injection Heq as Heq. pose proof unscored_single_intensity_range. lra.
Qed.

Lemma aggregateByGrid_cells (rows : list jsval) (c : num) :
  Forall is_object rows ->
  (forall r, In r rows -> accepted r = true -> numeric_inputs r) ->
  exists out,
    aggregateByGrid rows c = Ok out /\
    Forall (fun a =>
      exists k,
        let ms := members c k rows in
        let W := num_sum (map row_weight ms) in
        ms <> [] /\
        (exists w, W = Fin w /\ 0.01 <= w) /\
        a_lat a = (num_sum (map (fun r => row_lat r * row_weight r) ms) / W)%num /\
        a_lng a = (num_sum (map (fun r => row_lng r * row_weight r) ms) / W)%num /\
        a_intensity a = Math_min MAX_INTENSITY_CLAMP W /\
        a_count a = List.length ms) out.
Proof.
  intros Hobj Hnum. unfold aggregateByGrid.
  rewrite aggregate_rows_ok by assumption. cbn [bind].
  eexists. split; [reflexivity|].
  apply Forall_map. apply Forall_forall. intros [k v] Hin.
  apply fold_entry_members in Hin. cbv zeta in Hin. destruct Hin as [Hne ->].
  exists k. cbv zeta. cbn [snd emit_cell a_lat a_lng a_intensity a_count
                           latSum lngSum weightSum count].
  repeat split; try reflexivity; [exact Hne|].
  apply sum_of_weights_positive.
  - apply member_weights_clamped. apply Forall_forall. exact Hnum.
  - intros Hnil. apply map_eq_nil in Hnil. contradiction.
Qed.

Lemma aggregateByGrid_Ok_objects (rows : list jsval) (c : num)
  (out : list Aggregated) :
  aggregateByGrid rows c = Ok out -> Forall is_object rows.
Proof.
  unfold aggregateByGrid. intros H.
  destruct (aggregate_rows c rows []) as [m|e] eqn:Hm; [|discriminate].
  now apply aggregate_rows_Ok_inv in Hm.
Qed.

(** C2 (as amended).  For every collection of rows whose accepted rows carry
    a score and a sample count that, where present, convert to a number
    other than NaN: [aggregateByGrid] returns (provided no element is [null]
    or [undefined]), and every cell it emits is the cell of a non-empty set
    of member rows, the accepted rows of one key: its weight sum is a real
    number that is strictly positive, its centroid is the sum of the
    members' raw coordinates weighted by their point intensities divided by
    the weight sum, its intensity is the minimum of the clamp 4.0 and the
    weight sum, and its count is the number of members. *)
Theorem aggregated_cell_weighted_centroid (rows : list jsval) (c : num) :
  (forall r, In r rows -> accepted r = true -> numeric_inputs r) ->
  (Forall is_object rows -> exists out, aggregateByGrid rows c = Ok out) /\
  (forall out,
      aggregateByGrid rows c = Ok out ->
      Forall (fun a =>
        exists k,
          let ms := members c k rows in
          let W := num_sum (map row_weight ms) in
          ms <> [] /\
          (exists w, W = Fin w /\ 0 < w) /\
          a_lat a = (num_sum (map (fun r => row_lat r * row_weight r) ms) / W)%num /\
          a_lng a = (num_sum (map (fun r => row_lng r * row_weight r) ms) / W)%num /\
          a_intensity a = Math_min (Fin 4.0) W /\
          a_count a = List.length ms) out).
Proof.
  intros Hnum. split.
  - intros Hobj.
    destruct (aggregateByGrid_cells c Hobj Hnum) as (out & Hout & _).
    now exists out.
  - intros out Hout.
    pose proof (aggregateByGrid_Ok_objects _ _ Hout) as Hobj.
    destruct (aggregateByGrid_cells c Hobj Hnum) as (out' & Hout' & Hall).
    assert (out' = out) as -> by congruence.
    eapply Forall_impl; [|exact Hall]. cbv zeta.
    intros a (k & Hne & (w & Hw & Hpos) & Hla & Hlo & Hi & Hc).
    exists k. repeat split; try assumption.
    exists w. split; [assumption|lra].
Qed.

Lemma sample_rows_objects : Forall is_object sample_rows.
Proof. repeat constructor. Qed.

Lemma sample_scored_numeric : numeric_inputs sample_scored.
Proof. split; discriminate. Qed.

Lemma sample_unscored_numeric : numeric_inputs sample_unscored.
Proof. split; discriminate. Qed.

Lemma sample_rows_numeric (r : jsval) :
  In r sample_rows -> accepted r = true -> numeric_inputs r.
Proof.
  intros [<-|[<-|[<-|[]]]] Ha.
  - apply sample_scored_numeric.
  - apply sample_unscored_numeric.
  - discriminate Ha.
Qed.

Lemma aggregated_cell_weighted_centroid_witness :
  exists out,
    aggregateByGrid sample_rows AGG_CELL_SIZE_DEG = Ok out /\
    Forall (fun a =>
      exists k,
        let ms := members AGG_CELL_SIZE_DEG k sample_rows in
        let W := num_sum (map row_weight ms) in
        ms <> [] /\
        (exists w, W = Fin w /\ 0 < w) /\
        a_lat a = (num_sum (map (fun r => row_lat r * row_weight r) ms) / W)%num /\
        a_lng a = (num_sum (map (fun r => row_lng r * row_weight r) ms) / W)%num /\
        a_intensity a = Math_min (Fin 4.0) W /\
        a_count a = List.length ms) out.
Proof.
  destruct (@aggregated_cell_weighted_centroid sample_rows AGG_CELL_SIZE_DEG
              sample_rows_numeric) as [Hret Hcells].
  destruct (Hret sample_rows_objects) as [out Hout].
  exists out. split; [exact Hout|]. now apply Hcells.
Defined.

Lemma StringToNumber_high : StringToNumber "high" = NaN.
Proof. reflexivity. Qed.

Lemma row_weight_text_score : row_weight sample_text_score = NaN.
Proof. reflexivity. Qed.

Lemma aggregate_text_score :
  aggregate_rows AGG_CELL_SIZE_DEG [sample_text_score] [] =
  Ok [(row_key AGG_CELL_SIZE_DEG sample_text_score,
       add_point zero_cell (row_lat sample_text_score)
                 (row_lng sample_text_score) NaN)].
Proof.
  rewrite aggregate_rows_ok by (repeat constructor). reflexivity.
Qed.

(** C2, as stated, fails on a row whose score is not a number: the weight
    sum of its cell is NaN, and so are the centroid and the intensity. *)
Lemma aggregated_cell_weight_nan :
  exists k cell,
    aggregate_rows AGG_CELL_SIZE_DEG [sample_text_score] [] = Ok [(k, cell)] /\
    weightSum cell = NaN /\
    aggregateByGrid [sample_text_score] AGG_CELL_SIZE_DEG = Ok [emit_cell cell] /\
    a_lat (emit_cell cell) = NaN /\
    a_intensity (emit_cell cell) = NaN.
Proof.
  do 2 eexists. split; [apply aggregate_text_score|].
  split; [reflexivity|]. split; [|split; reflexivity].
  unfold aggregateByGrid. rewrite aggregate_text_score. reflexivity.
Qed.

(** C3 (as amended).  For every row with finite coordinates whose score and
    sample count, where present, convert to a number other than NaN (of any
    size, the infinities included), the scorer emits an intensity that is a
    real number within [0.01, 4.0]; and over a collection whose accepted
    rows are of that kind, every cell the aggregator emits has an intensity
    that is a real number within [0.01, 4.0]. *)
Theorem intensities_within_clamp :
  (forall p : jsval,
      accepted p = true -> numeric_inputs p ->
      exists e x, pointToHeatEntry p = Ok (Some e) /\
                  intensity e = Fin x /\ 0.01 <= x <= 4.0) /\
  (forall (rows : list jsval) (c : num) (out : list Aggregated),
      (forall r, In r rows -> accepted r = true -> numeric_inputs r) ->
      aggregateByGrid rows c = Ok out ->
      Forall (fun a => exists x, a_intensity a = Fin x /\
                                 0.01 <= x <= 4.0) out).
Proof.
  split.
  - intros p Ha [Hs Hn]. rewrite pointToHeatEntry_total, Ha.
    destruct (point_intensity_in_clamp Hs Hn) as (x & Hx & Hr).
    eexists. exists x. split; [reflexivity|]. split; [exact Hx|exact Hr].
  - intros rows c out Hnum Hout.
    pose proof (aggregateByGrid_Ok_objects _ _ Hout) as Hobj.
    destruct (aggregateByGrid_cells c Hobj Hnum) as (out' & Hout' & Hall).
    assert (out' = out) as -> by congruence.
    eapply Forall_impl; [|exact Hall]. cbv zeta.
    intros a (k & _ & (w & Hw & Hpos) & _ & _ & Hi & _).
    rewrite Hi, Hw. unfold MAX_INTENSITY_CLAMP. cbn [Math_min].
    eexists. split; [reflexivity|]. minmax.
Qed.

Lemma intensities_within_clamp_witness :
  (exists e x, pointToHeatEntry sample_scored = Ok (Some e) /\
               intensity e = Fin x /\ 0.01 <= x <= 4.0) /\
  (exists out, aggregateByGrid sample_rows AGG_CELL_SIZE_DEG = Ok out /\
               Forall (fun a => exists x, a_intensity a = Fin x /\
                                          0.01 <= x <= 4.0) out).
Proof.
  split.
  - apply (proj1 intensities_within_clamp sample_scored);
      [reflexivity|apply sample_scored_numeric].
  - destruct (aggregateByGrid_cells AGG_CELL_SIZE_DEG sample_rows_objects
                sample_rows_numeric) as (out & Hout & _).
    exists out. split; [exact Hout|].
    apply (proj2 intensities_within_clamp sample_rows AGG_CELL_SIZE_DEG out);
      [apply sample_rows_numeric|exact Hout].
Defined.

(** C3, as stated, fails on a row whose score is the text "high": its
    coordinates are finite, the scorer emits NaN, and so does the
    aggregator for its cell. *)
Lemma intensity_nan_for_text_score :
  accepted sample_text_score = true /\
  (exists e, pointToHeatEntry sample_text_score = Ok (Some e) /\
             intensity e = NaN) /\
  (exists a, aggregateByGrid [sample_text_score] AGG_CELL_SIZE_DEG = Ok [a] /\
             a_intensity a = NaN).
Proof.
  split; [reflexivity|]. split.
  - rewrite pointToHeatEntry_total. eexists. split; reflexivity.
  - unfold aggregateByGrid. rewrite aggregate_text_score.
    eexists. split; reflexivity.
Qed.

(** C6.  For every accepted row, the scorer returns an entry, the
    aggregator's loop body returns a map, and what that body adds to the
    cell of the row is the scorer's intensity for the row: the weight sum
    grows by that intensity, the position sums by the scorer's coordinates
    times that intensity, the count by one; the other cells are untouched. *)
Theorem aggregator_point_intensity_is_scorer_intensity
  (c : num) (cells : CellMap) (r : jsval) :
  accepted r = true ->
  exists e cells' cell',
    pointToHeatEntry r = Ok (Some e) /\
    aggregate_row c cells r = Ok cells' /\
    Map_get cells' (row_key c r) = Some cell' /\
    weightSum cell' = (weightSum (current_cell cells (row_key c r)) + intensity e)%num /\
    latSum cell' =
      (latSum (current_cell cells (row_key c r)) + lat e * intensity e)%num /\
    lngSum cell' =
      (lngSum (current_cell cells (row_key c r)) + lng e * intensity e)%num /\
    count cell' = (count (current_cell cells (row_key c r)) + 1)%nat /\
    (forall k, k <> row_key c r -> Map_get cells' k = Map_get cells k).
Proof.
  intros Ha. rewrite pointToHeatEntry_total.
  rewrite aggregate_row_ok by (now apply accepted_is_object).
  unfold accumulate_row, accumulate. rewrite Ha.
  do 3 eexists. split; [reflexivity|]. split; [reflexivity|].
  split; [apply Map_get_set_same|].
  repeat split.
  intros k Hk. apply Map_get_set_other. now apply not_eq_sym.
Qed.

Lemma aggregator_point_intensity_is_scorer_intensity_witness :
  exists e cells' cell',
    pointToHeatEntry sample_scored = Ok (Some e) /\
    aggregate_row AGG_CELL_SIZE_DEG [] sample_scored = Ok cells' /\
    Map_get cells' (row_key AGG_CELL_SIZE_DEG sample_scored) = Some cell' /\
    weightSum cell' = (Fin 0 + intensity e)%num.
Proof.
  destruct (aggregator_point_intensity_is_scorer_intensity
              AGG_CELL_SIZE_DEG [] sample_scored eq_refl)
    as (e & cells' & cell' & He & Hc & Hg & Hw & _).
  exists e, cells', cell'. repeat split; assumption.
Defined.


(* ================================================================= *)
(** * CSV export *)

Lemma split_no_sep (sep : ascii) (x : string) :
  has_char sep x = false -> split sep x = [x].
Proof.
  induction x as [|c x IH]; cbn [has_char split]; [reflexivity|].
  intros H. apply orb_false_iff in H as [Hc Hx].
  rewrite Hc, (IH Hx). reflexivity.
Qed.

Lemma split_app_sep (sep : ascii) (x s : string) :
  has_char sep x = false ->
  split sep (x ++ String sep s)%string = x :: split sep s.
Proof.
  induction x as [|c x IH]; cbn [has_char split String.append].
  - intros _. now rewrite Ascii.eqb_refl.
  - intros H. apply orb_false_iff in H as [Hc Hx].
    rewrite Hc, (IH Hx). reflexivity.
Qed.

Lemma split_concat (sep : ascii) (l : list string) :
  l <> [] -> Forall (fun s => has_char sep s = false) l ->
  split sep (String.concat (String sep EmptyString) l) = l.
Proof.
  induction l as [|x l IH]; [congruence|]. intros _ H.
  inversion H as [|? ? Hx Hl]; subst.
  destruct l as [|y l].
  - cbn [String.concat]. now apply split_no_sep.
  - change (String.concat (String sep "") (x :: y :: l))
      with (x ++ String sep (String.concat (String sep "") (y :: l)))%string.
    rewrite split_app_sep by assumption. f_equal. apply IH; [discriminate|assumption].
Qed.

Lemma has_char_append (c : ascii) (a b : string) :
  has_char c (a ++ b)%string = has_char c a || has_char c b.
Proof.
  induction a as [|x a IH]; cbn [has_char String.append]; [reflexivity|].
  now rewrite IH, orb_assoc.
Qed.

Lemma has_char_concat (c : ascii) (sep : string) (l : list string) :
  has_char c sep = false -> Forall (fun s => has_char c s = false) l ->
  has_char c (String.concat sep l) = false.
Proof.
  intros Hsep H. induction H as [|x l Hx Hl IH]; [reflexivity|].
  destruct l as [|y l]; [exact Hx|].
  change (String.concat sep (x :: y :: l))
    with (x ++ sep ++ String.concat sep (y :: l))%string.
  now rewrite !has_char_append, Hx, Hsep, IH.
Qed.

Section CSV_facts.

Variable NumberToString : num -> string.

Lemma field_text_coalesce (v : jsval) :
  field_text NumberToString (v ?? VStr "") = field_text NumberToString v.
Proof. destruct v; reflexivity. Qed.

Lemma csv_row_text (p : jsval) :
  is_object p ->
  exists r, csv_row p = Ok r /\ Array_join NumberToString "," r = row_text NumberToString p.
Proof.
  intros Hobj. unfold csv_row. rewrite !get_ok by exact Hobj. cbn [bind].
  eexists. split; [reflexivity|].
  unfold Array_join, row_text. cbn [map].
  now rewrite !field_text_coalesce.
Qed.

Lemma pointsToCSV_text (pts : list jsval) :
  Forall is_object pts ->
  pointsToCSV NumberToString pts =
  Ok (String.concat newline
        ("lat,lng,score,samples,confidence" :: map (row_text NumberToString) pts)).
Proof.
  intros H. unfold pointsToCSV.
  assert (Hrows : exists rows,
             Array_map csv_row pts = Ok rows /\
             map (Array_join NumberToString ",") rows =
             map (row_text NumberToString) pts).
  { induction H as [|p pts Hp _ (rows & Hr & Ht)].
    - exists []. split; reflexivity.
    - destruct (csv_row_text Hp) as (r & Hc & Hj).
      exists (r :: rows). cbn [Array_map]. rewrite Hc, Hr. cbn [bind map].
      now rewrite Hj, Ht. }
  destruct Hrows as (rows & Hr & Ht). rewrite Hr. cbn [bind map].
  now rewrite Ht.
Qed.

Lemma field_text_clean (c : ascii) (v : jsval) :
  number_or_missing v ->
  (forall x, v = VNum x -> has_char c (NumberToString x) = false) ->
  has_char c (field_text NumberToString v) = false.
Proof.
  destruct v; cbn; try tauto. intros _ H. now apply H.
Qed.

Lemma field_text_parse (v : jsval) :
  number_or_missing v ->
  (forall x, v = VNum x -> reads_back NumberToString x) ->
  parse_field (field_text NumberToString v) = csv_value v.
Proof.
  destruct v; cbn [number_or_missing]; try tauto; intros _ H; try reflexivity.
  destruct (H n eq_refl) as (_ & _ & Hne & Hb).
  cbn [field_text ToString csv_value]. unfold parse_field.
  destruct (String.eqb_spec (NumberToString n) ""); [contradiction|].
  now rewrite Hb.
Qed.

Lemma row_text_clean (c : ascii) (p : jsval) :
  (c = "," \/ c = ascii_of_nat 10)%char -> exportable NumberToString p ->
  Forall (fun s => has_char c s = false)
    (map (fun name => field_text NumberToString (prop p name))
         ["lat"; "lng"; "score"; "samples"; "confidence"]).
Proof.
  intros Hc [_ Hp]. apply Forall_map. apply Forall_forall. intros name Hin.
  destruct (Hp name Hin) as [Hnm Hrb]. apply field_text_clean; [exact Hnm|].
  intros x Hx. destruct (Hrb x Hx) as (H1 & H2 & _).
  destruct Hc as [-> | ->]; assumption.
Qed.

Lemma parse_line_row_text (p : jsval) :
  exportable NumberToString p ->
  parse_line (row_text NumberToString p) = Some (csv_tuple p).
Proof.
  intros Hp. unfold parse_line, row_text.
  rewrite (@split_concat ","%char).
  - cbn [List.length map Nat.eqb]. unfold csv_tuple. cbn [map].
    destruct Hp as [_ Hp].
    rewrite !field_text_parse; try reflexivity;
      try (apply Hp; cbn; tauto).
  - discriminate.
  - apply row_text_clean; [now left|exact Hp].
Qed.

Lemma parse_lines_row_texts (pts : list jsval) :
  Forall (exportable NumberToString) pts ->
  parse_lines (map (row_text NumberToString) pts) = Some (map csv_tuple pts).
Proof.
  induction 1 as [|p pts Hp _ IH]; [reflexivity|].
  cbn [map parse_lines]. now rewrite (parse_line_row_text Hp), IH.
Qed.

Lemma pointsToCSV_round_trip (pts : list jsval) :
  Forall (exportable NumberToString) pts ->
  exists csv,
    pointsToCSV NumberToString pts = Ok csv /\
    parseCSV csv = Some (map csv_tuple pts).
Proof.
  intros H.
  assert (Hobj : Forall is_object pts)
    by (eapply Forall_impl; [|exact H]; intros p [Ho _]; exact Ho).
  eexists. split; [now apply pointsToCSV_text|].
  unfold parseCSV, newline. rewrite split_concat.
  - rewrite String.eqb_refl. now apply parse_lines_row_texts.
  - discriminate.
  - constructor; [reflexivity|].
    apply Forall_map. eapply Forall_impl; [|exact H]. intros p Hp.
    apply has_char_concat; [reflexivity|].
    apply row_text_clean; [now right|exact Hp].
Qed.

End CSV_facts.

(** ** The text of the integers *)

Lemma Int_part_IZR (z : Z) : Int_part (IZR z) = z.
Proof. symmetry. apply Int_part_spec. lra. Qed.

Lemma NumberToString_integers_IZR (z : Z) :
  NumberToString_integers (Fin (IZR z)) = NilZero.string_of_int (Z.to_int z).
Proof.
  unfold NumberToString_integers. rewrite Int_part_IZR.
  destruct (Req_dec_T (IZR z) (IZR z)); congruence.
Qed.

Lemma StringToNumber_integer (s : string) (z : Z) :
  parse_numeric s = LitValue z 0 -> StringToNumber s = Fin (IZR z).
Proof.
  intros H. unfold StringToNumber. rewrite H. cbn [num_of_literal powerRZ].
  f_equal. apply Rmult_1_r.
Qed.

Lemma reads_back_integer (z : Z) :
  let s := NilZero.string_of_int (Z.to_int z) in
  has_char "," s = false -> has_char (ascii_of_nat 10) s = false ->
  s <> "" -> parse_numeric s = LitValue z 0 ->
  reads_back NumberToString_integers (Fin (IZR z)).
Proof.
  cbv zeta. intros H1 H2 H3 H4. unfold reads_back.
  rewrite NumberToString_integers_IZR.
  repeat split; try assumption. now apply StringToNumber_integer.
Qed.

Ltac reads_back_concrete :=
  apply reads_back_integer; [reflexivity|reflexivity|discriminate|reflexivity].

Lemma sample_export_exportable :
  Forall (exportable NumberToString_integers) sample_export.
Proof.
  unfold sample_export.
  constructor; [|constructor; [|constructor]];
    (split; [reflexivity|]);
    intros name Hin; cbn [In] in Hin;
    repeat (destruct Hin as [<-|Hin]; [split; [exact I|]|]);
    try contradiction;
    intros x Hx; cbn in Hx; try discriminate;
    injection Hx as <-; reads_back_concrete.
Qed.

(* ================================================================= *)
(** * CSV export: claims *)

(** C4 (as amended).  For every point set whose points are objects with each
    of the five fields a number or missing ([null] or [undefined]), the
    numbers being such that their text holds no comma or line break and
    reads back as the number: [pointsToCSV] returns the header line
    [lat,lng,score,samples,confidence] followed by one line per point, a
    missing value being the empty text, and reading that text back gives
    the tuples of the points in order, number for number and missing value
    for empty field. *)
Theorem csv_round_trip (NumberToString : num -> string) (pts : list jsval) :
  Forall (exportable NumberToString) pts ->
  exists csv,
    pointsToCSV NumberToString pts = Ok csv /\
    csv = String.concat newline
            ("lat,lng,score,samples,confidence"
               :: map (row_text NumberToString) pts) /\
    parseCSV csv = Some (map csv_tuple pts).
Proof.
  intros H. destruct (pointsToCSV_round_trip H) as (csv & Hcsv & Hparse).
  exists csv. repeat split; try assumption.
  rewrite pointsToCSV_text in Hcsv; [congruence|].
  eapply Forall_impl; [|exact H]. intros p [Ho _]. exact Ho.
Qed.

Lemma csv_round_trip_witness :
  exists csv,
    pointsToCSV NumberToString_integers sample_export = Ok csv /\
    csv = String.concat newline
            ("lat,lng,score,samples,confidence"
               :: map (row_text NumberToString_integers) sample_export) /\
    parseCSV csv = Some (map csv_tuple sample_export).
Proof.
  apply (csv_round_trip sample_export_exportable).
Defined.

Lemma row_text_sample_comma :
  row_text NumberToString_integers sample_comma = "13,77,1,4,high,verified".
Proof.
  unfold row_text, sample_comma. cbn [map prop lookup_prop String.eqb Ascii.eqb Bool.eqb field_text ToString].
  rewrite !NumberToString_integers_IZR. reflexivity.
Qed.

Lemma row_text_sample_comma_twin :
  row_text NumberToString_integers sample_comma_twin = "13,77,1,4,high,verified".
Proof.
  unfold row_text, sample_comma_twin. cbn [map prop lookup_prop String.eqb Ascii.eqb Bool.eqb field_text ToString].
  rewrite !NumberToString_integers_IZR. reflexivity.
Qed.

(** C4, as stated, fails on a point whose confidence is the text
    "high,verified": its row is written without quoting, so it has six
    fields and does not read back; and a different point set gives the
    very same text, so that no reader can tell the two apart. *)
Lemma csv_comma_field_not_recovered :
  let csv := String.concat newline
               ["lat,lng,score,samples,confidence"; "13,77,1,4,high,verified"] in
  pointsToCSV NumberToString_integers [sample_comma] = Ok csv /\
  parseCSV csv <> Some (map csv_tuple [sample_comma]) /\
  pointsToCSV NumberToString_integers [sample_comma_twin] = Ok csv /\
  map csv_tuple [sample_comma] <> map csv_tuple [sample_comma_twin].
Proof.
  cbv zeta. repeat split.
  - rewrite pointsToCSV_text by (repeat constructor).
    cbn [map]. now rewrite row_text_sample_comma.
  - assert (H : parseCSV
                  (String.concat newline
                     ["lat,lng,score,samples,confidence";
                      "13,77,1,4,high,verified"]) = None) by reflexivity.
    rewrite H. discriminate.
  - rewrite pointsToCSV_text by (repeat constructor).
    cbn [map]. now rewrite row_text_sample_comma_twin.
  - discriminate.
Qed.

(* ================================================================= *)
(** * The refresh cycle *)

Lemma keeps_points_retM {A} (a : A) : keeps_points (retM a).
Proof. intros s. reflexivity. Qed.

Lemma keeps_points_throwM {A} (e : exn) : keeps_points (@throwM A e).
Proof. intros s. reflexivity. Qed.

Lemma keeps_points_liftM {A} (r : result A) : keeps_points (liftM r).
Proof. intros s. reflexivity. Qed.

Lemma keeps_points_read {A} (f : Page -> A) : keeps_points (read f).
Proof. intros s. reflexivity. Qed.

Lemma keeps_points_modify (f : Page -> Page) :
  (forall s, lastFetchedPoints (f s) = lastFetchedPoints s) ->
  keeps_points (modify f).
Proof. intros H s. apply H. Qed.

Lemma keeps_points_bindM {A B} (c : M A) (k : A -> M B) :
  keeps_points c -> (forall a, keeps_points (k a)) -> keeps_points (bindM c k).
Proof.
  intros Hc Hk s. unfold bindM. specialize (Hc s).
  destruct (c s) as [s' [a|e]]; cbn [fst] in *.
  - rewrite (Hk a s'). exact Hc.
  - exact Hc.
Qed.

Lemma keeps_points_try_catch {A} (body : M A) (handler : exn -> M A) :
  keeps_points body -> (forall e, keeps_points (handler e)) ->
  keeps_points (try_catch body handler).
Proof.
  intros Hb Hh s. unfold try_catch. specialize (Hb s).
  destruct (body s) as [s' [a|e]]; cbn [fst] in *.
  - exact Hb.
  - rewrite (Hh e s'). exact Hb.
Qed.

Ltac keeps :=
  repeat first
    [ apply keeps_points_bindM; [|intros ?]
    | apply keeps_points_retM | apply keeps_points_throwM
    | apply keeps_points_liftM | apply keeps_points_read
    | apply keeps_points_modify; intros ?; reflexivity ].

Lemma keeps_points_updateLeftFeedback (dom : Dom) (pts : list jsval) :
  keeps_points (updateLeftFeedback dom pts).
Proof.
  unfold updateLeftFeedback. destruct (has_formFeedback dom); cbn [negb]; keeps.
Qed.

Lemma keeps_points_add_markers (kind : marker_kind) (pts : list jsval) :
  keeps_points (add_markers kind pts).
Proof.
  induction pts as [|p pts IH]; cbn [add_markers].
  - apply keeps_points_retM.
  - apply keeps_points_bindM; [apply keeps_points_liftM|]. intros p_lat.
    destruct p_lat; try exact IH.
    apply keeps_points_bindM; [apply keeps_points_liftM|]. intros p_lng.
    destruct p_lng; try exact IH.
    apply keeps_points_bindM; [|intros _; exact IH].
    apply keeps_points_modify. reflexivity.
Qed.

Section Refresh_facts.

Variable dom : Dom.
Variables band min_samples : jsval.
Variable safeApiGet : jsval * jsval -> result response.

Lemma keeps_points_handler (err : exn) :
  keeps_points
    ((if has_formFeedback dom
      then modify (set_formFeedback (FailedToLoad err)) else retM tt) ;;;
     @throwM (list jsval) err).
Proof. destruct (has_formFeedback dom); keeps. Qed.

Lemma keeps_points_begin (b ms : jsval) :
  keeps_points (fetchAndRender_begin dom band min_samples b ms).
Proof.
  unfold fetchAndRender_begin. destruct (has_formFeedback dom); keeps.
Qed.

(** What follows the assignment [lastFetchedPoints = pts] in the [try]
    block. *)
Lemma keeps_points_render (pts : list jsval) :
  keeps_points
    (updateLeftFeedback dom pts ;;;
     heatArr <~ liftM (buildHeatArrayFromRows (Some pts)) ;;
     (if has_heatLayer dom then modify (set_heatLayer heatArr)
      else (modify (set_markersLayer []) ;;;
            add_markers FallbackMarker pts)) ;;;
     modify (set_markersLayer []) ;;;
     add_markers CompactMarker pts ;;;
     layer <~ read heatLayer ;;
     shown <~ read markersLayerOnMap ;;
     (match layer with
      | Some _ => if shown then modify (set_markersLayerOnMap false) else retM tt
      | None => retM tt
      end) ;;;
     retM pts).
Proof.
  apply keeps_points_bindM; [apply keeps_points_updateLeftFeedback|intros _].
  apply keeps_points_bindM; [apply keeps_points_liftM|intros heatArr].
  apply keeps_points_bindM.
  { destruct (has_heatLayer dom); keeps. apply keeps_points_add_markers. }
  intros _. apply keeps_points_bindM; [keeps|intros _].
  apply keeps_points_bindM; [apply keeps_points_add_markers|intros _].
  apply keeps_points_bindM; [apply keeps_points_read|intros layer].
  apply keeps_points_bindM; [apply keeps_points_read|intros shown].
  destruct layer; [destruct shown|]; keeps.
Qed.

Lemma fetchAndRender_phases (b ms : jsval) (s : Page) :
  fetchAndRender dom band min_samples safeApiGet b ms s =
  fetchAndRender_resume dom (safeApiGet (b ?? band, ms ?? min_samples))
    (fst (fetchAndRender_begin dom band min_samples b ms s)).
Proof.
  unfold fetchAndRender, fetchAndRender_begin, bindM, modify, retM.
  destruct (has_formFeedback dom); reflexivity.
Qed.

Lemma begin_state (b ms : jsval) (s : Page) :
  fst (fetchAndRender_begin dom band min_samples b ms s) =
  let s1 := set_params (b ?? band, ms ?? min_samples) s in
  if has_formFeedback dom then set_formFeedback LoadingPoints s1 else s1.
Proof.
  unfold fetchAndRender_begin, bindM, modify, retM.
  destruct (has_formFeedback dom); reflexivity.
Qed.

Lemma resume_rejected (err : exn) (s : Page) :
  fetchAndRender_resume dom (Throw err) s =
  (if has_formFeedback dom then set_formFeedback (FailedToLoad err) s else s,
   Throw err).
Proof.
  unfold fetchAndRender_resume, try_catch, bindM, liftM.
  destruct (has_formFeedback dom); reflexivity.
Qed.

Lemma resume_bad_body (s : Page) :
  fetchAndRender_resume dom (Ok RNullish) s =
  (if has_formFeedback dom
   then set_formFeedback (FailedToLoad (TypeError "points")) s else s,
   Throw (TypeError "points")).
Proof.
  unfold fetchAndRender_resume, try_catch, bindM, liftM.
  destruct (has_formFeedback dom); reflexivity.
Qed.

Lemma resume_fulfilled (data : response) (pts : list jsval) (s : Page) :
  points_of data = Ok pts ->
  lastFetchedPoints (fst (fetchAndRender_resume dom (Ok data) s)) = pts.
Proof.
  intros Hp. unfold fetchAndRender_resume.
  unfold try_catch.
  match goal with
  | |- context [bindM (liftM (Ok data)) ?k s] =>
      change (bindM (liftM (Ok data)) k s) with (k data s)
  end.
  cbv beta.
  match goal with
  | |- context [bindM (liftM (points_of data)) ?k s] =>
      replace (bindM (liftM (points_of data)) k s) with (k pts s)
        by (unfold bindM, liftM; now rewrite Hp)
  end.
  cbv beta.
  match goal with
  | |- context [bindM (modify (set_lastFetchedPoints pts)) ?k s] =>
      change (bindM (modify (set_lastFetchedPoints pts)) k s)
        with (k tt (set_lastFetchedPoints pts s))
  end.
  cbv beta.
  pose proof (keeps_points_render pts (set_lastFetchedPoints pts s)) as Hr.
  match type of Hr with
  | lastFetchedPoints (fst ?c) = _ => destruct c as [s' [a|e]]
  end; cbn [fst] in *.
  - exact Hr.
  - rewrite (keeps_points_handler e s'). exact Hr.
Qed.

End Refresh_facts.

(* ================================================================= *)
(** * The refresh cycle: claims *)

(** C7.  When the request of a refresh cycle fails, [fetchAndRender] throws
    the error to its caller and leaves [lastFetchedPoints] (and the heat
    layer and the markers) as they were before the cycle, writing the
    failure to the feedback element when there is one.  The part of the
    cycle that runs before the request does not write [lastFetchedPoints];
    when the request succeeds with a body that holds a point array,
    [lastFetchedPoints] is that array afterwards. *)
Theorem fetch_failure_keeps_point_set
  (dom : Dom) (band min_samples : jsval)
  (safeApiGet : jsval * jsval -> result response) (b ms : jsval) (s : Page) :
  (forall err,
      safeApiGet (b ?? band, ms ?? min_samples) = Throw err ->
      let out := fetchAndRender dom band min_samples safeApiGet b ms s in
      snd out = Throw err /\
      lastFetchedPoints (fst out) = lastFetchedPoints s /\
      heatLayer (fst out) = heatLayer s /\
      markersLayer (fst out) = markersLayer s /\
      (has_formFeedback dom = true ->
       formFeedback (fst out) = Some (FailedToLoad err))) /\
  lastFetchedPoints (fst (fetchAndRender_begin dom band min_samples b ms s)) =
    lastFetchedPoints s /\
  (forall data pts,
      safeApiGet (b ?? band, ms ?? min_samples) = Ok data ->
      points_of data = Ok pts ->
      lastFetchedPoints
        (fst (fetchAndRender dom band min_samples safeApiGet b ms s)) = pts).
Proof.
  split; [|split].
  - intros err Herr. cbv zeta.
    rewrite fetchAndRender_phases, Herr, resume_rejected, begin_state.
    destruct (has_formFeedback dom); cbn; repeat split; congruence.
  - apply keeps_points_begin.
  - intros data pts Hd Hp.
    rewrite fetchAndRender_phases, Hd. now apply resume_fulfilled.
Qed.

Lemma fetch_failure_keeps_point_set_witness :
  let out := fetchAndRender dom_full (VStr "night") (VNum (Fin 1)) offline
               VUndefined VUndefined page_start in
  snd out = Throw (FetchError "Failed to fetch") /\
  lastFetchedPoints (fst out) = sample_rows /\
  heatLayer (fst out) = None /\
  markersLayer (fst out) = [] /\
  (has_formFeedback dom_full = true ->
   formFeedback (fst out) = Some (FailedToLoad (FetchError "Failed to fetch"))).
Proof.
  apply (proj1 (fetch_failure_keeps_point_set dom_full (VStr "night")
                  (VNum (Fin 1)) offline VUndefined VUndefined page_start)).
  reflexivity.
Defined.

(* ================================================================= *)
(** * The refresh scheduler *)

Lemma moveend_first (timer_first : bool) (time : nat) :
  armed (moveend_at timer_first timers_start time) (time + 300) 0.
Proof.
  exists 0%nat.
  unfold moveend_at, on_moveend, timers_start, fire, set_clock, setTimeout.
  cbn [fetchTimeout pending clock next_id fetches filter app List.length].
  repeat split; try reflexivity; lia.
Qed.

Lemma moveend_cancels (timer_first : bool) (t : Timers) (due n time : nat) :
  armed t due n -> fires_before timer_first due time = false ->
  armed (moveend_at timer_first t time) (time + 300) n.
Proof.
  intros (id & Hp & Hf & Hn & Hid) Hfire.
  unfold fires_before in Hfire.
  unfold moveend_at, on_moveend, fire, set_clock, setTimeout, clearTimeout.
  cbn [fetchTimeout pending clock next_id fetches]. rewrite Hf, Hp.
  cbn [filter snd fst clock pending next_id fetches fetchTimeout].
  rewrite Hfire. cbn [negb filter fst List.length].
  rewrite Nat.eqb_refl. cbn [negb app].
  destruct (next_id t) as [|k] eqn:Hk; [lia|].
  exists k. cbn [fetchTimeout pending clock next_id fetches].
  repeat split; try reflexivity; lia.
Qed.

Lemma moveend_after_fire (timer_first : bool) (t : Timers) (due n time : nat) :
  armed t due n -> fires_before timer_first due time = true ->
  armed (moveend_at timer_first t time) (time + 300) (n + 1).
Proof.
  intros (id & Hp & Hf & Hn & Hid) Hfire.
  unfold fires_before in Hfire.
  unfold moveend_at, on_moveend, fire, set_clock, setTimeout, clearTimeout.
  cbn [fetchTimeout pending clock next_id fetches]. rewrite Hf, Hp.
  cbn [filter snd fst clock pending next_id fetches fetchTimeout].
  rewrite Hfire. cbn [negb filter fst List.length app].
  destruct (next_id t) as [|k] eqn:Hk; [lia|].
  exists k. cbn [fetchTimeout pending clock next_id fetches].
  repeat split; try reflexivity; lia.
Qed.

Lemma settle_armed (t : Timers) (due n : nat) :
  armed t due n -> fetches (settle t) = (n + 1)%nat.
Proof.
  intros (id & Hp & _ & Hn & _). unfold settle, fire.
  cbn [fetches]. rewrite Hp. cbn. lia.
Qed.

Lemma burst_keeps_one_timer (timer_first : bool) (rest : list nat)
  (t : Timers) (prev n : nat) :
  armed t (prev + 300) n -> gaps_within prev rest ->
  exists due, armed (fold_left (moveend_at timer_first) rest t) due n.
Proof.
  revert t prev. induction rest as [|time rest IH]; intros t prev Ha Hg.
  - now exists (prev + 300)%nat.
  - destruct Hg as [Hlt Hg]. cbn [fold_left].
    apply (IH _ time); [|exact Hg].
    apply moveend_cancels with (due := (prev + 300)%nat); [exact Ha|].
    unfold fires_before. destruct timer_first.
    + apply Nat.leb_gt. lia.
    + apply Nat.ltb_ge. lia.
Qed.

Lemma spaced_fires_each (timer_first : bool) (rest : list nat)
  (t : Timers) (prev n : nat) :
  armed t (prev + 300) n -> spaced_beyond_window (prev :: rest) ->
  exists due,
    armed (fold_left (moveend_at timer_first) rest t) due (n + List.length rest).
Proof.
  revert t prev n. induction rest as [|time rest IH]; intros t prev n Ha Hs.
  - exists (prev + 300)%nat. cbn. now rewrite Nat.add_0_r.
  - destruct Hs as [Hlt Hs]. cbn [fold_left List.length].
    replace (n + S (List.length rest))%nat
      with ((n + 1) + List.length rest)%nat by lia.
    apply (IH _ time); [|exact Hs].
    apply moveend_after_fire with (due := (prev + 300)%nat); [exact Ha|].
    unfold fires_before. destruct timer_first.
    + apply Nat.leb_le. lia.
    + apply Nat.ltb_lt. lia.
Qed.

Lemma in_order_lower_bound (first : nat) (rest : list nat) :
  in_order (first :: rest) -> Forall (fun t => (first <= t)%nat) rest.
Proof.
  revert first. induction rest as [|t rest IH]; intros first H; [constructor|].
  destruct H as [Hle H]. constructor; [exact Hle|].
  eapply Forall_impl; [|apply (IH t H)]. cbv beta. intros; lia.
Qed.

Lemma within_window_gaps (first : nat) (rest : list nat) :
  within_window (first :: rest) -> gaps_within first rest.
Proof.
  intros [Hord Hwin].
  assert (Hgen : forall prev, (first <= prev)%nat ->
                   Forall (fun t => (t < first + 300)%nat) rest ->
                   in_order (prev :: rest) -> gaps_within prev rest).
  { clear. induction rest as [|t rest IH]; intros prev Hp Hw Ho; [exact I|].
    inversion Hw as [|? ? Ht Hw']; subst. destruct Ho as [Hle Ho].
    split; [lia|]. apply IH; [lia|exact Hw'|exact Ho]. }
  apply Hgen; [lia|exact Hwin|exact Hord].
Qed.

Lemma moveend_rearms (timer_first : bool) (t : Timers) (due n time : nat) :
  armed t due n ->
  exists n', armed (moveend_at timer_first t time) (time + 300) n'.
Proof.
  intros Ha. destruct (fires_before timer_first due time) eqn:Hf.
  - exists (n + 1)%nat. now apply moveend_after_fire with (due := due).
  - exists n. now apply moveend_cancels with (due := due).
Qed.

Lemma last_default (l : list nat) (x d d' : nat) :
  last (x :: l) d = last (x :: l) d'.
Proof.
  revert x. induction l as [|y l IH]; intros x; [reflexivity|].
  change (last (y :: l) d = last (y :: l) d'). apply IH.
Qed.

Lemma last_after_cons (l : list nat) (x d : nat) :
  last (x :: l) d = last l x.
Proof.
  destruct l as [|y l]; [reflexivity|].
  change (last (y :: l) d = last (y :: l) x). apply last_default.
Qed.

Lemma moveends_rearm (timer_first : bool) (rest : list nat)
  (t : Timers) (prev n : nat) :
  armed t (prev + 300) n ->
  exists n',
    armed (fold_left (moveend_at timer_first) rest t) (last rest prev + 300) n'.
Proof.
  revert t prev n. induction rest as [|time rest IH]; intros t prev n Ha.
  - now exists n.
  - cbn [fold_left].
    destruct (moveend_rearms timer_first time Ha) as [n' Ha'].
    destruct (IH _ time n' Ha') as [n'' Hr]. exists n''.
    now rewrite last_after_cons.
Qed.

(* ================================================================= *)
(** * The refresh scheduler: claims *)

(** C9.  Whichever of a timer and an event that fall on the same
    millisecond is served first: a burst of [moveend] events (at least one)
    that all arrive less than 300 ms after the first starts exactly one
    fetch cycle; events that each arrive more than 300 ms after the one
    before start as many fetch cycles as there are events; and after every
    event exactly one timer is set, due 300 ms after that event, the
    timer of the event before having been cleared if it had not fired. *)
Theorem debounce_fetch_count (timer_first : bool) (times : list nat) :
  (within_window times ->
   fetches (run_moveends timer_first times) = 1%nat) /\
  (spaced_beyond_window times ->
   fetches (run_moveends timer_first times) = List.length times) /\
  (forall first rest,
      times = first :: rest ->
      exists n,
        armed (fold_left (moveend_at timer_first) times timers_start)
              (last rest first + 300) n).
Proof.
  unfold run_moveends. destruct times as [|first rest].
  - split; [intros []|]. split; [reflexivity|discriminate].
  - cbn [fold_left]. split; [|split].
    + intros Hw. apply within_window_gaps in Hw.
      destruct (@burst_keeps_one_timer timer_first rest _ first 0%nat
                  (moveend_first timer_first first) Hw) as [due Ha].
      now rewrite (settle_armed Ha).
    + intros Hs.
      destruct (@spaced_fires_each timer_first rest _ first 0%nat
                  (moveend_first timer_first first) Hs) as [due Ha].
      rewrite (settle_armed Ha). cbn [List.length]. lia.
    + intros first' rest' [= <- <-].
      apply (@moveends_rearm timer_first rest _ first 0%nat).
      apply moveend_first.
Qed.

Lemma debounce_fetch_count_witness :
  fetches (run_moveends true [0; 100; 250; 299]%nat) = 1%nat /\
  fetches (run_moveends false [0; 301; 700; 1001]%nat) = 4%nat.
Proof.
  split.
  - apply (proj1 (debounce_fetch_count true [0; 100; 250; 299]%nat)).
    split; [cbn; lia|]. repeat constructor; lia.
  - apply (proj1 (proj2 (debounce_fetch_count false [0; 301; 700; 1001]%nat))).
    cbn. lia.
Defined.

(* ================================================================= *)
(** * Worked examples *)

Ltac parses_as l :=
  unfold StringToNumber;
  match goal with
  | |- num_of_literal (parse_numeric ?s) = _ =>
      replace (parse_numeric s) with l by reflexivity
  end;
  cbn [num_of_literal].

Example Number_of_decimal_text : Number (VStr "12.9") = Fin 12.9.
Proof.
  cbn [Number]. parses_as (LitValue 129 (-1)). f_equal.
  simpl. lra.
Qed.

Example Number_of_padded_text : Number (VStr "  42 ") = Fin 42.
Proof.
  cbn [Number]. parses_as (LitValue 42 0). f_equal. simpl. lra.
Qed.

Example Number_of_exponent_text : Number (VStr "-1.5e3") = Fin (-1500).
Proof.
  cbn [Number]. parses_as (LitValue (-15) 2). f_equal.
  simpl. lra.
Qed.

Example Number_of_hex_text : Number (VStr "0x1F") = Fin 31.
Proof.
  cbn [Number]. parses_as (LitValue 31 0). f_equal. simpl. lra.
Qed.

Example Number_of_empty_text : Number (VStr "") = Fin 0.
Proof.
  cbn [Number]. parses_as (LitValue 0 0). f_equal. simpl. lra.
Qed.

Example Number_of_Infinity_text : Number (VStr "-Infinity") = NInf.
Proof. reflexivity. Qed.

Example Number_of_x : Number (VStr "x") = NaN.
Proof. reflexivity. Qed.

Example Number_of_unit_suffix : Number (VStr "12px") = NaN.
Proof. reflexivity. Qed.

Example Number_of_lone_point : Number (VStr ".") = NaN.
Proof. reflexivity. Qed.

Example Number_of_signed_hex : Number (VStr "-0x1F") = NaN.
Proof. reflexivity. Qed.

Example Number_of_one_element_array :
  Number (VArr [VStr "7"]) = Fin 7 /\ Number (VArr [VNum (Fin 1); VNum (Fin 2)]) = NaN.
Proof.
  split; [|reflexivity].
  cbn [Number]. parses_as (LitValue 7 0). f_equal. simpl. lra.
Qed.

Lemma log10_10 : log10 10 = 1.
Proof. unfold log10. pose proof ln_10_pos. now field_simplify; [|lra]. Qed.

(** A point of score 0.25 seen 9 times: base 0.75, boost 0.45 + 0.32, so
    intensity 0.75 * 0.77 * 2 = 1.155. *)
Example pointToHeatEntry_scored :
  exists e, pointToHeatEntry sample_scored = Ok (Some e) /\
            lat e = Fin 13.1301 /\ lng e = Fin 77.5702 /\
            intensity e = Fin 1.155 /\
            score (meta e) = Some (Fin 0.25) /\ samples (meta e) = Fin 9 /\
            confidence (meta e) = VNum (Fin 0.8).
Proof.
  rewrite pointToHeatEntry_total.
  replace (accepted sample_scored) with true by reflexivity.
  eexists. split; [reflexivity|]. cbn [lat lng intensity meta score samples confidence].
  repeat split.
  - unfold row_weight.
    replace (row_score sample_scored) with (Some (Fin 0.25)) by reflexivity.
    replace (row_samples sample_scored) with (Fin 9) by reflexivity.
    unfold point_intensity, MAX_INTENSITY_CLAMP, VISUAL_AMPLIFIER.
    cbn [Math_max Math_min num_add num_sub num_neg num_mul].
    rewrite (Rmax_right 1 9) by lra.
    cbn [Math_log10]. rewrite by_sign_pos by lra.
    replace (9 + 1) with 10 by lra. rewrite log10_10.
    cbn [Math_max Math_min num_add num_mul]. f_equal.
    rewrite (Rmin_right 1) by lra. rewrite (Rmax_right 0) by lra.
    rewrite (Rmin_right 2.0) by lra. rewrite Rmin_right by lra.
    rewrite Rmax_right by lra. lra.
  - replace (row_samples sample_scored) with (Fin 9) by reflexivity.
    cbn [Math_max]. f_equal. apply Rmax_right. lra.
Qed.

(** A row without coordinates, a row that is a number, and [null] are
    rejected by the scorer; the aggregator throws on [null]. *)
Example rejected_rows :
  pointToHeatEntry (VObj [("score", VNum (Fin 0.5))]) = Ok None /\
  pointToHeatEntry (VNum (Fin 5)) = Ok None /\
  pointToHeatEntry VNull = Ok None /\
  aggregateByGrid [VNull] AGG_CELL_SIZE_DEG = Throw (TypeError "lat").
Proof.
  repeat split; try reflexivity.
  rewrite pointToHeatEntry_total. reflexivity.
Qed.

(** A coordinate held as [null] under its last alias converts to 0, so the
    row is accepted at that coordinate; under an earlier alias [null] is
    passed over by [??]. *)
Example null_under_last_alias :
  (exists e, pointToHeatEntry
               (VObj [("lat_deg", VNull); ("lng", VNum (Fin 12.9))]) = Ok (Some e) /\
             lat e = Fin 0 /\ lng e = Fin 12.9) /\
  pointToHeatEntry (VObj [("lat", VNull); ("lng", VNum (Fin 12.9))]) = Ok None.
Proof.
  split.
  - rewrite pointToHeatEntry_total. eexists. repeat split.
  - rewrite pointToHeatEntry_total. reflexivity.
Qed.

(** ** Two rows in one cell, and the order of the emitted array *)

Lemma Int_part_eq (r : R) (z : Z) : IZR z <= r < IZR z + 1 -> Int_part r = z.
Proof. intros H. symmetry. apply Int_part_spec. lra. Qed.

Lemma Math_round_div (x c : R) (z : Z) :
  c <> 0 -> IZR z <= x / c + / 2 < IZR z + 1 ->
  Math_round (Fin x / Fin c) = Fin (IZR z).
Proof.
  intros Hc Hz. cbn [num_div]. destruct (Req_dec_T c 0); [contradiction|].
  cbn [Math_round]. now rewrite (Int_part_eq _ Hz).
Qed.

Lemma toFixed6_small (x : R) (n : Z) :
  0 <= x < 10 ^ 21 -> IZR n <= x * 10 ^ 6 + / 2 < IZR n + 1 ->
  toFixed6 (Fin x) = TxDigits false n.
Proof.
  intros Hx Hn. unfold toFixed6. rewrite Rabs_right by lra.
  destruct (Rlt_dec x 0); [lra|]. destruct (Rle_dec (10 ^ 21) x); [lra|].
  now rewrite (Int_part_eq _ Hn).
Qed.

Lemma row_key_cell (r : jsval) (x y : R) (a b n m : Z) :
  row_lat r = Fin x -> row_lng r = Fin y ->
  IZR a <= x / 0.0015 + / 2 < IZR a + 1 ->
  IZR b <= y / 0.0015 + / 2 < IZR b + 1 ->
  0 <= IZR a * 0.0015 < 10 ^ 21 -> 0 <= IZR b * 0.0015 < 10 ^ 21 ->
  IZR n <= IZR a * 0.0015 * 10 ^ 6 + / 2 < IZR n + 1 ->
  IZR m <= IZR b * 0.0015 * 10 ^ 6 + / 2 < IZR m + 1 ->
  row_key AGG_CELL_SIZE_DEG r = (TxDigits false n, TxDigits false m).
Proof.
  intros Hx Hy Ha Hb Hra Hrb Hn Hm. unfold row_key, AGG_CELL_SIZE_DEG.
  rewrite Hx, Hy.
  rewrite (@Math_round_div x 0.0015 a), (@Math_round_div y 0.0015 b)
    by (assumption || lra).
  cbn [num_mul]. f_equal; now apply toFixed6_small.
Qed.

Lemma row_key_sample_scored :
  row_key AGG_CELL_SIZE_DEG sample_scored =
  (TxDigits false 13129500, TxDigits false 77569500).
Proof.
  apply row_key_cell with (x := 13.1301) (y := 77.5702) (a := 8753%Z) (b := 51713%Z);
    try reflexivity; lra.
Qed.

Lemma row_key_sample_neighbour :
  row_key AGG_CELL_SIZE_DEG sample_neighbour =
  (TxDigits false 13129500, TxDigits false 77569500).
Proof.
  apply row_key_cell with (x := 13.1299) (y := 77.5700) (a := 8753%Z) (b := 51713%Z);
    try reflexivity; lra.
Qed.

Lemma row_key_sample_far :
  row_key AGG_CELL_SIZE_DEG sample_far =
  (TxDigits false 13200000, TxDigits false 77599500).
Proof.
  apply row_key_cell with (x := 13.2) (y := 77.6) (a := 8800%Z) (b := 51733%Z);
    try reflexivity; lra.
Qed.

Lemma point_intensity_half_nine : point_intensity (Some (Fin 0.5)) (Fin 9) = Fin 0.77.
Proof.
  unfold point_intensity, MAX_INTENSITY_CLAMP, VISUAL_AMPLIFIER.
  cbn [Math_max Math_min num_add num_sub num_neg num_mul].
  rewrite (Rmax_right 1 9) by lra.
  cbn [Math_log10]. rewrite by_sign_pos by lra.
  replace (9 + 1) with 10 by lra. rewrite log10_10.
  cbn [Math_max Math_min num_add num_mul]. f_equal.
  rewrite (Rmin_right 1) by lra. rewrite (Rmax_right 0) by lra.
  rewrite (Rmin_right 2.0) by lra. rewrite Rmin_right by lra.
  rewrite Rmax_right by lra. lra.
Qed.

Lemma row_weight_sample_scored : row_weight sample_scored = Fin 1.155.
Proof.
  destruct pointToHeatEntry_scored as (e & He & _ & _ & Hi & _).
  rewrite pointToHeatEntry_total in He.
  replace (accepted sample_scored) with true in He by reflexivity.
  injection He as <-. exact Hi.
Qed.

Lemma row_weight_sample_neighbour : row_weight sample_neighbour = Fin 0.77.
Proof. apply point_intensity_half_nine. Qed.

Lemma row_weight_sample_far : row_weight sample_far = Fin 0.77.
Proof. apply point_intensity_half_nine. Qed.

Ltac run_rows :=
  rewrite aggregate_rows_ok by (repeat constructor);
  cbn [fold_left bind]; unfold accumulate_row;
  repeat match goal with
         | |- context [accepted ?r] =>
             replace (accepted r) with true by reflexivity
         end;
  unfold accumulate, current_cell;
  rewrite ?row_key_sample_scored, ?row_key_sample_neighbour, ?row_key_sample_far;
  rewrite ?row_weight_sample_scored, ?row_weight_sample_neighbour,
    ?row_weight_sample_far;
  cbn [Map_get Map_set];
  repeat match goal with
         | |- context [cell_key_eq_dec ?a ?b] =>
             destruct (cell_key_eq_dec a b); [try discriminate|try congruence]
         end;
  cbn [Map_get Map_set map snd].

Ltac finite_quotient :=
  cbn [num_div]; 
  match goal with
  | |- context [Req_dec_T ?w 0] => destruct (Req_dec_T w 0); [exfalso; lra|]
  end.

(** Two rows of weights 1.155 and 0.77 in one cell: the cell's intensity is
    their sum 1.925, its centroid the weighted mean (13.13002, 77.57012) and
    not the mean of the coordinates (13.13, 77.5701). *)
Example two_rows_one_cell :
  aggregateByGrid [sample_scored; sample_neighbour] AGG_CELL_SIZE_DEG =
  Ok [{| a_lat := Fin 13.13002; a_lng := Fin 77.57012;
         a_intensity := Fin 1.925; a_count := 2 |}].
Proof.
  unfold aggregateByGrid. run_rows.
  unfold emit_cell, add_point, zero_cell, MAX_INTENSITY_CLAMP.
  cbn [latSum lngSum weightSum count].
  replace (row_lat sample_scored) with (Fin 13.1301) by reflexivity.
  replace (row_lng sample_scored) with (Fin 77.5702) by reflexivity.
  replace (row_lat sample_neighbour) with (Fin 13.1299) by reflexivity.
  replace (row_lng sample_neighbour) with (Fin 77.5700) by reflexivity.
  cbn [num_add num_mul Math_min Nat.add].
  do 2 f_equal. cbn [num_div].
  destruct (Req_dec_T (0 + 1.155 + 0.77) 0); [exfalso; lra|].
  f_equal; f_equal; try (rewrite Rmin_right by lra); lra.
Qed.

(** Two rows in different cells: the cells are emitted in the order in
    which their keys first occur in the input, so that exchanging the rows
    exchanges the two elements of the array. *)
Example emitted_order_follows_input :
  let near := {| a_lat := Fin 13.1301; a_lng := Fin 77.5702;
                 a_intensity := Fin 1.155; a_count := 1 |} in
  let far := {| a_lat := Fin 13.2; a_lng := Fin 77.6;
                a_intensity := Fin 0.77; a_count := 1 |} in
  aggregateByGrid [sample_scored; sample_far] AGG_CELL_SIZE_DEG = Ok [near; far] /\
  aggregateByGrid [sample_far; sample_scored] AGG_CELL_SIZE_DEG = Ok [far; near].
Proof.
  cbv zeta. unfold aggregateByGrid.
  split; run_rows;
    unfold emit_cell, add_point, zero_cell, MAX_INTENSITY_CLAMP;
    cbn [latSum lngSum weightSum count];
    replace (row_lat sample_scored) with (Fin 13.1301) by reflexivity;
    replace (row_lng sample_scored) with (Fin 77.5702) by reflexivity;
    replace (row_lat sample_far) with (Fin 13.2) by reflexivity;
    replace (row_lng sample_far) with (Fin 77.6) by reflexivity;
    cbn [num_add num_mul Math_min Nat.add num_div];
    destruct (Req_dec_T (0 + 1.155) 0); try (exfalso; lra);
    destruct (Req_dec_T (0 + 0.77) 0); try (exfalso; lra);
    repeat f_equal; try (rewrite Rmin_right by lra); try lra; field.
Qed.

(** ** Refresh cycles *)

(** A response that holds a [null] row: the point set is replaced, then the
    summary line throws, and the cycle ends with the error. *)
Example cycle_with_null_row :
  let out := fetchAndRender dom_full (VStr "night") (VNum (Fin 1))
               (answers (RArray [VNull])) VUndefined VUndefined page_start in
  snd out = Throw (TypeError "score") /\
  lastFetchedPoints (fst out) = [VNull] /\
  formFeedback (fst out) = Some (FailedToLoad (TypeError "score")) /\
  heatLayer (fst out) = None.
Proof. cbv zeta. repeat split. Qed.

(** A response without a body: reading [data.points] throws before the
    point set is written. *)
Example cycle_without_body :
  let out := fetchAndRender dom_full (VStr "night") (VNum (Fin 1))
               (answers RNullish) VUndefined VUndefined page_start in
  snd out = Throw (TypeError "points") /\
  lastFetchedPoints (fst out) = sample_rows.
Proof. cbv zeta. repeat split. Qed.

(** A response [{ points: [row] }] with one scored row: the cycle returns
    the array, the heat layer holds the triple of the row, the markers are
    rebuilt and hidden, and the summary shows one point of average 0.25. *)
Example cycle_with_one_row :
  let out := fetchAndRender dom_full (VStr "night") (VNum (Fin 1))
               (answers (RObject (Some [sample_scored]) None))
               (VStr "day") VUndefined page_start in
  snd out = Ok [sample_scored] /\
  lastFetchedPoints (fst out) = [sample_scored] /\
  sarthi_heatmap_params (fst out) = (VStr "day", VNum (Fin 1)) /\
  heatLayer (fst out) = Some [(Fin 13.1301, Fin 77.5702, Fin 1.155)] /\
  markersLayer (fst out) =
    [{| m_kind := CompactMarker; m_lat := Fin 13.1301; m_lng := Fin 77.5702;
        m_point := sample_scored |}] /\
  markersLayerOnMap (fst out) = false /\
  formFeedback (fst out) = Some (PointsLoaded 1 (Some (Fin 0.25))).
Proof.
  cbv zeta. repeat split.
  - match goal with
    | |- heatLayer ?s = _ =>
        change (heatLayer s)
          with (Some [(row_lat sample_scored, row_lng sample_scored,
                       row_weight sample_scored)])
    end.
    now rewrite row_weight_sample_scored.
  - match goal with
    | |- formFeedback ?s = _ =>
        change (formFeedback s)
          with (Some (PointsLoaded 1 (Some (average_score [sample_scored]))))
    end.
    do 3 f_equal. unfold average_score. cbn [fold_left List.length].
    replace (Number (js_or (prop sample_scored "score") (VNum (Fin 0))))
      with (Fin 0.25).
    + cbn [num_add num_div INR]. destruct (Req_dec_T 1 0); [lra|]. f_equal. lra.
    + unfold js_or.
      replace (prop sample_scored "score") with (VNum (Fin 0.25)) by reflexivity.
      cbn [truthy]. destruct (Req_dec_T 0.25 0); [lra|]. reflexivity.
Qed.

(* ================================================================= *)
(** * Conversions that throw: the strict functions *)

Lemma ToNumber_ok (v : jsval) :
  conversion_throws v = false -> ToNumber v = Ok (Number v).
Proof. intros H. unfold ToNumber. now rewrite H. Qed.

Lemma ToNumber_throw (v : jsval) :
  conversion_throws v = true -> ToNumber v = Throw conversion_error.
Proof. intros H. unfold ToNumber. now rewrite H. Qed.

Lemma conversion_throws_nullish (v : jsval) :
  nullish v = true -> conversion_throws v = false.
Proof. destruct v; try discriminate; reflexivity. Qed.

Lemma conversion_throws_coalesce (v : jsval) (n : num) :
  conversion_throws (v ?? VNum n) = conversion_throws v.
Proof.
  unfold coalesce. destruct (nullish v) eqn:Hn; [|reflexivity].
  now rewrite (conversion_throws_nullish _ Hn).
Qed.

(** The strict loop body of the aggregator is the one above on a row that
    does not throw. *)
Lemma strict_aggregate_row (c : num) (cells : CellMap) (r : jsval) :
  nullish r = false ->
  Strict.aggregate_row c cells r =
  if row_throws r then Throw conversion_error
  else Ok (accumulate_row c cells r).
Proof.
  intros Hr. unfold Strict.aggregate_row, row_throws, coords_throw.
  rewrite !read_first_ok, !get_ok by exact Hr. cbn [bind].
  unfold ToNumber at 1.
  destruct (conversion_throws (first_prop r ["lat"; "latitude"; "lat_deg"])) eqn:Hla;
    [reflexivity|]. cbn [bind orb].
  unfold ToNumber at 1.
  destruct (conversion_throws (first_prop r ["lng"; "longitude"; "lon"; "lng_deg"]))
    eqn:Hlo; [reflexivity|]. cbn [bind orb].
  unfold accumulate_row, accepted, row_lat, row_lng.
  destruct (Number_isFinite (Number (first_prop r ["lat"; "latitude"; "lat_deg"])));
    [|reflexivity].
  destruct (Number_isFinite
              (Number (first_prop r ["lng"; "longitude"; "lon"; "lng_deg"])));
    [|reflexivity].
  cbn [negb orb andb].
  assert (Hscore :
    (if nullish (prop r "score") then Ok None
     else s <- ToNumber (prop r "score") ;; Ok (Some s)) =
    if conversion_throws (prop r "score") then Throw conversion_error
    else Ok (row_score r)).
  { unfold row_score, ToNumber. destruct (nullish (prop r "score")) eqn:Hn.
    - now rewrite (conversion_throws_nullish _ Hn).
    - destruct (conversion_throws (prop r "score")); reflexivity. }
  rewrite Hscore.
  destruct (conversion_throws (prop r "score")); [reflexivity|]. cbn [bind orb].
  unfold ToNumber. rewrite conversion_throws_coalesce.
  destruct (conversion_throws (first_prop r ["samples"; "count"]));
    [reflexivity|]. cbn [bind].
  reflexivity.
Qed.


(** The strict scorer is the one above on a row that does not throw. *)
Lemma strict_pointToHeatEntry (p : jsval) :
  Strict.pointToHeatEntry p =
  if negb (truthy p) then Ok None
  else if row_throws p then Throw conversion_error
  else pointToHeatEntry p.
Proof.
  unfold Strict.pointToHeatEntry. destruct (truthy p) eqn:Ht; [|reflexivity].
  cbn [negb]. pose proof (truthy_not_nullish _ Ht) as Hr.
  rewrite pointToHeatEntry_total. unfold row_throws, coords_throw.
  rewrite !read_first_ok, !get_ok by exact Hr. cbn [bind].
  unfold ToNumber at 1.
  destruct (conversion_throws (first_prop p ["lat"; "latitude"; "lat_deg"])) eqn:Hla;
    [reflexivity|]. cbn [bind orb].
  unfold ToNumber at 1.
  destruct (conversion_throws (first_prop p ["lng"; "longitude"; "lon"; "lng_deg"]))
    eqn:Hlo; [reflexivity|]. cbn [bind orb].
  unfold accepted, row_lat, row_lng.
  destruct (Number_isFinite (Number (first_prop p ["lat"; "latitude"; "lat_deg"])));
    [|reflexivity].
  destruct (Number_isFinite
              (Number (first_prop p ["lng"; "longitude"; "lon"; "lng_deg"])));
    [|reflexivity].
  cbn [negb orb andb].
  assert (Hscore :
    (if nullish (prop p "score") then Ok None
     else s <- ToNumber (prop p "score") ;; Ok (Some s)) =
    if conversion_throws (prop p "score") then Throw conversion_error
    else Ok (row_score p)).
  { unfold row_score, ToNumber. destruct (nullish (prop p "score")) eqn:Hn.
    - now rewrite (conversion_throws_nullish _ Hn).
    - destruct (conversion_throws (prop p "score")); reflexivity. }
  rewrite Hscore.
  destruct (conversion_throws (prop p "score")); [reflexivity|]. cbn [bind orb].
  unfold ToNumber. rewrite conversion_throws_coalesce.
  destruct (conversion_throws (first_prop p ["samples"; "count"]));
    [reflexivity|]. cbn [bind].
  reflexivity.
Qed.

(* ================================================================= *)
(** * Cells and keys *)

Lemma members_nonempty (c : num) (k : cell_key) (rows : list jsval) :
  members c k rows <> [] <-> In k (map (row_key c) (filter accepted rows)).
Proof.
  unfold members. split.
  - intros Hne. destruct (filter _ rows) as [|r rest] eqn:Hf; [congruence|].
    assert (Hin : In r (r :: rest)) by now left.
    rewrite <- Hf in Hin. apply filter_In in Hin as [Hin Hr].
    apply andb_prop in Hr as [Ha Hk].
    destruct (cell_key_eq_dec (row_key c r) k) as [<-|]; [|discriminate].
    apply in_map. apply filter_In. now split.
  - intros Hin. apply in_map_iff in Hin as (r & <- & Hr).
    apply filter_In in Hr as [Hin Ha].
    assert (In r (filter (fun r0 => accepted r0 &&
                           if cell_key_eq_dec (row_key c r0) (row_key c r)
                           then true else false) rows)) as H.
    { apply filter_In. split; [exact Hin|]. rewrite Ha.
      destruct (cell_key_eq_dec (row_key c r) (row_key c r)); [reflexivity|congruence]. }
    intros Hnil. rewrite Hnil in H. destruct H.
Qed.

Lemma In_keys_fold (c : num) (rows : list jsval) (k : cell_key) :
  In k (keys (fold_left (accumulate_row c) rows [])) <->
  In k (map (row_key c) (filter accepted rows)).
Proof.
  rewrite <- members_nonempty.
  pose proof (Map_get_fold c rows [] k) as Hg. cbn [Map_get] in Hg.
  rewrite cell_of_members_None in Hg.
  split.
  - intros Hin Hnil. rewrite Hnil in Hg.
    apply Map_get_None in Hg. contradiction.
  - intros Hne. destruct (members c k rows) as [|r rest]; [congruence|].
    apply Map_get_Some_In in Hg. unfold keys.
    change k with (fst (k, {|
      latSum := num_sum (map (fun r0 => row_lat r0 * row_weight r0)%num (r :: rest));
      lngSum := num_sum (map (fun r0 => row_lng r0 * row_weight r0)%num (r :: rest));
      weightSum := num_sum (map row_weight (r :: rest));
      count := List.length (r :: rest) |})).
    now apply in_map.
Qed.



(* ================================================================= *)
(** * The strict aggregator and heat array *)

Lemma strict_aggregate_rows_ok (c : num) (rows : list jsval) (m : CellMap) :
  Forall aggregable rows ->
  Strict.aggregate_rows c rows m = Ok (fold_left (accumulate_row c) rows m).
Proof.
  intros H. revert m. induction H as [|r rest [Hr Ht] _ IH]; intros m;
    cbn [Strict.aggregate_rows fold_left]; [reflexivity|].
  rewrite (strict_aggregate_row c m r Hr), Ht. cbn [bind]. apply IH.
Qed.

Lemma falsy_not_accepted (r : jsval) : truthy r = false -> accepted r = false.
Proof.
  intros Ht. destruct (accepted r) eqn:Ha; [|reflexivity].
  apply accepted_truthy in Ha. congruence.
Qed.

(** The strict heat-array loop throws exactly when a row throws, and
    otherwise pushes the triples of the accepted rows. *)
Lemma strict_push_entries (rows : list jsval) (arr : list triple) :
  Strict.push_entries rows arr =
  if existsb (fun r => truthy r && row_throws r) rows
  then Throw conversion_error
  else Ok (arr ++ map heat_triple (filter accepted rows)).
Proof.
  revert arr. induction rows as [|r rest IH]; intros arr;
    cbn [Strict.push_entries existsb filter map].
  - now rewrite app_nil_r.
  - rewrite strict_pointToHeatEntry. destruct (truthy r) eqn:Ht; cbn [negb andb orb].
    + destruct (row_throws r); [reflexivity|]. cbn [orb].
      rewrite pointToHeatEntry_total. cbn [bind].
      destruct (accepted r); rewrite IH; [|reflexivity].
      cbn [lat lng intensity map]. rewrite <- app_assoc. reflexivity.
    + cbn [bind]. rewrite (falsy_not_accepted _ Ht). apply IH.
Qed.

Lemma strict_buildHeatArrayFromRows (rows : list jsval) :
  Strict.buildHeatArrayFromRows (Some rows) =
  if existsb (fun r => truthy r && row_throws r) rows
  then Throw conversion_error
  else Ok (map heat_triple (filter accepted rows)).
Proof.
  unfold Strict.buildHeatArrayFromRows, USE_AGGREGATION.
  destruct rows as [|r rest]; [reflexivity|].
  cbn [Strict.buildHeatArrayFromRowsWith]. apply strict_push_entries.
Qed.

(** On rows that do not throw the strict functions are the ones above. *)
Lemma aggregable_is_object (rows : list jsval) :
  Forall aggregable rows -> Forall is_object rows.
Proof. apply Forall_impl. now intros r [Hr _]. Qed.

Lemma strict_aggregateByGrid_ok (rows : list jsval) (c : num) :
  Forall aggregable rows ->
  Strict.aggregateByGrid rows c = aggregateByGrid rows c.
Proof.
  intros H. unfold Strict.aggregateByGrid, aggregateByGrid.
  rewrite strict_aggregate_rows_ok by exact H.
  rewrite aggregate_rows_ok by now apply aggregable_is_object.
  reflexivity.
Qed.

Lemma strict_pointToHeatEntry_ok (r : jsval) :
  row_throws r = false -> Strict.pointToHeatEntry r = pointToHeatEntry r.
Proof.
  intros Ht. rewrite strict_pointToHeatEntry, Ht.
  destruct (truthy r) eqn:Htr; [reflexivity|]. cbn [negb].
  rewrite pointToHeatEntry_total. now rewrite (falsy_not_accepted _ Htr).
Qed.

Lemma aggregable_never_throws (rows : list jsval) :
  Forall aggregable rows ->
  existsb (fun r => truthy r && row_throws r) rows = false.
Proof.
  intros H. induction H as [|r rest [_ Ht] _ IH]; [reflexivity|].
  cbn [existsb]. rewrite Ht, IH. now rewrite andb_false_r.
Qed.

Lemma cell_count_fold (c : num) (rows : list jsval) (k : cell_key) :
  cell_count (fold_left (accumulate_row c) rows []) k =
  List.length (members c k rows).
Proof.
  unfold cell_count. rewrite Map_get_fold. cbn [Map_get].
  rewrite cell_of_members_None. destruct (members c k rows); reflexivity.
Qed.

Lemma members_app (c : num) (k : cell_key) (l1 l2 : list jsval) :
  members c k (l1 ++ l2) = members c k l1 ++ members c k l2.
Proof. unfold members. apply filter_app. Qed.

Lemma filter_Permutation {A : Type} (f : A -> bool) (l l' : list A) :
  Permutation l l' -> Permutation (filter f l) (filter f l').
Proof.
  induction 1 as [|x l l' _ IH|x y l|l l' l'' _ IH1 _ IH2]; cbn [filter].
  - constructor.
  - destruct (f x); [now constructor|assumption].
  - destruct (f x), (f y); try apply Permutation_refl. apply perm_swap.
  - eapply Permutation_trans; eassumption.
Qed.

Lemma aggregable_Permutation (l l' : list jsval) :
  Permutation l l' -> Forall aggregable l -> Forall aggregable l'.
Proof. intros Hp H. now rewrite <- Hp. Qed.

(** C5 (as amended).  What does not depend on the order of the input, and
    what can be merged.  For rows the aggregator handles without throwing:
    permuting the input permutes the keys of the cell map, leaves to every
    cell the same rows (as a collection) and the same count, leaves a cell
    exactly as it is when its own rows keep their order among themselves,
    and permutes the counts of the emitted cells; and aggregating
    [l1 ++ l2] in one pass gives every cell the rows it gets from [l1]
    followed by those it gets from [l2], a count that is the sum of the two
    counts, a key exactly when one of the two runs has it, and the very
    cell of one run wherever the other run has no row for that key.  The
    sums of a cell are added in the order of its rows; nothing is said
    here about sums added in different orders. *)
Theorem aggregation_cells_order_independent (c : num) :
  (forall l l' : list jsval,
      Forall aggregable l -> Permutation l l' ->
      exists m m',
        Strict.aggregate_rows c l [] = Ok m /\
        Strict.aggregate_rows c l' [] = Ok m' /\
        Strict.aggregateByGrid l c = Ok (map (fun kv => emit_cell (snd kv)) m) /\
        Strict.aggregateByGrid l' c = Ok (map (fun kv => emit_cell (snd kv)) m') /\
        Permutation (keys m) (keys m') /\
        Permutation (emitted_counts m) (emitted_counts m') /\
        forall k,
          Permutation (members c k l) (members c k l') /\
          cell_count m k = cell_count m' k /\
          (members c k l = members c k l' -> Map_get m k = Map_get m' k)) /\
  (forall l1 l2 : list jsval,
      Forall aggregable (l1 ++ l2) ->
      exists m1 m2 m,
        Strict.aggregate_rows c l1 [] = Ok m1 /\
        Strict.aggregate_rows c l2 [] = Ok m2 /\
        Strict.aggregate_rows c (l1 ++ l2) [] = Ok m /\
        forall k,
          members c k (l1 ++ l2) = members c k l1 ++ members c k l2 /\
          cell_count m k = (cell_count m1 k + cell_count m2 k)%nat /\
          (In k (keys m) <-> In k (keys m1) \/ In k (keys m2)) /\
          (members c k l2 = [] -> Map_get m k = Map_get m1 k) /\
          (members c k l1 = [] -> Map_get m k = Map_get m2 k)).
Proof.
  split.
  - intros l l' Hl Hp. pose proof (aggregable_Permutation Hp Hl) as Hl'.
    exists (fold_left (accumulate_row c) l []), (fold_left (accumulate_row c) l' []).
    unfold Strict.aggregateByGrid.
    rewrite !strict_aggregate_rows_ok by assumption. cbn [bind].
    repeat (split; [reflexivity|]). split; [|split].
    + apply NoDup_Permutation.
      * apply NoDup_keys_fold. constructor.
      * apply NoDup_keys_fold. constructor.
      * intros k. rewrite !In_keys_fold.
        split; apply Permutation_in; apply Permutation_map;
          apply filter_Permutation; [exact Hp|now apply Permutation_sym].
    + unfold emitted_counts. apply Permutation_map.
      now apply fold_accumulate_Permutation.
    + intros k. split; [now apply members_Permutation|]. split.
      * rewrite !cell_count_fold. apply Permutation_length.
        now apply members_Permutation.
      * intros Heq. rewrite !Map_get_fold. now rewrite Heq.
  - intros l1 l2 Hl. pose proof Hl as Hl12. apply Forall_app in Hl as [Hl1 Hl2].
    exists (fold_left (accumulate_row c) l1 []), (fold_left (accumulate_row c) l2 []),
           (fold_left (accumulate_row c) (l1 ++ l2) []).
    rewrite !strict_aggregate_rows_ok by assumption.
    repeat (split; [reflexivity|]).
    intros k. split; [apply members_app|]. split; [|split; [|split]].
    + rewrite !cell_count_fold, members_app. apply length_app.
    + rewrite !In_keys_fold, filter_app, map_app. apply in_app_iff.
    + intros H2. rewrite !Map_get_fold, members_app, H2. now rewrite app_nil_r.
    + intros H1. rewrite !Map_get_fold, members_app, H1. reflexivity.
Qed.

Lemma aggregation_cells_order_independent_witness :
  exists m m',
    Strict.aggregate_rows AGG_CELL_SIZE_DEG
      [sample_scored; sample_neighbour; sample_far] [] = Ok m /\
    Strict.aggregate_rows AGG_CELL_SIZE_DEG
      [sample_neighbour; sample_scored; sample_far] [] = Ok m' /\
    Strict.aggregateByGrid [sample_scored; sample_neighbour; sample_far]
      AGG_CELL_SIZE_DEG = Ok (map (fun kv => emit_cell (snd kv)) m) /\
    Strict.aggregateByGrid [sample_neighbour; sample_scored; sample_far]
      AGG_CELL_SIZE_DEG = Ok (map (fun kv => emit_cell (snd kv)) m') /\
    Permutation (keys m) (keys m') /\
    Permutation (emitted_counts m) (emitted_counts m') /\
    forall k,
      Permutation
        (members AGG_CELL_SIZE_DEG k [sample_scored; sample_neighbour; sample_far])
        (members AGG_CELL_SIZE_DEG k [sample_neighbour; sample_scored; sample_far]) /\
      cell_count m k = cell_count m' k /\
      (members AGG_CELL_SIZE_DEG k [sample_scored; sample_neighbour; sample_far] =
       members AGG_CELL_SIZE_DEG k [sample_neighbour; sample_scored; sample_far] ->
       Map_get m k = Map_get m' k).
Proof.
  apply (proj1 (aggregation_cells_order_independent AGG_CELL_SIZE_DEG)
           [sample_scored; sample_neighbour; sample_far]
           [sample_neighbour; sample_scored; sample_far]).
  - constructor; [split; reflexivity|].
    constructor; [split; reflexivity|].
    constructor; [split; reflexivity|constructor].
  - apply perm_swap.
Defined.

Section Binary64_facts.

Import Floats.
Local Set Warnings "-inexact-float".

(** C5, as stated, fails: in binary64 the sums of a cell depend on the
    order of its rows, and on how they are split between two runs.  Three
    rows at one place, one of weight 3.6 and two of weight 0.01: added in
    the order A, B, B the cell has latitude 13.130000000000003 and intensity
    3.6199999999999997; added in the order B, B, A, or as the cell of A
    merged with the cell of B, B, it has latitude 13.129999999999999 and
    intensity 3.62. *)
Theorem binary64_sums_depend_on_order :
  Binary64.aggregateByGrid [Binary64.row_A; Binary64.row_B; Binary64.row_B]
    Binary64.AGG_CELL_SIZE_DEG =
  Some [{| Binary64.a_lat := 13.130000000000003%float;
           Binary64.a_lng := 77.57%float;
           Binary64.a_intensity := 3.6199999999999997%float;
           Binary64.a_count := 3 |}] /\
  Binary64.aggregateByGrid [Binary64.row_B; Binary64.row_B; Binary64.row_A]
    Binary64.AGG_CELL_SIZE_DEG =
  Some [{| Binary64.a_lat := 13.129999999999999%float;
           Binary64.a_lng := 77.57000000000001%float;
           Binary64.a_intensity := 3.62%float;
           Binary64.a_count := 3 |}] /\
  (exists m1 m2,
     Binary64.aggregate_rows Binary64.AGG_CELL_SIZE_DEG [Binary64.row_A] [] = Some m1 /\
     Binary64.aggregate_rows Binary64.AGG_CELL_SIZE_DEG
       [Binary64.row_B; Binary64.row_B] [] = Some m2 /\
     map (fun kv => Binary64.emit_cell (snd kv)) (Binary64.merge_cells m1 m2) =
     [{| Binary64.a_lat := 13.129999999999999%float;
         Binary64.a_lng := 77.57000000000001%float;
         Binary64.a_intensity := 3.62%float;
         Binary64.a_count := 3 |}]) /\
  PrimFloat.ltb 13.129999999999999%float 13.130000000000003%float = true /\
  PrimFloat.ltb 77.57%float 77.57000000000001%float = true /\
  PrimFloat.ltb 3.6199999999999997%float 3.62%float = true.
Proof.
  split; [vm_compute; reflexivity|]. split; [vm_compute; reflexivity|].
  split; [do 2 eexists; split; [vm_compute; reflexivity|];
          split; vm_compute; reflexivity|].
  repeat split; vm_compute; reflexivity.
Qed.

End Binary64_facts.

(* ================================================================= *)
(** * Rows that are skipped, rows that throw *)





(** C10 (as amended).  In unaggregated mode (the mode the module is built
    in) [buildHeatArrayFromRows] throws a TypeError exactly when the batch
    holds a row with a converted field whose conversion throws (a
    coordinate, or, once both coordinates are finite, the score or the
    sample count), and returns nothing then.  For every other batch it returns the triples of
    the accepted rows in the order of the rows: a row that does not throw is
    accepted exactly when the scorer returns an entry for it, and its triple
    is that entry's latitude, longitude and intensity; the other rows
    contribute nothing.  An empty or missing input gives the empty array. *)
Theorem buildHeatArray_one_triple_per_accepted_row :
  USE_AGGREGATION = false /\
  (forall rows : list jsval,
      Strict.buildHeatArrayFromRows (Some rows) =
      if existsb (fun r => truthy r && row_throws r) rows
      then Throw conversion_error
      else Ok (map heat_triple (filter accepted rows))) /\
  (forall r : jsval,
      truthy r && row_throws r = false ->
      (accepted r = false /\ Strict.pointToHeatEntry r = Ok None) \/
      exists e, accepted r = true /\ Strict.pointToHeatEntry r = Ok (Some e) /\
                heat_triple r = (lat e, lng e, intensity e)) /\
  Strict.buildHeatArrayFromRows (Some []) = Ok [] /\
  Strict.buildHeatArrayFromRows None = Ok [].
Proof.
  split; [reflexivity|]. split; [|split; [|split; reflexivity]].
  - apply strict_buildHeatArrayFromRows.
  - intros r Hr. rewrite strict_pointToHeatEntry.
    destruct (truthy r) eqn:Ht; cbn [negb andb] in *.
    + rewrite Hr, pointToHeatEntry_total.
      destruct (accepted r); [right|left; split; reflexivity].
      eexists. repeat split.
    + left. split; [now apply falsy_not_accepted|reflexivity].
Qed.

Lemma buildHeatArray_one_triple_per_accepted_row_witness :
  Strict.buildHeatArrayFromRows (Some sample_rows) =
    Ok (map heat_triple (filter accepted sample_rows)) /\
  exists e, accepted sample_scored = true /\
            Strict.pointToHeatEntry sample_scored = Ok (Some e) /\
            heat_triple sample_scored = (lat e, lng e, intensity e).
Proof.
  destruct buildHeatArray_one_triple_per_accepted_row as (_ & Hrows & Hrow & _).
  split.
  - exact (Hrows sample_rows).
  - destruct (Hrow sample_scored eq_refl) as [[Hna _]|He]; [discriminate Hna|exact He].
Defined.

(** C10, as stated, fails on a batch that holds a row whose latitude is an
    object with an own [toString]: it is not a row the scorer accepts, and
    yet it does not contribute nothing: the batch throws, and the triple of
    the accepted row before it is not returned. *)
Theorem buildHeatArray_throws_on_object_latitude :
  accepted sample_scored = true /\
  accepted sample_object_lat = false /\
  Strict.buildHeatArrayFromRows (Some [sample_scored; sample_object_lat]) =
    Throw conversion_error /\
  Strict.buildHeatArrayFromRows (Some [sample_object_lat]) = Throw conversion_error.
Proof.
  repeat split; rewrite strict_buildHeatArrayFromRows; reflexivity.
Qed.

(* ================================================================= *)
(** * Further properties of the scorer *)

Lemma num_le_refl (a : num) : a <> NaN -> num_le a a.
Proof. destruct a; simpl; try tauto. intros _. lra. Qed.

(** The base intensity falls as the score rises. *)
Lemma base_antitone (r1 r2 : num) :
  num_le r1 r2 ->
  exists x1 x2,
    Math_max (Fin 0) (Math_min (Fin 1) (Fin 1.0 - r1)) = Fin x1 /\
    Math_max (Fin 0) (Math_min (Fin 1) (Fin 1.0 - r2)) = Fin x2 /\
    0 <= x2 <= x1 /\ x1 <= 1.
Proof.
  destruct r1 as [| | |y1], r2 as [| | |y2]; simpl; try tauto; intros H;
    (do 2 eexists; split; [reflexivity|split; [reflexivity|minmax]]).
Qed.

Lemma log10_ge_2 (y : R) : log10 2 <= log10 (Rmax 1 y + 1).
Proof. apply log10_increasing; [lra|]. pose proof (Rmax_l 1 y). lra. Qed.

(** The boost rises with the sample count. *)
Lemma boost_monotone (s1 s2 : num) :
  num_le s1 s2 ->
  exists x1 x2,
    Math_min (Fin 2.0)
      (Fin 0.45 + Math_log10 (Math_max (Fin 1) s1 + Fin 1) * Fin 0.32) = Fin x1 /\
    Math_min (Fin 2.0)
      (Fin 0.45 + Math_log10 (Math_max (Fin 1) s2 + Fin 1) * Fin 0.32) = Fin x2 /\
    0.45 < x1 <= x2 /\ x2 <= 2.
Proof.
  intros H.
  assert (H1 : s1 <> NaN) by (destruct s1, s2; simpl in H; try tauto; discriminate).
  assert (H2 : s2 <> NaN) by (destruct s1, s2; simpl in H; try tauto; discriminate).
  destruct (boost_in_range H1) as (x1 & E1 & R1).
  destruct (boost_in_range H2) as (x2 & E2 & R2).
  exists x1, x2. repeat split; try assumption; try lra.
  pose proof log10_2_pos as Hp.
  assert (Hlog : forall y, 0 < Rmax 1 y + 1 /\ log10 2 <= log10 (Rmax 1 y + 1)).
  { intros y. pose proof (Rmax_l 1 y). split; [lra|apply log10_ge_2]. }
  destruct s1 as [| | |y1], s2 as [| | |y2]; simpl in H; try tauto;
    simpl in E1, E2;
    try (destruct (Hlog y1) as [P1 L1]); try (destruct (Hlog y2) as [P2 L2]);
    repeat match goal with
           | E : context [by_sign _ _] |- _ => rewrite by_sign_pos in E by lra
           end;
    simpl in E1, E2; injection E1 as <-; injection E2 as <-;
    try replace (1 + 1) with 2 in * by lra.
  - lra.
  - apply Rmin_l.
  - lra.
  - unfold Rmin; repeat destruct (Rle_dec _ _); lra.
  - apply Rmin_l.
  - assert (log10 (Rmax 1 y1 + 1) <= log10 (Rmax 1 y2 + 1)).
    { apply log10_increasing; [lra|].
      apply Rplus_le_compat_r. apply Rle_max_compat_l. exact H. }
    unfold Rmin; repeat destruct (Rle_dec _ _); lra.
Qed.

Lemma clamp_monotone (x y : R) :
  x <= y ->
  exists u v,
    Math_max (Fin 0.01) (Math_min MAX_INTENSITY_CLAMP (Fin x)) = Fin u /\
    Math_max (Fin 0.01) (Math_min MAX_INTENSITY_CLAMP (Fin y)) = Fin v /\
    u <= v.
Proof.
  intros H. unfold MAX_INTENSITY_CLAMP. simpl.
  do 2 eexists. split; [reflexivity|split; [reflexivity|minmax]].
Qed.

Lemma point_intensity_monotone (r1 r2 s1 s2 : num) :
  num_le r1 r2 -> num_le s1 s2 ->
  exists hot cool,
    point_intensity (Some r1) s2 = Fin hot /\
    point_intensity (Some r2) s1 = Fin cool /\
    cool <= hot.
Proof.
  intros Hr Hs. unfold point_intensity.
  destruct (@base_antitone _ _ Hr) as (b1 & b2 & -> & -> & Hb & Hb1).
  destruct (@boost_monotone _ _ Hs) as (m1 & m2 & -> & -> & Hm & Hm2).
  unfold VISUAL_AMPLIFIER. cbn [num_mul].
  destruct (@clamp_monotone (b2 * m1 * 2.0) (b1 * m2 * 2.0)) as (u & v & Eu & Ev & Huv).
  { apply Rmult_le_compat_r; [lra|].
    apply Rmult_le_compat; lra. }
  exists v, u. now rewrite Eu, Ev.
Qed.

Lemma point_intensity_unscored_monotone (s1 s2 : num) :
  num_le s1 s2 ->
  exists lo hi,
    point_intensity None s1 = Fin lo /\ point_intensity None s2 = Fin hi /\
    lo <= hi.
Proof.
  intros Hs. unfold point_intensity.
  destruct (@boost_monotone _ _ Hs) as (m1 & m2 & -> & -> & Hm & Hm2).
  unfold VISUAL_AMPLIFIER. cbn [num_mul].
  destruct (@clamp_monotone (0.75 * m1 * 2.0) (0.75 * m2 * 2.0)) as (u & v & Eu & Ev & Huv).
  { lra. }
  exists u, v. now rewrite Eu, Ev.
Qed.

(** X1.  Between two accepted rows, the one with the higher score and the
    lower (or equal) sample count never has the higher intensity: the
    intensity falls (weakly) as the score rises and rises (weakly) with the
    sample count.  Scores and counts are any numbers, the infinities
    included. *)
Theorem intensity_monotone (p q : jsval) (sp sq : num) :
  accepted p = true -> accepted q = true ->
  row_score p = Some sp -> row_score q = Some sq ->
  num_le sp sq -> num_le (row_samples q) (row_samples p) ->
  exists ep eq x y,
    pointToHeatEntry p = Ok (Some ep) /\ pointToHeatEntry q = Ok (Some eq) /\
    intensity ep = Fin x /\ intensity eq = Fin y /\ y <= x.
Proof.
  intros Hp Hq Sp Sq Hs Hn. rewrite !pointToHeatEntry_total, Hp, Hq.
  destruct (@point_intensity_monotone _ _ _ _ Hs Hn) as (hot & cool & Eh & Ec & Hle).
  do 2 eexists. exists hot, cool. split; [reflexivity|]. split; [reflexivity|].
  cbn [intensity]. unfold row_weight. rewrite Sp, Sq. repeat split; assumption.
Qed.

Lemma intensity_monotone_witness :
  exists ep eq x y,
    pointToHeatEntry sample_scored = Ok (Some ep) /\
    pointToHeatEntry sample_neighbour = Ok (Some eq) /\
    intensity ep = Fin x /\ intensity eq = Fin y /\ y <= x.
Proof.
  apply (@intensity_monotone sample_scored sample_neighbour (Fin 0.25) (Fin 0.5));
    try reflexivity.
  - simpl. lra.
  - change (9 <= 9). lra.
Defined.

Lemma raw_intensity_range (rawScore : option num) (samples_raw : num) :
  rawScore <> Some NaN -> samples_raw <> NaN ->
  exists x, raw_intensity rawScore samples_raw = Fin x /\ 0 <= x <= 4.
Proof.
  intros Hsc Hsa. unfold raw_intensity.
  destruct (boost_in_range Hsa) as (m & -> & Hm).
  destruct rawScore as [r|].
  - assert (Hr : r <> NaN) by congruence.
    destruct (base_in_unit Hr) as (b & -> & Hb).
    unfold VISUAL_AMPLIFIER. cbn [num_mul]. eexists. split; [reflexivity|]. nra.
  - unfold VISUAL_AMPLIFIER. cbn [num_mul]. eexists. split; [reflexivity|]. lra.
Qed.

(** X2.  The upper clamp never cuts.  For an accepted row whose score and
    sample count are not NaN, the product base * boost * amplifier lies in
    [0, 4], so [Math.min(MAX_INTENSITY_CLAMP, ...)] returns it unchanged and
    the intensity is the larger of 0.01 and that product. *)
Theorem upper_clamp_never_cuts (p : jsval) :
  accepted p = true -> numeric_inputs p ->
  exists e x,
    pointToHeatEntry p = Ok (Some e) /\
    raw_intensity (row_score p) (row_samples p) = Fin x /\
    0 <= x <= 4 /\
    Math_min MAX_INTENSITY_CLAMP (Fin x) = Fin x /\
    intensity e = Fin (Rmax 0.01 x).
Proof.
  intros Ha [Hsc Hsa]. rewrite pointToHeatEntry_total, Ha.
  destruct (raw_intensity_range Hsc Hsa) as (x & Hx & Hr).
  eexists. exists x. split; [reflexivity|]. split; [exact Hx|]. split; [exact Hr|].
  assert (Hmin : Math_min MAX_INTENSITY_CLAMP (Fin x) = Fin x).
  { unfold MAX_INTENSITY_CLAMP. cbn [Math_min]. f_equal. minmax. }
  split; [exact Hmin|].
  cbn [intensity]. unfold row_weight, point_intensity.
  change (Math_max (Fin 0.01)
            (Math_min MAX_INTENSITY_CLAMP
               (raw_intensity (row_score p) (row_samples p))) = Fin (Rmax 0.01 x)).
  rewrite Hx, Hmin. reflexivity.
Qed.

Lemma upper_clamp_never_cuts_witness :
  exists e x,
    pointToHeatEntry sample_scored = Ok (Some e) /\
    raw_intensity (row_score sample_scored) (row_samples sample_scored) = Fin x /\
    0 <= x <= 4 /\
    Math_min MAX_INTENSITY_CLAMP (Fin x) = Fin x /\
    intensity e = Fin (Rmax 0.01 x).
Proof.
  apply (@upper_clamp_never_cuts sample_scored); [reflexivity|].
  split; discriminate.
Defined.

Lemma clamp01_base (r : num) :
  Math_max (Fin 0) (Math_min (Fin 1) (Fin 1.0 - clamp01 r)) =
  Math_max (Fin 0) (Math_min (Fin 1) (Fin 1.0 - r)).
Proof.
  unfold clamp01. destruct r as [| | |x]; simpl; try reflexivity;
    f_equal; minmax.
Qed.

Lemma floor_samples (s : num) :
  Math_max (Fin 1) (Math_max (Fin 1) s) = Math_max (Fin 1) s.
Proof. destruct s as [| | |x]; simpl; try reflexivity; f_equal; minmax. Qed.

(** X3.  Out-of-range inputs are clamped before they are used.  Two accepted
    rows score alike when the score of the second is the score of the first
    clamped into [0, 1] and its sample count is the count of the first raised
    to at least 1: a score below 0 counts as 0, a score above 1 as 1, and a
    sample count of zero or less as one sample. *)
Theorem intensity_of_clamped_inputs (p q : jsval) (r : num) :
  accepted p = true -> accepted q = true ->
  row_score p = Some r -> row_score q = Some (clamp01 r) ->
  row_samples q = Math_max (Fin 1) (row_samples p) ->
  exists ep eq,
    pointToHeatEntry p = Ok (Some ep) /\ pointToHeatEntry q = Ok (Some eq) /\
    intensity eq = intensity ep.
Proof.
  intros Hp Hq Sp Sq Hn. rewrite !pointToHeatEntry_total, Hp, Hq.
  do 2 eexists. split; [reflexivity|]. split; [reflexivity|].
  cbn [intensity]. unfold row_weight, point_intensity.
  rewrite Sp, Sq, Hn, clamp01_base, floor_samples. reflexivity.
Qed.

Lemma intensity_of_clamped_inputs_witness :
  exists ep eq,
    pointToHeatEntry sample_out_of_range = Ok (Some ep) /\
    pointToHeatEntry sample_in_range = Ok (Some eq) /\
    intensity eq = intensity ep.
Proof.
  apply (@intensity_of_clamped_inputs sample_out_of_range sample_in_range (Fin 1.5));
    try reflexivity.
  - change (Some (Fin 1) = Some (Fin (Rmax 0 (Rmin 1 1.5)))).
    do 2 f_equal. unfold Rmax, Rmin. repeat destruct (Rle_dec _ _); lra.
  - change (Fin 1 = Fin (Rmax 1 0)).
    f_equal. unfold Rmax. destruct (Rle_dec _ _); lra.
Defined.

Lemma log10_100000 : log10 100000 = 5.
Proof.
  replace 100000 with (10 ^ 5) by lra. unfold log10.
  rewrite ln_pow by lra. pose proof ln_10_pos. simpl INR. field. lra.
Qed.

Lemma base_of_safe (r : num) :
  num_le (Fin 1) r -> Math_max (Fin 0) (Math_min (Fin 1) (Fin 1.0 - r)) = Fin 0.
Proof.
  destruct r as [| | |x]; simpl; try tauto; intros H; try reflexivity.
  f_equal. minmax.
Qed.

Lemma base_of_unsafe (r : num) :
  num_le r (Fin 0) -> Math_max (Fin 0) (Math_min (Fin 1) (Fin 1.0 - r)) = Fin 1.
Proof.
  destruct r as [| | |x]; simpl; try tauto; intros H; f_equal; minmax.
Qed.

Lemma boost_saturated (s : num) :
  num_le (Fin 99999) s ->
  Math_min (Fin 2.0)
    (Fin 0.45 + Math_log10 (Math_max (Fin 1) s + Fin 1) * Fin 0.32) = Fin 2.0.
Proof.
  destruct s as [| | |y]; simpl; try tauto; intros H.
  - rewrite by_sign_pos by lra. reflexivity.
  - assert (Hm : Rmax 1 y = y) by (apply Rmax_right; lra). rewrite Hm.
    rewrite by_sign_pos by lra.
    assert (5 <= log10 (y + 1)).
    { rewrite <- log10_100000. apply log10_increasing; lra. }
    simpl. f_equal. apply Rmin_left. lra.
Qed.

(** X4.  The two ends of the scale are reached.  An accepted row with a
    score of 1 or more has the floor intensity 0.01 whatever its sample
    count; an accepted row with a score of 0 or less and at least 99999
    samples has the ceiling intensity 4.0. *)
Theorem intensity_extremes (p : jsval) (r : num) :
  accepted p = true -> row_score p = Some r -> row_samples p <> NaN ->
  exists e,
    pointToHeatEntry p = Ok (Some e) /\
    (num_le (Fin 1) r -> intensity e = Fin 0.01) /\
    (num_le r (Fin 0) -> num_le (Fin 99999) (row_samples p) ->
     intensity e = Fin 4.0).
Proof.
  intros Ha Hs Hn. rewrite pointToHeatEntry_total, Ha.
  eexists. split; [reflexivity|]. cbn [intensity].
  unfold row_weight, point_intensity. rewrite Hs. split.
  - intros Hr. rewrite (base_of_safe _ Hr).
    destruct (boost_in_range Hn) as (m & -> & Hm).
    unfold VISUAL_AMPLIFIER, MAX_INTENSITY_CLAMP. simpl. f_equal. minmax.
  - intros Hr Hc. rewrite (base_of_unsafe _ Hr), (boost_saturated _ Hc).
    unfold VISUAL_AMPLIFIER, MAX_INTENSITY_CLAMP. simpl. f_equal. minmax.
Qed.

Lemma intensity_extremes_witness :
  (exists e, pointToHeatEntry sample_safest = Ok (Some e) /\
             intensity e = Fin 0.01) /\
  (exists e, pointToHeatEntry sample_least_safe = Ok (Some e) /\
             intensity e = Fin 4.0).
Proof.
  split.
  - destruct (@intensity_extremes sample_safest (Fin 1) eq_refl eq_refl)
      as (e & He & Hlo & _); [discriminate|].
    exists e. split; [exact He|]. apply Hlo. simpl. lra.
  - destruct (@intensity_extremes sample_least_safe (Fin 0) eq_refl eq_refl)
      as (e & He & _ & Hhi); [discriminate|].
    exists e. split; [exact He|]. apply Hhi.
    + simpl. lra.
    + change (99999 <= 100000). lra.
Defined.

(* ================================================================= *)
(** * The marker colour and the percent text *)

Lemma Int_part_bounds (y : R) (a b : Z) :
  IZR a <= y -> y < IZR b + 1 -> (a <= Int_part y <= b)%Z.
Proof.
  intros Ha Hb. destruct (base_Int_part y) as [H1 H2]. split.
  - assert (IZR a - 1 < IZR (Int_part y)) by lra.
    assert (IZR (a - 1) < IZR (Int_part y)) by (rewrite minus_IZR; lra).
    apply lt_IZR in H0. lia.
  - assert (IZR (Int_part y) < IZR (b + 1)) by (rewrite plus_IZR; lra).
    apply lt_IZR in H. lia.
Qed.

Lemma Int_part_monotone (x y : R) : x <= y -> (Int_part x <= Int_part y)%Z.
Proof.
  intros H. destruct (base_Int_part x) as [H1 _].
  destruct (base_Int_part y) as [_ H2].
  assert (IZR (Int_part x) < IZR (Int_part y + 1)) by (rewrite plus_IZR; lra).
  apply lt_IZR in H0. lia.
Qed.

(** The clamped score of [scoreToColor] is a number of [0, 1] whatever the
    argument is. *)
Lemma color_score (score : jsval) :
  exists s,
    Math_max (Fin 0) (Math_min (Fin 1) (num_or (Number score) (Fin 0))) = Fin s /\
    0 <= s <= 1.
Proof.
  destruct (Number score) as [| | |x]; cbn [num_or].
  1-3: simpl; eexists; (split; [reflexivity|minmax]).
  destruct (Req_dec_T x 0); simpl; (eexists; split; [reflexivity|minmax]).
Qed.

Lemma scoreToColor_of_score (score : jsval) (s : R) :
  Math_max (Fin 0) (Math_min (Fin 1) (num_or (Number score) (Fin 0))) = Fin s ->
  scoreToColor score =
  {| red := Fin (IZR (Int_part (Rmin 255 (Rmax 0 (255 * (1 + - s) * 1.6)) + / 2)));
     green := Fin (IZR (Int_part (Rmin 255 (Rmax 0 (255 * s * 1.2)) + / 2)));
     blue := Fin 40 |}.
Proof. intros H. unfold scoreToColor. rewrite H. reflexivity. Qed.

(** X5.  The colour of any value.  [scoreToColor] throws a TypeError
    exactly when the conversion of its argument to a number throws (an
    object with an own [toString] property, or an array that holds one);
    for every other value (a number, a text, a boolean, null, undefined,
    NaN, an infinity, a plain object) the red and the green channel are
    whole numbers from 0 to 255 and the blue channel is 40. *)
Theorem scoreToColor_channels (score : jsval) :
  (conversion_throws score = true /\
   Strict.scoreToColor score = Throw conversion_error) \/
  (conversion_throws score = false /\
   exists r g : Z,
     Strict.scoreToColor score =
       Ok {| red := Fin (IZR r); green := Fin (IZR g); blue := Fin 40 |} /\
     (0 <= r <= 255)%Z /\ (0 <= g <= 255)%Z).
Proof.
  unfold Strict.scoreToColor, ToNumber.
  destruct (conversion_throws score); [left; split; reflexivity|].
  right. split; [reflexivity|]. cbn [bind].
  destruct (color_score score) as (s & Hs & Hr). rewrite Hs.
  do 2 eexists. split; [reflexivity|].
  split; apply Int_part_bounds; simpl; minmax.
Qed.

(** X6.  Between two finite numeric scores, the higher one never has more
    red and never has less green. *)
Theorem scoreToColor_monotone (a b : R) :
  a <= b ->
  exists r1 g1 r2 g2 : Z,
    red (scoreToColor (VNum (Fin a))) = Fin (IZR r1) /\
    green (scoreToColor (VNum (Fin a))) = Fin (IZR g1) /\
    red (scoreToColor (VNum (Fin b))) = Fin (IZR r2) /\
    green (scoreToColor (VNum (Fin b))) = Fin (IZR g2) /\
    (r2 <= r1)%Z /\ (g1 <= g2)%Z.
Proof.
  intros Hab.
  assert (Hs : forall x,
           Math_max (Fin 0) (Math_min (Fin 1) (num_or (Number (VNum (Fin x))) (Fin 0)))
           = Fin (Rmax 0 (Rmin 1 x))).
  { intros x. cbn [Number num_or]. destruct (Req_dec_T x 0) as [->|]; simpl;
      [f_equal; minmax|reflexivity]. }
  rewrite (scoreToColor_of_score _ (Hs a)), (scoreToColor_of_score _ (Hs b)).
  cbn [red green]. do 4 eexists. repeat (split; [reflexivity|]).
  split; apply Int_part_monotone; apply Rplus_le_compat_r.
  - unfold Rmax, Rmin; repeat destruct (Rle_dec _ _); lra.
  - unfold Rmax, Rmin; repeat destruct (Rle_dec _ _); lra.
Qed.

Lemma scoreToColor_monotone_witness :
  exists r1 g1 r2 g2 : Z,
    red (scoreToColor (VNum (Fin 0.25))) = Fin (IZR r1) /\
    green (scoreToColor (VNum (Fin 0.25))) = Fin (IZR g1) /\
    red (scoreToColor (VNum (Fin 0.5))) = Fin (IZR r2) /\
    green (scoreToColor (VNum (Fin 0.5))) = Fin (IZR g2) /\
    (r2 <= r1)%Z /\ (g1 <= g2)%Z.
Proof. apply (@scoreToColor_monotone 0.25 0.5). lra. Defined.



(* ================================================================= *)
(** * Further properties of the aggregator *)










Lemma sum_ge_each (ws : list num) (w : R) :
  Forall in_clamp ws -> In (Fin w) ws ->
  forall a, exists W, fold_left num_add ws (Fin a) = Fin W /\ a + w <= W.
Proof.
  induction ws as [|h t IH]; intros Hc Hin a; [destruct Hin|].
  inversion Hc as [|? ? (h' & -> & Hh) Ht]; subst.
  cbn [fold_left num_add]. destruct Hin as [Heq|Hin].
  - injection Heq as ->.
    destruct (@sum_of_clamped t (a + w) Ht) as (W & HW & Hle).
    exists W. split; [exact HW|]. pose proof (pos_INR (List.length t)). nra.
  - destruct (IH Ht Hin (a + h')) as (W & HW & Hle).
    exists W. split; [exact HW|]. lra.
Qed.

(** X10.  A cell is never cooler than one of its rows.  For rows none of
    which is null or undefined, none of which throws when its fields are
    converted, and whose scores and sample counts are numbers, every
    emitted cell is the cell of one key: its count is the number of
    accepted rows of that key, its centroid is their intensity-weighted
    mean, its intensity is the sum of their intensities capped at 4, and
    this intensity is at least the intensity the scorer gives to each of
    those rows. *)
Theorem cell_at_least_as_hot_as_members (rows : list jsval) (c : num) :
  Forall aggregable rows ->
  (forall r, In r rows -> accepted r = true -> numeric_inputs r) ->
  exists out,
    Strict.aggregateByGrid rows c = Ok out /\
    Forall (fun a =>
      exists k x,
        let ms := members c k rows in
        let W := num_sum (map row_weight ms) in
        ms <> [] /\
        a_count a = List.length ms /\
        a_lat a = (num_sum (map (fun r => row_lat r * row_weight r) ms) / W)%num /\
        a_lng a = (num_sum (map (fun r => row_lng r * row_weight r) ms) / W)%num /\
        a_intensity a = Math_min MAX_INTENSITY_CLAMP W /\
        a_intensity a = Fin x /\
        forall r, In r ms ->
          exists e w, Strict.pointToHeatEntry r = Ok (Some e) /\
                      intensity e = Fin w /\ w <= x) out.
Proof.
  intros Hagg Hnum. pose proof (aggregable_is_object Hagg) as Hobj.
  destruct (aggregateByGrid_cells c Hobj Hnum) as (out & Hout & Hcells).
  exists out. split; [now rewrite strict_aggregateByGrid_ok|].
  eapply Forall_impl; [|exact Hcells].
  intros a (k & Hne & (W & HW & HWpos) & Hlat & Hlng & Hint & Hcount).
  exists k, (Rmin 4.0 W). cbv zeta.
  split; [exact Hne|]. split; [exact Hcount|]. split; [exact Hlat|].
  split; [exact Hlng|]. split; [exact Hint|].
  split; [rewrite Hint, HW; reflexivity|].
  intros r Hr. destruct (members_incl _ _ _ _ Hr) as [Hin Ha].
  rewrite strict_pointToHeatEntry_ok
    by (rewrite Forall_forall in Hagg; now apply Hagg).
  rewrite pointToHeatEntry_total, Ha.
  assert (Hcl : Forall in_clamp (map row_weight (members c k rows))).
  { apply member_weights_clamped. apply Forall_forall. intros r' Hr'. now apply Hnum. }
  assert (Hrw : in_clamp (row_weight r)).
  { rewrite Forall_forall in Hcl. apply Hcl. now apply in_map. }
  destruct Hrw as (w & Hw & Hwb).
  eexists. exists w. split; [reflexivity|]. split; [exact Hw|].
  assert (Hin' : In (Fin w) (map row_weight (members c k rows))).
  { rewrite <- Hw. now apply in_map. }
  destruct (@sum_ge_each _ _ Hcl Hin' 0) as (W' & HW' & Hle).
  unfold num_sum in HW. rewrite HW' in HW. injection HW as ->.
  apply Rmin_glb; lra.
Qed.

Lemma cell_at_least_as_hot_as_members_witness :
  exists out,
    Strict.aggregateByGrid sample_rows AGG_CELL_SIZE_DEG = Ok out /\
    Forall (fun a =>
      exists k x,
        let ms := members AGG_CELL_SIZE_DEG k sample_rows in
        let W := num_sum (map row_weight ms) in
        ms <> [] /\
        a_count a = List.length ms /\
        a_lat a = (num_sum (map (fun r => row_lat r * row_weight r) ms) / W)%num /\
        a_lng a = (num_sum (map (fun r => row_lng r * row_weight r) ms) / W)%num /\
        a_intensity a = Math_min MAX_INTENSITY_CLAMP W /\
        a_intensity a = Fin x /\
        forall r, In r ms ->
          exists e w, Strict.pointToHeatEntry r = Ok (Some e) /\
                      intensity e = Fin w /\ w <= x) out.
Proof.
  apply (@cell_at_least_as_hot_as_members sample_rows AGG_CELL_SIZE_DEG).
  - repeat constructor.
  - intros r [<-|[<-|[<-|[]]]] Ha; [split; discriminate|split; discriminate|].
    discriminate Ha.
Defined.

Lemma fold_separate_rows (c : num) (rows : list jsval) (m : CellMap) :
  NoDup (keys m ++ map (row_key c) (filter accepted rows)) ->
  fold_left (accumulate_row c) rows m =
  m ++ map (single_entry c) (filter accepted rows).
Proof.
  revert m. induction rows as [|r rest IH]; intros m Hnd;
    cbn [fold_left filter] in Hnd |- *.
  - cbn [map]. now rewrite app_nil_r.
  - unfold accumulate_row at 2. destruct (accepted r) eqn:Ha.
    + cbn [map] in Hnd |- *.
      assert (Hk : Map_get m (row_key c r) = None).
      { apply Map_get_None. apply NoDup_remove_2 in Hnd.
        intros Hin. apply Hnd. apply in_or_app. now left. }
      unfold accumulate, current_cell. rewrite Hk.
      rewrite Map_set_absent by exact Hk.
      rewrite IH.
      * rewrite <- app_assoc. reflexivity.
      * unfold keys in *. rewrite map_app, <- app_assoc. cbn [map app fst].
        exact Hnd.
    + now apply IH.
Qed.

Lemma emit_single_entry (c : num) (r : jsval) :
  accepted r = true -> numeric_inputs r ->
  emit_cell (snd (single_entry c r)) = separate_cell r.
Proof.
  intros Ha [Hsc Hsa]. unfold single_entry, emit_cell, separate_cell.
  cbn [snd add_point zero_cell latSum lngSum weightSum count].
  destruct (point_intensity_in_clamp Hsc Hsa) as (w & Hw & Hwb).
  change (point_intensity (row_score r) (row_samples r)) with (row_weight r) in Hw.
  rewrite Hw. unfold MAX_INTENSITY_CLAMP. cbn [num_add Math_min].
  do 2 f_equal. rewrite Rmin_right by lra. lra.
Qed.

(** X11.  Aggregation when no two accepted rows share a cell.  For rows
    none of which is null or undefined, none of which throws when its
    fields are converted, whose scores and sample counts are numbers and
    whose accepted rows have pairwise different cell keys, the
    aggregator emits one cell for each accepted row, in the order of the
    rows, with count 1 and with exactly the intensity the unaggregated heat
    array has for that row; the coordinates of the cell are computed as
    (0 + lat * w) / (0 + w) from the row's coordinate and intensity w. *)
Theorem aggregation_of_separate_rows (rows : list jsval) :
  Forall aggregable rows ->
  (forall r, In r rows -> accepted r = true -> numeric_inputs r) ->
  NoDup (map (row_key AGG_CELL_SIZE_DEG) (filter accepted rows)) ->
  exists out arr,
    Strict.aggregateByGrid rows AGG_CELL_SIZE_DEG = Ok out /\
    Strict.buildHeatArrayFromRowsWith false (Some rows) = Ok arr /\
    out = map separate_cell (filter accepted rows) /\
    map a_intensity out = map snd arr /\
    Forall (fun a => a_count a = 1%nat) out.
Proof.
  intros Hagg Hnum Hnd. pose proof (aggregable_is_object Hagg) as Hobj.
  exists (map separate_cell (filter accepted rows)),
         (map heat_triple (filter accepted rows)).
  split; [|split; [|split; [reflexivity|split]]].
  - rewrite strict_aggregateByGrid_ok by exact Hagg. unfold aggregateByGrid.
    rewrite (aggregate_rows_ok AGG_CELL_SIZE_DEG [] Hobj). cbn [bind].
    rewrite fold_separate_rows by exact Hnd. cbn [app].
    rewrite map_map. apply f_equal. apply map_ext_in.
    intros r Hr. apply filter_In in Hr as [Hin Ha].
    apply (emit_single_entry AGG_CELL_SIZE_DEG Ha (Hnum r Hin Ha)).
  - change (Strict.buildHeatArrayFromRowsWith false)
      with Strict.buildHeatArrayFromRows.
    rewrite strict_buildHeatArrayFromRows.
    now rewrite aggregable_never_throws.
  - rewrite !map_map. reflexivity.
  - rewrite Forall_map. apply Forall_forall. intros r _. reflexivity.
Qed.

Lemma aggregation_of_separate_rows_witness :
  exists out arr,
    Strict.aggregateByGrid [sample_scored; sample_far] AGG_CELL_SIZE_DEG = Ok out /\
    Strict.buildHeatArrayFromRowsWith false (Some [sample_scored; sample_far]) = Ok arr /\
    out = map separate_cell (filter accepted [sample_scored; sample_far]) /\
    map a_intensity out = map snd arr /\
    Forall (fun a => a_count a = 1%nat) out.
Proof.
  apply (@aggregation_of_separate_rows [sample_scored; sample_far]).
  - repeat constructor.
  - intros r [<-|[<-|[]]] _; split; discriminate.
  - change (filter accepted [sample_scored; sample_far])
      with [sample_scored; sample_far].
    cbn [map]. rewrite row_key_sample_scored, row_key_sample_far.
    constructor; [|constructor; [intros []|constructor]].
    intros [H|[]]. discriminate H.
Defined.




(* ================================================================= *)
(** * Further properties of the CSV export *)

Lemma csv_row_null (p : jsval) :
  nullish p = true -> csv_row p = Throw (TypeError "lat").
Proof. intros H. unfold csv_row, get. now rewrite H. Qed.

Lemma Array_map_csv_row_throws (pts : list jsval) :
  ~ Forall is_object pts ->
  Array_map csv_row pts = Throw (TypeError "lat").
Proof.
  induction pts as [|p rest IH]; intros Hbad.
  - exfalso. apply Hbad. constructor.
  - cbn [Array_map]. destruct (nullish p) eqn:Hp.
    + now rewrite csv_row_null.
    + assert (Hrest : ~ Forall is_object rest).
      { intros H. apply Hbad. constructor; assumption. }
      rewrite (IH Hrest). unfold csv_row. rewrite !get_ok by exact Hp.
      reflexivity.
Qed.

Lemma strict_field_text (NumberToString : num -> string) (v : jsval) :
  Strict.field_text NumberToString v =
  if conversion_throws v then Throw conversion_error
  else Ok (field_text NumberToString v).
Proof. destruct v; reflexivity. Qed.

Lemma strict_Array_join (NumberToString : num -> string) (sep : string)
  (r : list jsval) :
  Strict.Array_join NumberToString sep r =
  if existsb conversion_throws r then Throw conversion_error
  else Ok (Array_join NumberToString sep r).
Proof.
  unfold Strict.Array_join, Array_join.
  assert (H : Array_map (Strict.field_text NumberToString) r =
              if existsb conversion_throws r then Throw conversion_error
              else Ok (map (field_text NumberToString) r)).
  { induction r as [|v rest IH]; [reflexivity|].
    cbn [Array_map existsb map]. rewrite strict_field_text, IH.
    destruct (conversion_throws v); [reflexivity|].
    destruct (existsb conversion_throws rest); reflexivity. }
  rewrite H. destruct (existsb conversion_throws r); reflexivity.
Qed.

Lemma Array_map_csv_row_ok (pts : list jsval) :
  Forall is_object pts -> Array_map csv_row pts = Ok (map csv_fields pts).
Proof.
  induction 1 as [|p rest Hp _ IH]; [reflexivity|].
  cbn [Array_map map]. rewrite IH. unfold csv_row.
  rewrite !get_ok by exact Hp. reflexivity.
Qed.

Lemma conversion_throws_or_text (v : jsval) (t : string) :
  conversion_throws (v ?? VStr t) = conversion_throws v.
Proof.
  unfold coalesce. destruct (nullish v) eqn:Hn; [|reflexivity].
  now rewrite (conversion_throws_nullish _ Hn).
Qed.

Lemma csv_fields_throw (p : jsval) :
  existsb conversion_throws (csv_fields p) = negb (exportable_point p).
Proof.
  unfold csv_fields, exportable_point. cbn [existsb forallb].
  rewrite !conversion_throws_or_text.
  destruct (conversion_throws (prop p "lat")),
           (conversion_throws (prop p "lng")),
           (conversion_throws (prop p "score")),
           (conversion_throws (prop p "samples")),
           (conversion_throws (prop p "confidence")); reflexivity.
Qed.

Lemma csv_fields_text (NumberToString : num -> string) (p : jsval) :
  Array_join NumberToString "," (csv_fields p) = row_text NumberToString p.
Proof.
  unfold Array_join, row_text, csv_fields. cbn [map].
  now rewrite !field_text_coalesce.
Qed.

Lemma strict_csv_lines (NumberToString : num -> string) (pts : list jsval) :
  Array_map (Strict.Array_join NumberToString ",") (map csv_fields pts) =
  if forallb exportable_point pts
  then Ok (map (row_text NumberToString) pts)
  else Throw conversion_error.
Proof.
  induction pts as [|p rest IH]; [reflexivity|].
  cbn [map Array_map forallb]. rewrite strict_Array_join, csv_fields_throw, IH.
  destruct (exportable_point p); cbn [negb andb bind]; [|reflexivity].
  rewrite csv_fields_text. destruct (forallb exportable_point rest); reflexivity.
Qed.

Lemma strict_pointsToCSV (NumberToString : num -> string) (pts : list jsval) :
  Forall is_object pts ->
  Strict.pointsToCSV NumberToString pts =
  if forallb exportable_point pts
  then Ok (String.concat newline
             ("lat,lng,score,samples,confidence"
              :: map (row_text NumberToString) pts))
  else Throw conversion_error.
Proof.
  intros Hobj. unfold Strict.pointsToCSV.
  rewrite (Array_map_csv_row_ok Hobj). cbn [bind Array_map].
  change (Strict.Array_join NumberToString "," headers)
    with (@Ok string "lat,lng,score,samples,confidence").
  cbn [bind]. rewrite strict_csv_lines.
  destruct (forallb exportable_point pts); reflexivity.
Qed.

(** X14.  When the export returns and when it throws.  [pointsToCSV] throws
    a TypeError (from reading [p.lat]) when a point is null or undefined.
    When none is, it throws a TypeError exactly when one of the five
    exported fields of some point holds a value whose conversion to text
    throws, and otherwise returns the header line followed by one line for
    each point, in order; an object with every field missing is exported as
    a line of empty fields. *)
Theorem pointsToCSV_text_or_throw
  (NumberToString : num -> string) (pts : list jsval) :
  (~ Forall is_object pts ->
   Strict.pointsToCSV NumberToString pts = Throw (TypeError "lat")) /\
  (Forall is_object pts ->
   Strict.pointsToCSV NumberToString pts =
   if forallb exportable_point pts
   then Ok (String.concat newline
              ("lat,lng,score,samples,confidence"
               :: map (row_text NumberToString) pts))
   else Throw conversion_error) /\
  row_text NumberToString (VObj []) = ",,,,".
Proof.
  split; [|split].
  - intros Hbad. unfold Strict.pointsToCSV.
    now rewrite Array_map_csv_row_throws.
  - apply strict_pointsToCSV.
  - reflexivity.
Qed.

Lemma pointsToCSV_text_or_throw_witness :
  Strict.pointsToCSV NumberToString_integers [VObj []; VNull] =
    Throw (TypeError "lat") /\
  Strict.pointsToCSV NumberToString_integers [VObj []] =
    Ok (String.concat newline ["lat,lng,score,samples,confidence"; ",,,,"]) /\
  Strict.pointsToCSV NumberToString_integers [sample_object_confidence] =
    Throw conversion_error.
Proof.
  destruct (pointsToCSV_text_or_throw NumberToString_integers [VObj []; VNull])
    as (Hbad & _ & _).
  destruct (pointsToCSV_text_or_throw NumberToString_integers [VObj []])
    as (_ & Hok & _).
  destruct (pointsToCSV_text_or_throw NumberToString_integers
              [sample_object_confidence]) as (_ & Hconv & _).
  split; [|split].
  - apply Hbad. intros H. inversion H as [|? ? _ H']; subst.
    inversion H' as [|? ? Hn _]; subst. discriminate Hn.
  - apply Hok. repeat constructor.
  - apply Hconv. repeat constructor.
Defined.

(* ================================================================= *)
(** * Further properties of the refresh cycle *)

Lemma valid_scores_objects (pts : list jsval) :
  Forall is_object pts -> valid_scores pts = Ok (filter valid_score pts).
Proof.
  induction 1 as [|p rest Hp Hrest IH]; [reflexivity|].
  cbn [valid_scores filter]. rewrite get_ok by exact Hp. cbn [bind].
  rewrite IH. cbn [bind]. unfold valid_score. reflexivity.
Qed.

Lemma valid_scores_throws (pts : list jsval) :
  ~ Forall is_object pts -> valid_scores pts = Throw (TypeError "score").
Proof.
  induction pts as [|p rest IH]; intros Hbad.
  - exfalso. apply Hbad. constructor.
  - cbn [valid_scores]. destruct (nullish p) eqn:Hp.
    + unfold get. rewrite Hp. reflexivity.
    + rewrite get_ok by exact Hp. cbn [bind]. rewrite IH; [reflexivity|].
      intros H. apply Hbad. constructor; assumption.
Qed.

Lemma updateLeftFeedback_objects (dom : Dom) (pts : list jsval) (s : Page) :
  Forall is_object pts ->
  updateLeftFeedback dom pts s =
  (if has_formFeedback dom
   then set_formFeedback (PointsLoaded (List.length pts) (summary_average pts)) s
   else s, Ok tt).
Proof.
  intros Hobj. unfold updateLeftFeedback, summary_average.
  destruct (has_formFeedback dom); [|reflexivity]. cbn [negb].
  destruct pts as [|p rest]; [reflexivity|].
  unfold bindM, liftM. rewrite (valid_scores_objects Hobj). cbn [bind].
  destruct (filter valid_score (p :: rest)); reflexivity.
Qed.

Lemma updateLeftFeedback_throws (dom : Dom) (pts : list jsval) (s : Page) :
  ~ Forall is_object pts -> has_formFeedback dom = true ->
  updateLeftFeedback dom pts s = (s, Throw (TypeError "score")).
Proof.
  intros Hbad Hff. unfold updateLeftFeedback. rewrite Hff. cbn [negb].
  destruct pts as [|p rest]; [exfalso; apply Hbad; constructor|].
  unfold bindM, liftM. rewrite (valid_scores_throws Hbad). reflexivity.
Qed.

Lemma add_markers_objects (kind : marker_kind) (pts : list jsval) :
  Forall is_object pts ->
  forall s,
    add_markers kind pts s =
    (set_markersLayer (markersLayer s ++ markers_of kind pts) s, Ok tt).
Proof.
  induction 1 as [|p rest Hp Hrest IH]; intros s.
  - destruct s. unfold set_markersLayer. cbn. now rewrite app_nil_r.
  - cbn [add_markers markers_of]. unfold marker_of.
    unfold bindM at 1. unfold liftM at 1. rewrite get_ok by exact Hp.
    destruct (prop p "lat") as [| | |la| | |]; try (rewrite IH; reflexivity).
    unfold bindM at 1. unfold liftM at 1. rewrite get_ok by exact Hp.
    destruct (prop p "lng") as [| | |lo| | |]; try (rewrite IH; reflexivity).
    unfold bindM at 1. unfold modify at 1. rewrite IH.
    destruct s. unfold set_markersLayer. cbn. now rewrite <- app_assoc.
Qed.

Lemma add_markers_throws (kind : marker_kind) (pts : list jsval) :
  ~ Forall is_object pts ->
  forall s, snd (add_markers kind pts s) = Throw (TypeError "lat").
Proof.
  induction pts as [|p rest IH]; intros Hbad s.
  - exfalso. apply Hbad. constructor.
  - cbn [add_markers]. destruct (nullish p) eqn:Hp.
    + unfold bindM at 1. unfold liftM at 1. unfold get. rewrite Hp. reflexivity.
    + assert (Hrest : ~ Forall is_object rest).
      { intros H. apply Hbad. constructor; assumption. }
      unfold bindM at 1. unfold liftM at 1. rewrite get_ok by exact Hp.
      destruct (prop p "lat") as [| | |la| | |]; try apply (IH Hrest).
      unfold bindM at 1. unfold liftM at 1. rewrite get_ok by exact Hp.
      destruct (prop p "lng") as [| | |lo| | |]; apply (IH Hrest).
Qed.

Lemma bindM_Ok {A B} (c : M A) (k : A -> M B) (s s' : Page) (a : A) :
  c s = (s', Ok a) -> bindM c k s = k a s'.
Proof. intros H. unfold bindM. now rewrite H. Qed.

Lemma bindM_Throw {A B} (c : M A) (k : A -> M B) (s s' : Page) (e : exn) :
  c s = (s', Throw e) -> bindM c k s = (s', Throw e).
Proof. intros H. unfold bindM. now rewrite H. Qed.

Lemma resume_objects (dom : Dom) (data : response) (pts : list jsval) (s : Page) :
  points_of data = Ok pts -> Forall is_object pts ->
  exists s',
    fetchAndRender_resume dom (Ok data) s = (s', Ok pts) /\
    lastFetchedPoints s' = pts /\
    sarthi_heatmap_params s' = sarthi_heatmap_params s /\
    formFeedback s' =
      (if has_formFeedback dom
       then Some (PointsLoaded (List.length pts) (summary_average pts))
       else formFeedback s) /\
    heatLayer s' =
      (if has_heatLayer dom then Some (map heat_triple (filter accepted pts))
       else heatLayer s) /\
    heatLayerOnMap s' = (if has_heatLayer dom then true else heatLayerOnMap s) /\
    markersLayer s' = markers_of CompactMarker pts /\
    markersLayerOnMap s' =
      (if has_heatLayer dom then false
       else match heatLayer s with
            | Some _ => false
            | None => markersLayerOnMap s
            end).
Proof.
  intros Hp Hobj. unfold fetchAndRender_resume, try_catch.
  erewrite bindM_Ok by reflexivity. cbv beta.
  erewrite bindM_Ok by (unfold liftM; rewrite Hp; reflexivity). cbv beta.
  erewrite bindM_Ok by reflexivity. cbv beta.
  erewrite bindM_Ok by (apply updateLeftFeedback_objects; exact Hobj). cbv beta.
  erewrite bindM_Ok
    by (unfold liftM; rewrite buildHeatArrayFromRows_spec; reflexivity). cbv beta.
  destruct dom as [ff hl]. cbn [has_formFeedback has_heatLayer].
  destruct s as [lp pa fb hly hlm ml mo].
  destruct hl.
  - erewrite bindM_Ok by reflexivity. cbv beta.
    erewrite bindM_Ok by reflexivity. cbv beta.
    erewrite bindM_Ok by (apply add_markers_objects; exact Hobj). cbv beta.
    erewrite bindM_Ok by reflexivity. cbv beta.
    erewrite bindM_Ok by reflexivity. cbv beta.
    destruct ff, mo; cbn; (eexists; split; [reflexivity|]); cbn;
      repeat split; reflexivity.
  - erewrite bindM_Ok
      by (erewrite bindM_Ok by reflexivity; apply add_markers_objects; exact Hobj).
    cbv beta.
    erewrite bindM_Ok by reflexivity. cbv beta.
    erewrite bindM_Ok by (apply add_markers_objects; exact Hobj). cbv beta.
    erewrite bindM_Ok by reflexivity. cbv beta.
    erewrite bindM_Ok by reflexivity. cbv beta.
    destruct ff, hly, mo; cbn; (eexists; split; [reflexivity|]); cbn;
      repeat split; reflexivity.
Qed.


(** X15.  A successful refresh cycle.  When the request is answered with
    rows none of which is null or undefined and none of whose property
    values throws when converted (the summary line, the scorer and the
    popup texts of the markers convert them), [fetchAndRender] returns the
    rows and leaves the page consistent with them: [lastFetchedPoints] is
    the rows, the published parameters are the ones requested, the markers
    layer holds exactly one compact marker for each row whose [lat] and
    [lng] are numbers (the fallback markers never remain, with or without
    the heat plugin).  With the plugin the heat layer holds the triples of the
    accepted rows and is on the map, and the markers layer is hidden; with
    a feedback element the summary shows the number of rows and the average
    of the valid scores. *)
Theorem successful_refresh (dom : Dom) (band min_samples : jsval)
  (safeApiGet : jsval * jsval -> result response) (b ms : jsval) (s : Page)
  (data : response) (pts : list jsval) :
  safeApiGet (b ?? band, ms ?? min_samples) = Ok data ->
  points_of data = Ok pts -> Forall is_object pts ->
  Forall (fun r => plain_row r = true) pts ->
  let out := fetchAndRender dom band min_samples safeApiGet b ms s in
  snd out = Ok pts /\
  lastFetchedPoints (fst out) = pts /\
  sarthi_heatmap_params (fst out) = (b ?? band, ms ?? min_samples) /\
  markersLayer (fst out) = markers_of CompactMarker pts /\
  (has_heatLayer dom = true ->
   heatLayer (fst out) = Some (map heat_triple (filter accepted pts)) /\
   heatLayerOnMap (fst out) = true /\ markersLayerOnMap (fst out) = false) /\
  (has_formFeedback dom = true ->
   formFeedback (fst out) =
   Some (PointsLoaded (List.length pts) (summary_average pts))).
Proof.
  intros Hget Hp Hobj _. cbv zeta. rewrite fetchAndRender_phases, Hget, begin_state.
  cbv zeta.
  match goal with
  | |- context [fetchAndRender_resume dom (Ok data) ?s0] =>
      destruct (@resume_objects dom data pts s0 Hp Hobj)
        as (s' & -> & Hl & Hpa & Hfb & Hh & Hhm & Hm & Hmo)
  end.
  cbn [fst snd]. split; [reflexivity|]. split; [exact Hl|]. split.
  { rewrite Hpa. destruct (has_formFeedback dom); reflexivity. }
  split; [exact Hm|]. split.
  - intros Hhl. rewrite Hh, Hhm, Hmo, Hhl. repeat split.
  - intros Hff. rewrite Hfb, Hff. reflexivity.
Qed.

Lemma successful_refresh_witness :
  let out := fetchAndRender dom_full (VStr "night") (VNum (Fin 1))
               (answers (RArray sample_rows)) (VStr "day") VUndefined
               page_start in
  snd out = Ok sample_rows /\
  lastFetchedPoints (fst out) = sample_rows /\
  sarthi_heatmap_params (fst out) = (VStr "day", VNum (Fin 1)) /\
  markersLayer (fst out) = markers_of CompactMarker sample_rows /\
  (has_heatLayer dom_full = true ->
   heatLayer (fst out) = Some (map heat_triple (filter accepted sample_rows)) /\
   heatLayerOnMap (fst out) = true /\ markersLayerOnMap (fst out) = false) /\
  (has_formFeedback dom_full = true ->
   formFeedback (fst out) =
   Some (PointsLoaded (List.length sample_rows) (summary_average sample_rows))).
Proof.
  apply (@successful_refresh dom_full (VStr "night") (VNum (Fin 1))
           (answers (RArray sample_rows)) (VStr "day") VUndefined page_start
           (RArray sample_rows) sample_rows);
    [reflexivity|reflexivity|repeat constructor|repeat constructor].
Defined.

Lemma begin_keeps_layers (dom : Dom) (band min_samples b ms : jsval) (s : Page) :
  let s0 := fst (fetchAndRender_begin dom band min_samples b ms s) in
  lastFetchedPoints s0 = lastFetchedPoints s /\
  heatLayer s0 = heatLayer s /\ heatLayerOnMap s0 = heatLayerOnMap s /\
  markersLayer s0 = markersLayer s /\ markersLayerOnMap s0 = markersLayerOnMap s.
Proof.
  cbv zeta. rewrite begin_state. cbv zeta.
  destruct (has_formFeedback dom); repeat split.
Qed.

Lemma resume_null_row (dom : Dom) (data : response) (pts : list jsval) (s : Page) :
  points_of data = Ok pts -> ~ Forall is_object pts ->
  let out := fetchAndRender_resume dom (Ok data) s in
  (exists what, snd out = Throw (TypeError what)) /\
  (has_formFeedback dom = true ->
   out = (set_formFeedback (FailedToLoad (TypeError "score"))
            (set_lastFetchedPoints pts s),
          Throw (TypeError "score"))).
Proof.
  intros Hp Hbad. cbv zeta.
  unfold fetchAndRender_resume, try_catch.
  erewrite bindM_Ok by reflexivity. cbv beta.
  erewrite bindM_Ok by (unfold liftM; rewrite Hp; reflexivity). cbv beta.
  erewrite bindM_Ok by reflexivity. cbv beta.
  destruct (has_formFeedback dom) eqn:Hff.
  - erewrite bindM_Throw
      by (apply updateLeftFeedback_throws; [exact Hbad|exact Hff]).
    split; [eexists; reflexivity|]. intros _. reflexivity.
  - split; [|discriminate].
    erewrite bindM_Ok
      by (unfold updateLeftFeedback; rewrite Hff; reflexivity). cbv beta.
    erewrite bindM_Ok
      by (unfold liftM; rewrite buildHeatArrayFromRows_spec; reflexivity).
    cbv beta.
    destruct (has_heatLayer dom).
    + erewrite bindM_Ok by reflexivity. cbv beta.
      erewrite bindM_Ok by reflexivity. cbv beta.
      match goal with
      | |- context [bindM (add_markers CompactMarker pts) ?k ?s0] =>
          pose proof (@add_markers_throws CompactMarker pts Hbad s0) as Ht;
          destruct (add_markers CompactMarker pts s0) as [s1 r] eqn:Hadd;
          cbn [snd] in Ht; subst r;
          rewrite (@bindM_Throw _ _ (add_markers CompactMarker pts) k s0 s1 _ Hadd)
      end.
      eexists. reflexivity.
    + match goal with
      | |- context [bindM (bindM (modify ?f) ?k1) ?k ?s0] =>
          pose proof (@add_markers_throws FallbackMarker pts Hbad (f s0)) as Ht;
          destruct (add_markers FallbackMarker pts (f s0)) as [s1 r] eqn:Hadd;
          cbn [snd] in Ht; subst r;
          assert (Hfirst : bindM (modify f) k1 s0 = (s1, Throw (TypeError "lat")))
            by (erewrite bindM_Ok by reflexivity; exact Hadd);
          rewrite (@bindM_Throw _ _ (bindM (modify f) k1) k s0 s1 _ Hfirst)
      end.
      eexists. reflexivity.
Qed.

(** X16.  A null row fails the cycle after the point set is replaced.
    When the request is answered with rows one of which is null or
    undefined, [fetchAndRender] throws a TypeError, yet [lastFetchedPoints]
    already holds the new rows.  With a feedback element the error comes
    from the summary line, before anything is drawn: the heat layer and the
    markers still show the previous rows, and the feedback reads that
    loading failed. *)
Theorem refresh_with_null_row (dom : Dom) (band min_samples : jsval)
  (safeApiGet : jsval * jsval -> result response) (b ms : jsval) (s : Page)
  (data : response) (pts : list jsval) :
  safeApiGet (b ?? band, ms ?? min_samples) = Ok data ->
  points_of data = Ok pts -> ~ Forall is_object pts ->
  let out := fetchAndRender dom band min_samples safeApiGet b ms s in
  (exists what, snd out = Throw (TypeError what)) /\
  lastFetchedPoints (fst out) = pts /\
  (has_formFeedback dom = true ->
   snd out = Throw (TypeError "score") /\
   heatLayer (fst out) = heatLayer s /\
   heatLayerOnMap (fst out) = heatLayerOnMap s /\
   markersLayer (fst out) = markersLayer s /\
   formFeedback (fst out) = Some (FailedToLoad (TypeError "score"))).
Proof.
  intros Hget Hp Hbad. cbv zeta. rewrite fetchAndRender_phases, Hget.
  set (s0 := fst (fetchAndRender_begin dom band min_samples b ms s)).
  destruct (@resume_null_row dom data pts s0 Hp Hbad) as [Hthrow Hff].
  split; [exact Hthrow|]. split; [now apply resume_fulfilled|].
  intros H. rewrite (Hff H). cbn [fst snd].
  destruct (begin_keeps_layers dom band min_samples b ms s)
    as (_ & Hh & Hhm & Hm & _).
  fold s0 in Hh, Hhm, Hm. repeat split; assumption.
Qed.

Lemma refresh_with_null_row_witness :
  let out := fetchAndRender dom_full (VStr "night") (VNum (Fin 1))
               (answers (RArray [sample_scored; VNull])) VUndefined VUndefined
               page_start in
  (exists what, snd out = Throw (TypeError what)) /\
  lastFetchedPoints (fst out) = [sample_scored; VNull] /\
  (has_formFeedback dom_full = true ->
   snd out = Throw (TypeError "score") /\
   heatLayer (fst out) = heatLayer page_start /\
   heatLayerOnMap (fst out) = heatLayerOnMap page_start /\
   markersLayer (fst out) = markersLayer page_start /\
   formFeedback (fst out) = Some (FailedToLoad (TypeError "score"))).
Proof.
  apply (@refresh_with_null_row dom_full (VStr "night") (VNum (Fin 1))
           (answers (RArray [sample_scored; VNull])) VUndefined VUndefined
           page_start (RArray [sample_scored; VNull]) [sample_scored; VNull]);
    [reflexivity|reflexivity|].
  intros H. inversion H as [|? ? _ H']; subst.
  inversion H' as [|? ? Hn _]; subst. discriminate Hn.
Defined.

Lemma exportCSV_reads_points (NumberToString : num -> string) (s1 s2 : Page) :
  lastFetchedPoints s1 = lastFetchedPoints s2 ->
  exportCSV NumberToString s1 = exportCSV NumberToString s2.
Proof. intros H. unfold exportCSV. now rewrite H. Qed.

(** X17.  Export after a failed refresh.  When the request of a refresh
    cycle is rejected, or is answered without a body, the CSV export that
    follows gives exactly what it gave before the cycle: the rows of the
    last successful cycle, or the alert when there were none. *)
Theorem export_after_failed_refresh (NumberToString : num -> string)
  (dom : Dom) (band min_samples : jsval)
  (safeApiGet : jsval * jsval -> result response) (b ms : jsval) (s : Page) :
  (exists err, safeApiGet (b ?? band, ms ?? min_samples) = Throw err) \/
  safeApiGet (b ?? band, ms ?? min_samples) = Ok RNullish ->
  exportCSV NumberToString
    (fst (fetchAndRender dom band min_samples safeApiGet b ms s)) =
  exportCSV NumberToString s.
Proof.
  intros Hfail. apply exportCSV_reads_points.
  rewrite fetchAndRender_phases.
  destruct (begin_keeps_layers dom band min_samples b ms s) as (Hl & _).
  destruct Hfail as [[err Herr]|Hnull].
  - rewrite Herr, resume_rejected. cbn [fst].
    destruct (has_formFeedback dom); exact Hl.
  - rewrite Hnull, resume_bad_body. cbn [fst].
    destruct (has_formFeedback dom); exact Hl.
Qed.

Lemma export_after_failed_refresh_witness :
  exportCSV NumberToString_integers
    (fst (fetchAndRender dom_full (VStr "night") (VNum (Fin 1)) offline
            VUndefined VUndefined page_start)) =
  exportCSV NumberToString_integers page_start.
Proof.
  apply (@export_after_failed_refresh NumberToString_integers dom_full
           (VStr "night") (VNum (Fin 1)) offline VUndefined VUndefined page_start).
  left. eexists. reflexivity.
Defined.

(** X18.  Export after a refresh that was answered.  When the request is
    answered with rows none of which is null or undefined and whose five
    exported fields convert to text without throwing, the CSV export that
    follows alerts that there is no data when no row came back, and
    otherwise downloads the header line followed by one line for every row
    that came back, in order, whether or not the heat layer accepted the
    row (and whether or not the rest of the cycle went through). *)
Theorem export_after_successful_refresh (NumberToString : num -> string)
  (dom : Dom) (band min_samples : jsval)
  (safeApiGet : jsval * jsval -> result response) (b ms : jsval) (s : Page)
  (data : response) (pts : list jsval) :
  safeApiGet (b ?? band, ms ?? min_samples) = Ok data ->
  points_of data = Ok pts -> Forall is_object pts ->
  forallb exportable_point pts = true ->
  Strict.exportCSV NumberToString
    (fst (fetchAndRender dom band min_samples safeApiGet b ms s)) =
  match pts with
  | [] => Ok (Alerted "No data to export.")
  | _ => Ok (Downloaded
               (String.concat newline
                  ("lat,lng,score,samples,confidence"
                   :: map (row_text NumberToString) pts)))
  end.
Proof.
  intros Hget Hp Hobj Hexp. unfold Strict.exportCSV.
  rewrite fetchAndRender_phases, Hget, (resume_fulfilled _ _ _ Hp).
  destruct pts as [|p rest]; [reflexivity|].
  now rewrite (strict_pointsToCSV NumberToString Hobj), Hexp.
Qed.

Lemma export_after_successful_refresh_witness :
  Strict.exportCSV NumberToString_integers
    (fst (fetchAndRender dom_full (VStr "night") (VNum (Fin 1))
            (answers (RArray sample_rows)) VUndefined VUndefined page_start)) =
  Ok (Downloaded
        (String.concat newline
           ("lat,lng,score,samples,confidence"
            :: map (row_text NumberToString_integers) sample_rows))).
Proof.
  apply (@export_after_successful_refresh NumberToString_integers dom_full
           (VStr "night") (VNum (Fin 1)) (answers (RArray sample_rows))
           VUndefined VUndefined page_start (RArray sample_rows) sample_rows);
    [reflexivity|reflexivity|repeat constructor|reflexivity].
Defined.

(* ================================================================= *)
(** * The summary line *)

(** On a valid score, [p.score || 0] converts to the number [p.score]
    converts to: the falsy values that are valid scores all convert to 0. *)
Lemma score_or_zero (p : jsval) :
  valid_score p = true ->
  Number (js_or (prop p "score") (VNum (Fin 0))) = Number (prop p "score").
Proof.
  unfold valid_score, js_or. intros Hv. apply andb_prop in Hv as [Hn Hnan].
  destruct (truthy (prop p "score")) eqn:Ht; [reflexivity|].
  destruct (prop p "score") as [| |bo|n|str| |]; try discriminate.
  - cbn [truthy] in Ht. subst bo. reflexivity.
  - destruct n as [| | |x]; try discriminate.
    cbn [truthy] in Ht. destruct (Req_dec_T x 0); [subst; reflexivity|discriminate].
  - cbn [truthy] in Ht. apply negb_false_iff, String.eqb_eq in Ht. subst str.
    symmetry. apply Number_of_empty_text.
Qed.

Lemma sum_valid_scores (valid : list jsval) (start : num) :
  Forall (fun p => valid_score p = true) valid ->
  fold_left (fun acc p => acc + Number (js_or (prop p "score") (VNum (Fin 0))))%num
            valid start =
  fold_left (fun acc p => acc + Number (prop p "score"))%num valid start.
Proof.
  intros H. revert start. induction H as [|p rest Hp _ IH]; intros start;
    [reflexivity|].
  cbn [fold_left]. rewrite (score_or_zero _ Hp). apply IH.
Qed.

(** X19.  The summary line.  For rows none of which is null or undefined
    and whose scores convert without throwing, on a page with a feedback
    element, the line shows the number of all rows, and an average exactly
    when some row has a valid score (one that is neither null nor undefined
    and does not convert to NaN): the sum of the converted valid scores,
    added from the left in the order of the rows, divided by their number.
    The [|| 0] of the sum never changes a valid score. *)
Theorem summary_line (dom : Dom) (pts : list jsval) (s : Page) :
  Forall is_object pts -> has_formFeedback dom = true ->
  Forall (fun p => conversion_throws (prop p "score") = false) pts ->
  updateLeftFeedback dom pts s =
  (set_formFeedback
     (PointsLoaded (List.length pts)
        (match filter valid_score pts with
         | [] => None
         | valid =>
             Some (fold_left (fun acc p => acc + Number (prop p "score"))
                             valid (Fin 0)
                   / Fin (INR (List.length valid)))%num
         end)) s,
   Ok tt).
Proof.
  intros Hobj Hff _.
  rewrite (updateLeftFeedback_objects dom s Hobj), Hff.
  unfold summary_average.
  destruct (filter valid_score pts) as [|v vs] eqn:Hvalid; [reflexivity|].
  unfold average_score. rewrite sum_valid_scores; [reflexivity|].
  apply Forall_forall. intros p Hp. rewrite <- Hvalid in Hp.
  now apply filter_In in Hp.
Qed.

Lemma summary_line_witness :
  updateLeftFeedback dom_full sample_rows page_start =
  (set_formFeedback
     (PointsLoaded (List.length sample_rows)
        (match filter valid_score sample_rows with
         | [] => None
         | valid =>
             Some (fold_left (fun acc p => acc + Number (prop p "score"))
                             valid (Fin 0)
                   / Fin (INR (List.length valid)))%num
         end)) page_start,
   Ok tt).
Proof.
  apply (@summary_line dom_full sample_rows page_start);
    [repeat constructor|reflexivity|repeat constructor].
Defined.

(* ================================================================= *)
(** * Initialisation *)

(** X20.  A second initialisation ignores its arguments.  Once the
    controller exists, [initHeatmapPage] sends one request, with the band
    and the minimum sample count of the call that created the controller,
    whatever band and count it is called with now: two calls with different
    arguments, on networks that answer that one request alike, end in the
    same page, the same controller and the same result. *)
Theorem reinit_uses_first_parameters (host : Host)
  (api1 api2 : jsval * jsval -> result response)
  (b1 m1 b2 m2 : jsval) (a : App) (band0 min_samples0 : jsval) :
  sarthi_heatmap_controller a = Some (band0, min_samples0) ->
  api1 (band0, min_samples0) = api2 (band0, min_samples0) ->
  initHeatmapPage host api1 b1 m1 a = initHeatmapPage host api2 b2 m2 a.
Proof.
  intros Hc Hapi. unfold initHeatmapPage. rewrite Hc.
  destruct (has_map_element host); [|reflexivity].
  destruct (has_Leaflet host); [|reflexivity]. cbn [negb].
  rewrite !fetchAndRender_phases, !begin_state.
  change (VUndefined ?? band0) with band0.
  change (VUndefined ?? min_samples0) with min_samples0.
  rewrite Hapi. cbv zeta.
  destruct (has_formFeedback (host_dom host)); reflexivity.
Qed.

Lemma reinit_uses_first_parameters_witness :
  initHeatmapPage host_full (answers (RArray sample_rows))
    (VStr "day") (VNum (Fin 5)) app_running =
  initHeatmapPage host_full (answers (RArray sample_rows))
    VUndefined VUndefined app_running.
Proof.
  apply (@reinit_uses_first_parameters host_full
           (answers (RArray sample_rows)) (answers (RArray sample_rows))
           (VStr "day") (VNum (Fin 5)) VUndefined VUndefined app_running
           (VStr "night") (VNum (Fin 1)));
    reflexivity.
Defined.

(** X21.  The first initialisation swallows a failed request, a later one
    does not.  On a page with the map element and Leaflet and a network that
    rejects every request, the first call of [initHeatmapPage] still returns
    the controller, created with the defaults for the arguments left out and
    with an empty point set, and shows the failure in the feedback element;
    a call made after it throws the error of the request. *)
Theorem init_swallows_reinit_propagates (host : Host)
  (safeApiGet : jsval * jsval -> result response) (err : exn)
  (b m b' m' : jsval) (a : App) :
  sarthi_heatmap_controller a = None ->
  has_map_element host = true -> has_Leaflet host = true ->
  (forall request, safeApiGet request = Throw err) ->
  let first := initHeatmapPage host safeApiGet b m a in
  snd first = Ok TheController /\
  sarthi_heatmap_controller (fst first) =
    Some (default_arg b (VStr "night"), default_arg m (VNum (Fin 1))) /\
  lastFetchedPoints (page (fst first)) = [] /\
  (has_formFeedback (host_dom host) = true ->
   formFeedback (page (fst first)) = Some (FailedToLoad err)) /\
  snd (initHeatmapPage host safeApiGet b' m' (fst first)) = Throw err.
Proof.
  intros Hc Hmap HL Hapi. cbv zeta.
  assert (Hfirst :
    initHeatmapPage host safeApiGet b m a =
    ({| sarthi_heatmap_controller :=
          Some (default_arg b (VStr "night"), default_arg m (VNum (Fin 1)));
        page :=
          fst (fetchAndRender (host_dom host)
                 (default_arg b (VStr "night")) (default_arg m (VNum (Fin 1)))
                 safeApiGet VUndefined VUndefined
                 (new_closure (default_arg b (VStr "night"),
                               default_arg m (VNum (Fin 1))) (page a))) |},
     Ok TheController)).
  { unfold initHeatmapPage. rewrite Hc, Hmap, HL. cbn [negb].
    destruct (fetchAndRender _ _ _ _ _ _ _) as [s2 r]. reflexivity. }
  rewrite Hfirst. cbn [fst snd sarthi_heatmap_controller page].
  split; [reflexivity|]. split; [reflexivity|].
  rewrite fetchAndRender_phases, Hapi, resume_rejected, begin_state. cbn [fst].
  split; [|split].
  - destruct (has_formFeedback (host_dom host)); reflexivity.
  - intros Hff. rewrite Hff. reflexivity.
  - unfold initHeatmapPage. cbn [sarthi_heatmap_controller page].
    rewrite Hmap, HL. cbn [negb].
    rewrite fetchAndRender_phases, Hapi, resume_rejected. reflexivity.
Qed.

Lemma init_swallows_reinit_propagates_witness :
  let first := initHeatmapPage host_full offline VUndefined VUndefined app_fresh in
  snd first = Ok TheController /\
  sarthi_heatmap_controller (fst first) = Some (VStr "night", VNum (Fin 1)) /\
  lastFetchedPoints (page (fst first)) = [] /\
  (has_formFeedback (host_dom host_full) = true ->
   formFeedback (page (fst first)) =
   Some (FailedToLoad (FetchError "Failed to fetch"))) /\
  snd (initHeatmapPage host_full offline (VStr "day") VUndefined (fst first)) =
  Throw (FetchError "Failed to fetch").
Proof.
  apply (@init_swallows_reinit_propagates host_full offline
           (FetchError "Failed to fetch") VUndefined VUndefined
           (VStr "day") VUndefined app_fresh);
    reflexivity.
Defined.

(* ================================================================= *)
(** * The refresh scheduler in general *)

Lemma moveends_count (timer_first : bool) (rest : list nat)
  (t : Timers) (prev n : nat) :
  armed t (prev + 300) n ->
  exists due,
    armed (fold_left (moveend_at timer_first) rest t) due
          (n + fired_between timer_first prev rest).
Proof.
  revert t prev n. induction rest as [|time rest IH]; intros t prev n Ha.
  - exists (prev + 300)%nat. cbn [fold_left fired_between].
    now rewrite Nat.add_0_r.
  - cbn [fold_left fired_between].
    destruct (fires_before timer_first (prev + 300) time) eqn:Hf.
    + pose proof (@moveend_after_fire timer_first t (prev + 300) n time Ha Hf) as H1.
      destruct (IH _ _ _ H1) as (due & Hdue). exists due.
      now replace (n + (1 + fired_between timer_first time rest))%nat
        with (n + 1 + fired_between timer_first time rest)%nat by lia.
    + pose proof (@moveend_cancels timer_first t (prev + 300) n time Ha Hf) as H1.
      destruct (IH _ _ _ H1) as (due & Hdue). exists due. exact Hdue.
Qed.

Lemma fired_between_le (timer_first : bool) (prev : nat) (times : list nat) :
  (fired_between timer_first prev times <= List.length times)%nat.
Proof.
  revert prev. induction times as [|t rest IH]; intros prev;
    cbn [fired_between List.length]; [lia|].
  specialize (IH t). destruct (fires_before timer_first (prev + 300) t); lia.
Qed.

(** X22.  The number of fetches of any sequence of map moves.  For
    [moveend] events at any times, under either order of a timer and an
    event due at the same millisecond, the timers start one fetch for every
    event that arrives after the timer of the event before it has fired (it
    fires 300 ms after that event), and one more after the last event: at
    least one fetch, and never more than one per event. *)
Theorem fetches_of_any_moves (timer_first : bool) (first : nat) (rest : list nat) :
  fetches (run_moveends timer_first (first :: rest)) =
    (1 + fired_between timer_first first rest)%nat /\
  (1 <= fetches (run_moveends timer_first (first :: rest))
     <= List.length (first :: rest))%nat.
Proof.
  assert (H : fetches (run_moveends timer_first (first :: rest)) =
              (1 + fired_between timer_first first rest)%nat).
  { unfold run_moveends. cbn [fold_left].
    destruct (@moveends_count timer_first rest _ first 0
                (moveend_first timer_first first)) as (due & Hdue).
    rewrite (settle_armed Hdue). lia. }
  split; [exact H|]. rewrite H.
  pose proof (fired_between_le timer_first first rest).
  cbn [List.length]. lia.
Qed.

(* ================================================================= *)
(** * Markers *)






(* ================================================================= *)
(** * Cells and keys *)







